(** * RTOps: the ATT&CK ingestion pipeline of [rto_platform.py]

    A shallow embedding of the technique catalog ([ttps] table), the
    settings table, the three importers ([_try_import_from_stix_or_layer]
    for STIX bundles and Navigator layers, [_try_enrich_from_xlsx] for the
    spreadsheet), the seeding hook, the [/admin/load_mitre] route, and,
    on the reading side, [esc_attr] and the body of the [/mitre] page,
    followed by the properties of the pipeline.

    Modelling conventions.
    - Strings are Rocq [string]s holding UTF-8; [Py.lower] and [Py.strip]
      follow Python on every code point.
    - SQL [NULL] is [None]; the [ttps] table is the list of its rows in
      rowid order; the [settings] table (primary key [key]) is a finite map.
    - Python code runs in the monad [py]: it threads the [world] (the
      connection's view of the database, the committed database file and
      the clock) and either returns a value or raises.
    - JSON documents are well-typed up to their list items: an item of
      [objects] or [techniques] that is not a dictionary makes the [.get]
      call raise. The value under ["external_id"], which the code renders
      with [str()], is any JSON value. Spreadsheet cells are empty, text,
      or any other value. *)

From Stdlib Require Import Ascii String NArith Lia DecimalString.
From stdpp Require Import base strings list gmap sorting.

Local Open Scope string_scope.
Local Open Scope list_scope.

(** ** Python string methods

    A Rocq [string] holds the UTF-8 encoding of a Python [str]. The
    methods that depend on the characters ([lower], [strip]) work on the
    code points; the others ([startswith], [in], [replace], [split]) work
    on the bytes, which gives the same result because no UTF-8 sequence
    occurs inside another. The character tables are those of Unicode
    14.0, which Python 3.11 uses. *)

Module Py.

Local Open Scope N_scope.

(** A byte that is not part of a well-formed sequence is kept apart from
    the code points and written back as it was. *)
Definition stray (a : ascii) : N := 1114112 + N_of_ascii a.

Definition continuation (a : ascii) : option N :=
  let n := N_of_ascii a in
  if (128 <=? n) && (n <=? 191) then Some (n - 128) else None.

(** The code points of a string. *)
Fixpoint decode (s : string) : list N :=
  match s with
  | EmptyString => []
  | String a s1 =>
      let n := N_of_ascii a in
      let kept := fun _ : unit => stray a :: decode s1 in
      if n <? 128 then n :: decode s1
      else if n <? 194 then kept tt
      else if n <? 224 then
        match s1 with
        | String b s2 =>
            match continuation b with
            | Some x => ((n - 192) * 64 + x) :: decode s2
            | None => kept tt
            end
        | _ => kept tt
        end
      else if n <? 240 then
        match s1 with
        | String b (String c s3) =>
            match continuation b, continuation c with
            | Some x, Some y =>
                let p := ((n - 224) * 64 + x) * 64 + y in
                if 2048 <=? p then p :: decode s3 else kept tt
            | _, _ => kept tt
            end
        | _ => kept tt
        end
      else if n <? 245 then
        match s1 with
        | String b (String c (String d s4)) =>
            match continuation b, continuation c, continuation d with
            | Some x, Some y, Some z =>
                let p := (((n - 240) * 64 + x) * 64 + y) * 64 + z in
                if (65536 <=? p) && (p <? 1114112) then p :: decode s4 else kept tt
            | _, _, _ => kept tt
            end
        | _ => kept tt
        end
      else kept tt
  end.

Definition bytes (l : list N) : string :=
  fold_right (fun n s => String (ascii_of_N n) s) EmptyString l.

Definition encode_point (p : N) : string :=
  if p <? 128 then bytes [p]
  else if p <? 2048 then bytes [192 + p / 64; 128 + p mod 64]
  else if p <? 65536 then bytes [224 + p / 4096; 128 + (p / 64) mod 64; 128 + p mod 64]
  else if p <? 1114112 then
    bytes [240 + p / 262144; 128 + (p / 4096) mod 64; 128 + (p / 64) mod 64; 128 + p mod 64]
  else bytes [p - 1114112].

Definition encode (l : list N) : string :=
  fold_right (fun p s => String.append (encode_point p) s) EmptyString l.

Definition in_ranges (p : N) (ranges : list (N * N)) : bool :=
  existsb (fun r => (fst r <=? p) && (p <=? snd r)) ranges.

(** The code points on which [str.isspace] holds; [str.strip] removes
    them. *)
Definition WHITESPACE : list (N * N) :=
  [
    (9, 13); (28, 32); (133, 133); (160, 160); (5760, 5760); (8192, 8202); (8232, 8233);
    (8239, 8239); (8287, 8287); (12288, 12288) ].

Definition is_space (p : N) : bool := in_ranges p WHITESPACE.

(** The simple lower-case mappings: [(first, last, step, image of first)];
    the code points [first], [first + step], ... up to [last] map to the
    image of [first] advanced by the same distance. *)
Definition LOWER : list (N * N * N * N) :=
  [
    (65, 90, 1, 97); (192, 214, 1, 224); (216, 222, 1, 248); (256, 302, 2, 257);
    (306, 310, 2, 307); (313, 327, 2, 314); (330, 374, 2, 331); (376, 376, 1, 255);
    (377, 381, 2, 378); (385, 385, 1, 595); (386, 388, 2, 387); (390, 390, 1, 596);
    (391, 391, 1, 392); (393, 394, 1, 598); (395, 395, 1, 396); (398, 398, 1, 477);
    (399, 399, 1, 601); (400, 400, 1, 603); (401, 401, 1, 402); (403, 403, 1, 608);
    (404, 404, 1, 611); (406, 406, 1, 617); (407, 407, 1, 616); (408, 408, 1, 409);
    (412, 412, 1, 623); (413, 413, 1, 626); (415, 415, 1, 629); (416, 420, 2, 417);
    (422, 422, 1, 640); (423, 423, 1, 424); (425, 425, 1, 643); (428, 428, 1, 429);
    (430, 430, 1, 648); (431, 431, 1, 432); (433, 434, 1, 650); (435, 437, 2, 436);
    (439, 439, 1, 658); (440, 440, 1, 441); (444, 444, 1, 445); (452, 452, 1, 454);
    (453, 453, 1, 454); (455, 455, 1, 457); (456, 456, 1, 457); (458, 458, 1, 460);
    (459, 475, 2, 460); (478, 494, 2, 479); (497, 497, 1, 499); (498, 500, 2, 499);
    (502, 502, 1, 405); (503, 503, 1, 447); (504, 542, 2, 505); (544, 544, 1, 414);
    (546, 562, 2, 547); (570, 570, 1, 11365); (571, 571, 1, 572); (573, 573, 1, 410);
    (574, 574, 1, 11366); (577, 577, 1, 578); (579, 579, 1, 384); (580, 580, 1, 649);
    (581, 581, 1, 652); (582, 590, 2, 583); (880, 882, 2, 881); (886, 886, 1, 887);
    (895, 895, 1, 1011); (902, 902, 1, 940); (904, 906, 1, 941); (908, 908, 1, 972);
    (910, 911, 1, 973); (913, 929, 1, 945); (932, 939, 1, 964); (975, 975, 1, 983);
    (984, 1006, 2, 985); (1012, 1012, 1, 952); (1015, 1015, 1, 1016); (1017, 1017, 1, 1010);
    (1018, 1018, 1, 1019); (1021, 1023, 1, 891); (1024, 1039, 1, 1104); (1040, 1071, 1, 1072);
    (1120, 1152, 2, 1121); (1162, 1214, 2, 1163); (1216, 1216, 1, 1231); (1217, 1229, 2, 1218);
    (1232, 1326, 2, 1233); (1329, 1366, 1, 1377); (4256, 4293, 1, 11520);
    (4295, 4295, 1, 11559); (4301, 4301, 1, 11565); (5024, 5103, 1, 43888);
    (5104, 5109, 1, 5112); (7312, 7354, 1, 4304); (7357, 7359, 1, 4349); (7680, 7828, 2, 7681);
    (7838, 7838, 1, 223); (7840, 7934, 2, 7841); (7944, 7951, 1, 7936); (7960, 7965, 1, 7952);
    (7976, 7983, 1, 7968); (7992, 7999, 1, 7984); (8008, 8013, 1, 8000); (8025, 8031, 2, 8017);
    (8040, 8047, 1, 8032); (8072, 8079, 1, 8064); (8088, 8095, 1, 8080); (8104, 8111, 1, 8096);
    (8120, 8121, 1, 8112); (8122, 8123, 1, 8048); (8124, 8124, 1, 8115); (8136, 8139, 1, 8050);
    (8140, 8140, 1, 8131); (8152, 8153, 1, 8144); (8154, 8155, 1, 8054); (8168, 8169, 1, 8160);
    (8170, 8171, 1, 8058); (8172, 8172, 1, 8165); (8184, 8185, 1, 8056); (8186, 8187, 1, 8060);
    (8188, 8188, 1, 8179); (8486, 8486, 1, 969); (8490, 8490, 1, 107); (8491, 8491, 1, 229);
    (8498, 8498, 1, 8526); (8544, 8559, 1, 8560); (8579, 8579, 1, 8580); (9398, 9423, 1, 9424);
    (11264, 11311, 1, 11312); (11360, 11360, 1, 11361); (11362, 11362, 1, 619);
    (11363, 11363, 1, 7549); (11364, 11364, 1, 637); (11367, 11371, 2, 11368);
    (11373, 11373, 1, 593); (11374, 11374, 1, 625); (11375, 11375, 1, 592);
    (11376, 11376, 1, 594); (11378, 11378, 1, 11379); (11381, 11381, 1, 11382);
    (11390, 11391, 1, 575); (11392, 11490, 2, 11393); (11499, 11501, 2, 11500);
    (11506, 11506, 1, 11507); (42560, 42604, 2, 42561); (42624, 42650, 2, 42625);
    (42786, 42798, 2, 42787); (42802, 42862, 2, 42803); (42873, 42875, 2, 42874);
    (42877, 42877, 1, 7545); (42878, 42886, 2, 42879); (42891, 42891, 1, 42892);
    (42893, 42893, 1, 613); (42896, 42898, 2, 42897); (42902, 42920, 2, 42903);
    (42922, 42922, 1, 614); (42923, 42923, 1, 604); (42924, 42924, 1, 609);
    (42925, 42925, 1, 620); (42926, 42926, 1, 618); (42928, 42928, 1, 670);
    (42929, 42929, 1, 647); (42930, 42930, 1, 669); (42931, 42931, 1, 43859);
    (42932, 42946, 2, 42933); (42948, 42948, 1, 42900); (42949, 42949, 1, 642);
    (42950, 42950, 1, 7566); (42951, 42953, 2, 42952); (42960, 42960, 1, 42961);
    (42966, 42968, 2, 42967); (42997, 42997, 1, 42998); (65313, 65338, 1, 65345);
    (66560, 66599, 1, 66600); (66736, 66771, 1, 66776); (66928, 66938, 1, 66967);
    (66940, 66954, 1, 66979); (66956, 66962, 1, 66995); (66964, 66965, 1, 67003);
    (68736, 68786, 1, 68800); (71840, 71871, 1, 71872); (93760, 93791, 1, 93792);
    (125184, 125217, 1, 125218) ].

(** The code points that are cased and not case-ignorable. *)
Definition CASED : list (N * N) :=
  [
    (65, 90); (97, 122); (170, 170); (181, 181); (186, 186); (192, 214); (216, 246);
    (248, 442); (444, 447); (452, 659); (661, 687); (880, 883); (886, 887); (891, 893);
    (895, 895); (902, 902); (904, 906); (908, 908); (910, 929); (931, 1013); (1015, 1153);
    (1162, 1327); (1329, 1366); (1376, 1416); (4256, 4293); (4295, 4295); (4301, 4301);
    (4304, 4346); (4349, 4351); (5024, 5109); (5112, 5117); (7296, 7304); (7312, 7354);
    (7357, 7359); (7424, 7467); (7531, 7543); (7545, 7578); (7680, 7957); (7960, 7965);
    (7968, 8005); (8008, 8013); (8016, 8023); (8025, 8025); (8027, 8027); (8029, 8029);
    (8031, 8061); (8064, 8116); (8118, 8124); (8126, 8126); (8130, 8132); (8134, 8140);
    (8144, 8147); (8150, 8155); (8160, 8172); (8178, 8180); (8182, 8188); (8450, 8450);
    (8455, 8455); (8458, 8467); (8469, 8469); (8473, 8477); (8484, 8484); (8486, 8486);
    (8488, 8488); (8490, 8493); (8495, 8500); (8505, 8505); (8508, 8511); (8517, 8521);
    (8526, 8526); (8544, 8575); (8579, 8580); (9398, 9449); (11264, 11387); (11390, 11492);
    (11499, 11502); (11506, 11507); (11520, 11557); (11559, 11559); (11565, 11565);
    (42560, 42605); (42624, 42651); (42786, 42863); (42865, 42887); (42891, 42894);
    (42896, 42954); (42960, 42961); (42963, 42963); (42965, 42969); (42997, 42998);
    (43002, 43002); (43824, 43866); (43872, 43880); (43888, 43967); (64256, 64262);
    (64275, 64279); (65313, 65338); (65345, 65370); (66560, 66639); (66736, 66771);
    (66776, 66811); (66928, 66938); (66940, 66954); (66956, 66962); (66964, 66965);
    (66967, 66977); (66979, 66993); (66995, 67001); (67003, 67004); (68736, 68786);
    (68800, 68850); (71840, 71903); (93760, 93823); (119808, 119892); (119894, 119964);
    (119966, 119967); (119970, 119970); (119973, 119974); (119977, 119980); (119982, 119993);
    (119995, 119995); (119997, 120003); (120005, 120069); (120071, 120074); (120077, 120084);
    (120086, 120092); (120094, 120121); (120123, 120126); (120128, 120132); (120134, 120134);
    (120138, 120144); (120146, 120485); (120488, 120512); (120514, 120538); (120540, 120570);
    (120572, 120596); (120598, 120628); (120630, 120654); (120656, 120686); (120688, 120712);
    (120714, 120744); (120746, 120770); (120772, 120779); (122624, 122633); (122635, 122654);
    (125184, 125251); (127280, 127305); (127312, 127337); (127344, 127369) ].

(** The case-ignorable code points. *)
Definition CASE_IGNORABLE : list (N * N) :=
  [
    (39, 39); (46, 46); (58, 58); (94, 94); (96, 96); (168, 168); (173, 173); (175, 175);
    (180, 180); (183, 184); (688, 879); (884, 885); (890, 890); (900, 901); (903, 903);
    (1155, 1161); (1369, 1369); (1375, 1375); (1425, 1469); (1471, 1471); (1473, 1474);
    (1476, 1477); (1479, 1479); (1524, 1524); (1536, 1541); (1552, 1562); (1564, 1564);
    (1600, 1600); (1611, 1631); (1648, 1648); (1750, 1757); (1759, 1768); (1770, 1773);
    (1807, 1807); (1809, 1809); (1840, 1866); (1958, 1968); (2027, 2037); (2042, 2042);
    (2045, 2045); (2070, 2093); (2137, 2139); (2184, 2184); (2192, 2193); (2200, 2207);
    (2249, 2306); (2362, 2362); (2364, 2364); (2369, 2376); (2381, 2381); (2385, 2391);
    (2402, 2403); (2417, 2417); (2433, 2433); (2492, 2492); (2497, 2500); (2509, 2509);
    (2530, 2531); (2558, 2558); (2561, 2562); (2620, 2620); (2625, 2626); (2631, 2632);
    (2635, 2637); (2641, 2641); (2672, 2673); (2677, 2677); (2689, 2690); (2748, 2748);
    (2753, 2757); (2759, 2760); (2765, 2765); (2786, 2787); (2810, 2815); (2817, 2817);
    (2876, 2876); (2879, 2879); (2881, 2884); (2893, 2893); (2901, 2902); (2914, 2915);
    (2946, 2946); (3008, 3008); (3021, 3021); (3072, 3072); (3076, 3076); (3132, 3132);
    (3134, 3136); (3142, 3144); (3146, 3149); (3157, 3158); (3170, 3171); (3201, 3201);
    (3260, 3260); (3263, 3263); (3270, 3270); (3276, 3277); (3298, 3299); (3328, 3329);
    (3387, 3388); (3393, 3396); (3405, 3405); (3426, 3427); (3457, 3457); (3530, 3530);
    (3538, 3540); (3542, 3542); (3633, 3633); (3636, 3642); (3654, 3662); (3761, 3761);
    (3764, 3772); (3782, 3782); (3784, 3789); (3864, 3865); (3893, 3893); (3895, 3895);
    (3897, 3897); (3953, 3966); (3968, 3972); (3974, 3975); (3981, 3991); (3993, 4028);
    (4038, 4038); (4141, 4144); (4146, 4151); (4153, 4154); (4157, 4158); (4184, 4185);
    (4190, 4192); (4209, 4212); (4226, 4226); (4229, 4230); (4237, 4237); (4253, 4253);
    (4348, 4348); (4957, 4959); (5906, 5908); (5938, 5939); (5970, 5971); (6002, 6003);
    (6068, 6069); (6071, 6077); (6086, 6086); (6089, 6099); (6103, 6103); (6109, 6109);
    (6155, 6159); (6211, 6211); (6277, 6278); (6313, 6313); (6432, 6434); (6439, 6440);
    (6450, 6450); (6457, 6459); (6679, 6680); (6683, 6683); (6742, 6742); (6744, 6750);
    (6752, 6752); (6754, 6754); (6757, 6764); (6771, 6780); (6783, 6783); (6823, 6823);
    (6832, 6862); (6912, 6915); (6964, 6964); (6966, 6970); (6972, 6972); (6978, 6978);
    (7019, 7027); (7040, 7041); (7074, 7077); (7080, 7081); (7083, 7085); (7142, 7142);
    (7144, 7145); (7149, 7149); (7151, 7153); (7212, 7219); (7222, 7223); (7288, 7293);
    (7376, 7378); (7380, 7392); (7394, 7400); (7405, 7405); (7412, 7412); (7416, 7417);
    (7468, 7530); (7544, 7544); (7579, 7679); (8125, 8125); (8127, 8129); (8141, 8143);
    (8157, 8159); (8173, 8175); (8189, 8190); (8203, 8207); (8216, 8217); (8228, 8228);
    (8231, 8231); (8234, 8238); (8288, 8292); (8294, 8303); (8305, 8305); (8319, 8319);
    (8336, 8348); (8400, 8432); (11388, 11389); (11503, 11505); (11631, 11631); (11647, 11647);
    (11744, 11775); (11823, 11823); (12293, 12293); (12330, 12333); (12337, 12341);
    (12347, 12347); (12441, 12446); (12540, 12542); (40981, 40981); (42232, 42237);
    (42508, 42508); (42607, 42610); (42612, 42621); (42623, 42623); (42652, 42655);
    (42736, 42737); (42752, 42785); (42864, 42864); (42888, 42890); (42994, 42996);
    (43000, 43001); (43010, 43010); (43014, 43014); (43019, 43019); (43045, 43046);
    (43052, 43052); (43204, 43205); (43232, 43249); (43263, 43263); (43302, 43309);
    (43335, 43345); (43392, 43394); (43443, 43443); (43446, 43449); (43452, 43453);
    (43471, 43471); (43493, 43494); (43561, 43566); (43569, 43570); (43573, 43574);
    (43587, 43587); (43596, 43596); (43632, 43632); (43644, 43644); (43696, 43696);
    (43698, 43700); (43703, 43704); (43710, 43711); (43713, 43713); (43741, 43741);
    (43756, 43757); (43763, 43764); (43766, 43766); (43867, 43871); (43881, 43883);
    (44005, 44005); (44008, 44008); (44013, 44013); (64286, 64286); (64434, 64450);
    (65024, 65039); (65043, 65043); (65056, 65071); (65106, 65106); (65109, 65109);
    (65279, 65279); (65287, 65287); (65294, 65294); (65306, 65306); (65342, 65342);
    (65344, 65344); (65392, 65392); (65438, 65439); (65507, 65507); (65529, 65531);
    (66045, 66045); (66272, 66272); (66422, 66426); (67456, 67461); (67463, 67504);
    (67506, 67514); (68097, 68099); (68101, 68102); (68108, 68111); (68152, 68154);
    (68159, 68159); (68325, 68326); (68900, 68903); (69291, 69292); (69446, 69456);
    (69506, 69509); (69633, 69633); (69688, 69702); (69744, 69744); (69747, 69748);
    (69759, 69761); (69811, 69814); (69817, 69818); (69821, 69821); (69826, 69826);
    (69837, 69837); (69888, 69890); (69927, 69931); (69933, 69940); (70003, 70003);
    (70016, 70017); (70070, 70078); (70089, 70092); (70095, 70095); (70191, 70193);
    (70196, 70196); (70198, 70199); (70206, 70206); (70367, 70367); (70371, 70378);
    (70400, 70401); (70459, 70460); (70464, 70464); (70502, 70508); (70512, 70516);
    (70712, 70719); (70722, 70724); (70726, 70726); (70750, 70750); (70835, 70840);
    (70842, 70842); (70847, 70848); (70850, 70851); (71090, 71093); (71100, 71101);
    (71103, 71104); (71132, 71133); (71219, 71226); (71229, 71229); (71231, 71232);
    (71339, 71339); (71341, 71341); (71344, 71349); (71351, 71351); (71453, 71455);
    (71458, 71461); (71463, 71467); (71727, 71735); (71737, 71738); (71995, 71996);
    (71998, 71998); (72003, 72003); (72148, 72151); (72154, 72155); (72160, 72160);
    (72193, 72202); (72243, 72248); (72251, 72254); (72263, 72263); (72273, 72278);
    (72281, 72283); (72330, 72342); (72344, 72345); (72752, 72758); (72760, 72765);
    (72767, 72767); (72850, 72871); (72874, 72880); (72882, 72883); (72885, 72886);
    (73009, 73014); (73018, 73018); (73020, 73021); (73023, 73029); (73031, 73031);
    (73104, 73105); (73109, 73109); (73111, 73111); (73459, 73460); (78896, 78904);
    (92912, 92916); (92976, 92982); (92992, 92995); (94031, 94031); (94095, 94111);
    (94176, 94177); (94179, 94180); (110576, 110579); (110581, 110587); (110589, 110590);
    (113821, 113822); (113824, 113827); (118528, 118573); (118576, 118598); (119143, 119145);
    (119155, 119170); (119173, 119179); (119210, 119213); (119362, 119364); (121344, 121398);
    (121403, 121452); (121461, 121461); (121476, 121476); (121499, 121503); (121505, 121519);
    (122880, 122886); (122888, 122904); (122907, 122913); (122915, 122916); (122918, 122922);
    (123184, 123197); (123566, 123566); (123628, 123631); (125136, 125142); (125252, 125259);
    (127995, 127999); (917505, 917505); (917536, 917631); (917760, 917999) ].

Definition lower_simple (p : N) : N :=
  match find (fun e => match e with
                       | (first, last, step, _) =>
                           (first <=? p) && (p <=? last) && ((p - first) mod step =? 0)
                       end) LOWER with
  | Some (first, _, _, image) => image + (p - first)
  | None => p
  end.

Fixpoint skip_ignorable (l : list N) : list N :=
  match l with
  | p :: l' => if in_ranges p CASE_IGNORABLE then skip_ignorable l' else l
  | [] => []
  end.

(** The capital sigma at the end of a word: a cased letter before it, none
    after it, case-ignorable code points not counting. [before] is the
    text before the sigma, nearest first. *)
Definition final_sigma (before after : list N) : bool :=
  match skip_ignorable before with
  | p :: _ =>
      in_ranges p CASED &&
      match skip_ignorable after with
      | q :: _ => negb (in_ranges q CASED)
      | [] => true
      end
  | [] => false
  end.

Fixpoint lower_points (before l : list N) : list N :=
  match l with
  | [] => []
  | p :: l' =>
      (if p =? 931 then [if final_sigma before l' then 962 else 963]
       else if p =? 304 then [105; 775]
       else [lower_simple p]) ++ lower_points (p :: before) l'
  end.

(** [s.lower()] *)
Definition lower (s : string) : string := encode (lower_points [] (decode s)).

Fixpoint lstrip_points (l : list N) : list N :=
  match l with
  | p :: l' => if is_space p then lstrip_points l' else l
  | [] => []
  end.

Definition rstrip_points (l : list N) : list N := rev (lstrip_points (rev l)).

(** [s.strip()] *)
Definition strip (s : string) : string :=
  encode (rstrip_points (lstrip_points (decode s))).

Local Close Scope N_scope.

(** [s.startswith(p)] *)
Definition startswith (s p : string) : bool := String.prefix p s.

(** [key in s] on strings: [key] occurs as a substring of [s]. *)
Fixpoint contains (key s : string) : bool :=
  String.prefix key s ||
  match s with
  | EmptyString => false
  | String _ s' => contains key s'
  end.

(** [s.replace(old, new)] for a non-empty [old]: occurrences are replaced
    left to right without overlap. [skip] counts the characters of a
    matched occurrence that are still to be dropped. *)
Fixpoint replace_from (skip : nat) (old new s : string) : string :=
  match s with
  | EmptyString => EmptyString
  | String a s' =>
      match skip with
      | S k => replace_from k old new s'
      | O =>
          if String.prefix old s
          then String.append new (replace_from (String.length old - 1) old new s')
          else String a (replace_from 0 old new s')
      end
  end.

Definition replace (old new s : string) : string := replace_from 0 old new s.

(** [s.split(sep)] for a one-character separator. *)
Fixpoint split (sep : ascii) (s : string) : list string :=
  match s with
  | EmptyString => [EmptyString]
  | String a s' =>
      if Ascii.eqb a sep then EmptyString :: split sep s'
      else match split sep s' with
           | h :: t => String a h :: t
           | [] => [String a EmptyString]
           end
  end.

(** [c in s] for one character. *)
Fixpoint has_char (c : ascii) (s : string) : bool :=
  match s with
  | EmptyString => false
  | String a s' => Ascii.eqb a c || has_char c s'
  end.

(** [x or ""] on an optional string, then used as a string. *)
Definition or_empty (o : option string) : string :=
  match o with Some s => s | None => "" end.

(** Truthiness of an optional string: [None] and [""] are falsy. *)
Definition truthy (o : option string) : bool :=
  match o with Some s => negb (String.eqb s "") | None => false end.

End Py.

(** ** The tactic registry *)

Definition TACTIC_ORDER : list string :=
  [ "reconnaissance"; "resource-development"; "initial-access"; "execution";
    "persistence"; "privilege-escalation"; "defense-evasion";
    "credential-access"; "discovery"; "lateral-movement"; "collection";
    "command-and-control"; "exfiltration"; "impact" ].

Definition TACTIC_TITLES : list (string * string) :=
  [ ("reconnaissance", "Reconnaissance");
    ("resource-development", "Resource Development");
    ("initial-access", "Initial Access");
    ("execution", "Execution");
    ("persistence", "Persistence");
    ("privilege-escalation", "Privilege Escalation");
    ("defense-evasion", "Defense Evasion");
    ("credential-access", "Credential Access");
    ("discovery", "Discovery");
    ("lateral-movement", "Lateral Movement");
    ("collection", "Collection");
    ("command-and-control", "Command & Control");
    ("exfiltration", "Exfiltration");
    ("impact", "Impact") ].

(** [tac in TACTIC_TITLES]: membership among the dictionary's keys. *)
Definition in_TACTIC_TITLES (tac : string) : bool :=
  existsb (fun kv => String.eqb (fst kv) tac) TACTIC_TITLES.

(** ** The database *)

(** A row of [ttps]; the autoincrement [id] is the position in the list.
    The pipeline always binds strings to [technique_id], [tactic], [refs]
    and [created_at]; [name] and [description] may be [NULL]. *)
Record ttp_row := mk_row {
  technique_id : string;
  tactic : string;
  name : option string;
  description : option string;
  refs : string;
  created_at : string
}.

Record database := mk_db {
  ttps : list ttp_row;
  settings : gmap string string
}.

(** The connection [g.db] sees [pending] (the file plus the writes of the
    open transaction); [committed] is the database file. [clock] is the
    UTC clock as a function of the number of readings taken so far. *)
Record world := mk_world {
  pending : database;
  committed : database;
  clock : nat -> string;
  ticks : nat
}.

Definition set_ttps (rows : list ttp_row) (d : database) : database :=
  mk_db rows (settings d).

Definition set_pending (d : database) (w : world) : world :=
  mk_world d (committed w) (clock w) (ticks w).

Definition row_key (r : ttp_row) : string * string := (technique_id r, tactic r).

Definition keys (rows : list ttp_row) : list (string * string) := map row_key rows.

Definition same_key (tid tac : string) (r : ttp_row) : bool :=
  String.eqb (technique_id r) tid && String.eqb (tactic r) tac.

(** [INSERT OR IGNORE INTO ttps ...] under [UNIQUE(technique_id, tactic)
    ON CONFLICT IGNORE]: the row is appended unless its key is taken. A
    plain [INSERT] behaves the same way, the conflict clause being part of
    the table. *)
Definition insert_or_ignore (r : ttp_row) (rows : list ttp_row) : list ttp_row :=
  if existsb (same_key (technique_id r) (tactic r)) rows then rows else rows ++ [r].

(** [CASE WHEN name IS NULL OR name='' OR name = technique_id THEN ? ELSE name END]
    on a row with the given [technique_id] and [name]. *)
Definition case_name (tid : string) (stored : option string) (nm : string) : option string :=
  match stored with
  | None => Some nm
  | Some n => if String.eqb n "" || String.eqb n tid then Some nm else Some n
  end.

(** [CASE WHEN description IS NULL OR description='' THEN ? ELSE description END] *)
Definition case_description (stored : option string) (ds : string) : option string :=
  match stored with
  | None => Some ds
  | Some d => if String.eqb d "" then Some ds else Some d
  end.

Definition enrich_row (nm ds tid tac : string) (r : ttp_row) : ttp_row :=
  if same_key tid tac r
  then mk_row (technique_id r) (tactic r)
              (case_name (technique_id r) (name r) nm)
              (case_description (description r) ds)
              (refs r) (created_at r)
  else r.

(** [UPDATE ttps SET name = CASE ..., description = CASE ...
     WHERE technique_id=? AND tactic=?] with parameters [(nm, ds, tid, tac)]. *)
Definition update_enrich (nm ds tid tac : string) (rows : list ttp_row) : list ttp_row :=
  map (enrich_row nm ds tid tac) rows.

(** ** The monad of the Python code *)

Inductive outcome (A : Type) : Type :=
| Return (a : A)
| Raise.
Arguments Return {A} a.
Arguments Raise {A}.

Definition py (A : Type) : Type := world -> world * outcome A.

Definition ret {A} (a : A) : py A := fun w => (w, Return a).

Definition raise {A} : py A := fun w => (w, Raise).

Definition bind {A B} (m : py A) (k : A -> py B) : py B :=
  fun w => match m w with
           | (w', Return a) => k a w'
           | (w', Raise) => (w', Raise)
           end.

Notation "x <- m ;; k" := (bind m (fun x => k))
  (at level 100, m at next level, right associativity).
Notation "m ;;; k" := (bind m (fun _ => k))
  (at level 100, right associativity).

(** [try: x = m except Exception: x stays a]: the writes made before the
    exception stay in the open transaction. *)
Definition try_or {A} (m : py A) (a : A) : py A :=
  fun w => match m w with
           | (w', Return b) => (w', Return b)
           | (w', Raise) => (w', Return a)
           end.

(** A [for] loop that updates a local counter; [continue] is a body that
    returns the counter unchanged. *)
Fixpoint for_acc {A S} (body : S -> A -> py S) (l : list A) (s : S) : py S :=
  match l with
  | [] => ret s
  | a :: l' => s' <- body s a ;; for_acc body l' s'
  end.

(** [datetime.datetime.utcnow().isoformat()] *)
Definition now_iso : py string :=
  fun w => (mk_world (pending w) (committed w) (clock w) (S (ticks w)),
            Return (clock w (ticks w))).

Definition execute_insert (r : ttp_row) : py unit :=
  fun w => (set_pending (set_ttps (insert_or_ignore r (ttps (pending w))) (pending w)) w,
            Return tt).

Definition execute_update (nm ds tid tac : string) : py unit :=
  fun w => (set_pending (set_ttps (update_enrich nm ds tid tac (ttps (pending w))) (pending w)) w,
            Return tt).

(** [db.commit()] *)
Definition commit : py unit :=
  fun w => (mk_world (pending w) (pending w) (clock w) (ticks w), Return tt).

(** [SELECT value FROM settings WHERE key=?], or the default. *)
Definition setting (d : database) (key default : string) : string :=
  match settings d !! key with
  | Some v => v
  | None => default
  end.

(** [get_setting(key, default)] *)
Definition get_setting (key default : string) : py string :=
  fun w => (w, Return (setting (pending w) key default)).

(** [set_setting(key, value)]: [INSERT OR REPLACE] on the primary key,
    then commit. *)
Definition set_setting (key value : string) : py unit :=
  (fun w => (set_pending (mk_db (ttps (pending w)) (<[key := value]> (settings (pending w)))) w,
             Return tt)) ;;;
  commit.

(** ** Seeding *)

Definition DEFAULT_TTPS : list (string * string * string * string * string) :=
  [ ("T1059", "execution", "Command and Scripting Interpreter",
     "Execute commands and scripts via shells/interpreters.",
     "https://attack.mitre.org/techniques/T1059/");
    ("T1021", "lateral-movement", "Remote Services",
     "RDP/SMB/SSH for lateral movement.",
     "https://attack.mitre.org/techniques/T1021/");
    ("T1003", "credential-access", "OS Credential Dumping",
     "Dump creds from OS components.",
     "https://attack.mitre.org/techniques/T1003/") ].

(** [seed_minimal_ttps]: when [SELECT COUNT( * ) FROM ttps] is 0, insert the
    default rows with one timestamp and commit. *)
Definition seed_minimal_ttps : py unit :=
  fun w =>
    if (length (ttps (pending w)) =? 0)%nat then
      (now <- now_iso ;;
       _ <- for_acc (fun (_ : unit) t =>
              match t with
              | (tid, tac, nm, ds, rf) =>
                  execute_insert (mk_row tid tac (Some nm) (Some ds) rf now)
              end) DEFAULT_TTPS tt ;;
       commit) w
    else ret tt w.

(** ** JSON sources *)

(** The value under ["external_id"], which the scan renders with [str()]
    and binds to the statement as it is: a string; [true], which renders
    as "True" and is bound as the integer 1, kept by the TEXT column as
    "1"; or another value (null, false, a number, an array, an object),
    whose rendering starts with "N", "F", a digit, a sign, "i", "n", "["
    or "{". *)
Inductive jvalue : Type :=
| JString (s : string)
| JTrue
| JOther.

Record ext_ref := mk_ref {
  source_name : option string;
  external_id : option jvalue
}.

Record phase := mk_phase {
  kill_chain_name : option string;
  phase_name : option string
}.

(** A dictionary of [objects]; an absent key is [None]. *)
Record stix_object := mk_obj {
  obj_type : option string;
  obj_name : option string;
  obj_description : option string;
  external_references : list ext_ref;
  kill_chain_phases : list phase
}.

(** A dictionary of [techniques]. *)
Record layer_entry := mk_entry {
  techniqueID : option string;
  entry_tactic : option string
}.

(** A list item of a JSON document: a dictionary, or anything else (on
    which [.get] raises [AttributeError]). *)
Inductive item (A : Type) : Type :=
| Dict (a : A)
| NotADict.
Arguments Dict {A} a.
Arguments NotADict {A}.

(** What [_try_import_from_stix_or_layer] distinguishes: a dictionary with
    an ["objects"] key, a dictionary with a ["techniques"] key and no
    ["objects"], anything else. *)
Inductive json_doc : Type :=
| StixBundle (objects : list (item stix_object))
| NavigatorLayer (techniques : list (item layer_entry))
| OtherJson.

Definition opt_eqb (o : option string) (s : string) : bool :=
  match o with Some t => String.eqb t s | None => false end.

(** The scan of [external_references]:
    [ref.get("source_name","").lower() == "mitre-attack" and
     str(ref.get("external_id","")).startswith("T")], first match wins. *)
Definition str_starts_T (v : option jvalue) : bool :=
  match v with
  | Some (JString s) => Py.startswith s "T"
  | Some JTrue => true
  | Some JOther => false
  | None => false
  end.

Definition is_attack_ref (ref : ext_ref) : bool :=
  String.eqb (Py.lower (Py.or_empty (source_name ref))) "mitre-attack"
  && str_starts_T (external_id ref).

(** [ref["external_id"]] of a matching reference, as the [technique_id]
    column stores it. *)
Definition stored_id (v : option jvalue) : option string :=
  match v with
  | Some (JString s) => Some s
  | Some JTrue => Some "1"
  | Some JOther => None
  | None => None
  end.

(** [tech_id] after the scan: [None] without a match. *)
Fixpoint find_tech_id (refs : list ext_ref) : option string :=
  match refs with
  | [] => None
  | ref :: rest => if is_attack_ref ref then stored_id (external_id ref) else find_tech_id rest
  end.

(** [[p.get("phase_name") for p in ... if p.get("kill_chain_name") == "mitre-attack"]] *)
Definition attack_phases (ps : list phase) : list (option string) :=
  map phase_name (filter (fun p => opt_eqb (kill_chain_name p) "mitre-attack" = true) ps).

(** The body of the loop over [objects] for one dictionary. *)
Definition import_stix_object (now : string) (inserted : nat) (obj : stix_object) : py nat :=
  if opt_eqb (obj_type obj) "attack-pattern" then
    let name := obj_name obj in
    let desc := Py.strip (Py.or_empty (obj_description obj)) in
    let tech_id := find_tech_id (external_references obj) in
    if negb (Py.truthy tech_id) then ret inserted
    else
      let tactics := attack_phases (kill_chain_phases obj) in
      match tactics with
      | [] => ret inserted
      | _ =>
          for_acc (fun inserted tac =>
                     let tac := Py.lower (Py.or_empty tac) in
                     execute_insert
                       (mk_row (Py.or_empty tech_id) tac name (Some desc) "" now) ;;;
                     ret (S inserted))
                  tactics inserted
      end
  else ret inserted.

(** The body of the loop over [techniques] for one dictionary. *)
Definition import_layer_entry (now : string) (inserted : nat) (t : layer_entry) : py nat :=
  let tech_id := techniqueID t in
  let tac := Py.lower (Py.or_empty (entry_tactic t)) in
  if negb (Py.truthy tech_id) || String.eqb tac "" then ret inserted
  else
    execute_insert (mk_row (Py.or_empty tech_id) tac tech_id (Some "") "" now) ;;;
    ret (S inserted).

Definition on_dict {A} (body : nat -> A -> py nat) (n : nat) (it : item A) : py nat :=
  match it with
  | Dict a => body n a
  | NotADict => raise
  end.

Definition _try_import_from_stix_or_layer (js : json_doc) : py nat :=
  now <- now_iso ;;
  match js with
  | StixBundle objects =>
      inserted <- for_acc (on_dict (import_stix_object now)) objects 0 ;;
      commit ;;;
      ret inserted
  | NavigatorLayer techniques =>
      inserted <- for_acc (on_dict (import_layer_entry now)) techniques 0 ;;
      commit ;;;
      ret inserted
  | OtherJson => ret 0
  end.

(** ** The spreadsheet source *)

(** A cell value: [None], a string, or any other value, of which only the
    truthiness and the [str()] rendering matter. *)
Inductive cell : Type :=
| CNone
| CText (s : string)
| COther (truthy : bool) (shown : string).

(** A worksheet is the list of its rows, row 1 first; [ws.max_row] is their
    number and [ws.max_column] the length of the longest. *)
Definition worksheet : Type := list (list cell).

Definition max_row (ws : worksheet) : nat := length ws.

Definition max_column (ws : worksheet) : nat := foldr (fun r m => Nat.max (length r) m) 0 ws.

(** [ws.cell(row=r, column=c).value], both 1-based. *)
Definition cell_value (ws : worksheet) (r c : nat) : cell :=
  nth (c - 1) (nth (r - 1) ws []) CNone.

(** [str(v)] of a cell that is not [None]. *)
Definition cell_str (v : cell) : string :=
  match v with
  | CNone => "None"
  | CText s => s
  | COther _ shown => shown
  end.

(** [str(v or "")] *)
Definition str_or_empty (v : cell) : string :=
  match v with
  | CNone => ""
  | CText s => s
  | COther true shown => shown
  | COther false _ => ""
  end.

(** [(v or "").strip()]: a truthy value that is not a string has no
    [strip]. *)
Definition or_empty_strip (v : cell) : py string :=
  match v with
  | CNone => ret (Py.strip "")
  | CText s => ret (Py.strip s)
  | COther true _ => raise
  | COther false _ => ret (Py.strip "")
  end.

(** A Python [dict] with string keys in insertion order: assigning to an
    existing key keeps its position. *)
Fixpoint dict_set (k : string) (c : nat) (d : list (string * nat)) : list (string * nat) :=
  match d with
  | [] => [(k, c)]
  | (k', c') :: d' => if String.eqb k' k then (k, c) :: d' else (k', c') :: dict_set k c d'
  end.

(** The header map of a sheet: lower-cased, stripped text of row 1 to
    column index. *)
Definition build_header (ws : worksheet) : list (string * nat) :=
  fold_left (fun header c =>
               match cell_value ws 1 c with
               | CNone => header
               | v => dict_set (Py.lower (Py.strip (cell_str v))) c header
               end)
            (seq 1 (max_column ws)) [].

(** [find_col( *keys)]: the column of the first header that contains one of
    the keys. *)
Fixpoint find_col (header : list (string * nat)) (keys : list string) : option nat :=
  match header with
  | [] => None
  | (k, c) :: rest =>
      if existsb (fun key => Py.contains key k) keys then Some c
      else find_col rest keys
  end.

(** [str(tacs_raw).replace("/", ",").replace(" & ", ",").split(",")], each
    piece then stripped, lower-cased and hyphenated. *)
Definition split_tactics (tacs_raw : string) : list string :=
  map (fun t => Py.replace " " "-" (Py.lower (Py.strip t)))
      (Py.split "," (Py.replace " & " "," (Py.replace "/" "," tacs_raw))).

(** The body of the loop over the tactic tokens of one row. *)
Definition enrich_tactic (tid nm ds : string) (updated : nat) (tac : string) : py nat :=
  if negb (in_TACTIC_TITLES tac) then ret updated
  else
    now <- now_iso ;;
    execute_insert (mk_row tid tac (Some nm) (Some ds) "" now) ;;;
    execute_update nm ds tid tac ;;;
    ret (S updated).

(** The body of the loop over the data rows of one sheet. *)
Definition enrich_sheet_row (ws : worksheet) (col_id col_name : nat) (col_desc : option nat)
    (col_tac : nat) (updated : nat) (r : nat) : py nat :=
  let tid := Py.strip (str_or_empty (cell_value ws r col_id)) in
  if negb (Py.startswith tid "T") then ret updated
  else
    nm <- or_empty_strip (cell_value ws r col_name) ;;
    ds <- match col_desc with
          | Some (S c) => or_empty_strip (cell_value ws r (S c))
          | _ => ret ""
          end ;;
    tacs_raw <- or_empty_strip (cell_value ws r col_tac) ;;
    if String.eqb tacs_raw "" then ret updated
    else for_acc (enrich_tactic tid nm ds) (split_tactics tacs_raw) updated.

(** The body of the loop over the sheets of the workbook. *)
Definition id_keys : list string := ["technique id"; "external id"; "id"; "external_id"].
Definition name_keys : list string := ["technique name"; "technique"; "name"].
Definition desc_keys : list string := ["description"; "technique description"].
Definition tac_keys : list string := ["tactics"; "tactic"; "domain tactics"].

Definition enrich_sheet (updated : nat) (ws : worksheet) : py nat :=
  let header := build_header ws in
  let col_id := find_col header id_keys in
  let col_name := find_col header name_keys in
  let col_desc := find_col header desc_keys in
  let col_tac := find_col header tac_keys in
  match col_id, col_name, col_tac with
  | Some cid, Some cname, Some ctac =>
      if (cid =? 0)%nat || (cname =? 0)%nat || (ctac =? 0)%nat then ret updated
      else for_acc (enrich_sheet_row ws cid cname col_desc ctac)
                   (seq 2 (max_row ws - 1)) updated
  | _, _, _ => ret updated
  end.

(** ** Files and the import route *)

Inductive file_state (A : Type) : Type :=
| Missing
| Unreadable
| Content (a : A).
Arguments Missing {A}.
Arguments Unreadable {A}.
Arguments Content {A} a.

Definition workbook : Type := list worksheet.

(** What the route reads from its surroundings: the working directory, the
    files behind the candidate paths, and whether [import openpyxl]
    succeeds. *)
Record environment := mk_env {
  cwd : string;
  json_at : string -> file_state json_doc;
  xlsx_at : string -> file_state workbook;
  openpyxl_installed : bool
}.

Definition exists_file {A} (f : file_state A) : bool :=
  match f with Missing => false | _ => true end.

(** [os.path.join(a, b)] for a relative [b]. *)
Definition path_join (a b : string) : string :=
  if String.eqb a "" then b
  else match String.get (String.length a - 1) a with
       | Some "/"%char => String.append a b
       | _ => String.append a (String.append "/" b)
       end.

Definition MITRE_JSON_CANDIDATES (env : environment) : list string :=
  [ path_join (cwd env) "enterprise-attack.json"; "/mnt/data/enterprise-attack.json" ].

Definition MITRE_XLSX_CANDIDATES (env : environment) : list string :=
  [ path_join (cwd env) "enterprise-attack-v17.1.xlsx";
    "/mnt/data/enterprise-attack-v17.1.xlsx" ].

(** [_load_json(path)]: [open] or [json.load] raises on a file that is
    missing or is not JSON. *)
Definition _load_json (env : environment) (path : string) : py json_doc :=
  match json_at env path with
  | Content js => ret js
  | _ => raise
  end.

(** [_try_enrich_from_xlsx] once [openpyxl.load_workbook] has returned. *)
Definition enrich_workbook (wb : workbook) : py nat :=
  updated <- for_acc enrich_sheet wb 0 ;;
  commit ;;;
  ret updated.

Definition _try_enrich_from_xlsx (env : environment) (xlsx_path : string) : py nat :=
  if negb (openpyxl_installed env) then ret 0
  else match xlsx_at env xlsx_path with
       | Missing => ret 0
       | Unreadable => raise
       | Content wb => enrich_workbook wb
       end.

(** The body of [for p in MITRE_JSON_CANDIDATES]. *)
Definition attempt_json (env : environment) (total : nat) (p : string) : py nat :=
  if exists_file (json_at env p)
  then try_or (js <- _load_json env p ;;
               n <- _try_import_from_stix_or_layer js ;;
               ret (total + n)) total
  else ret total.

(** The body of [for p in MITRE_XLSX_CANDIDATES]. *)
Definition attempt_xlsx (env : environment) (total : nat) (p : string) : py nat :=
  if exists_file (xlsx_at env p)
  then try_or (n <- _try_enrich_from_xlsx env p ;; ret (total + n)) total
  else ret total.

(** [admin_load_mitre]; the page it renders is determined by [total]. *)
Definition admin_load_mitre (env : environment) : py nat :=
  total <- for_acc (attempt_json env) (MITRE_JSON_CANDIDATES env) 0 ;;
  total <- for_acc (attempt_xlsx env) (MITRE_XLSX_CANDIDATES env) total ;;
  (if (0 <? total)%nat then set_setting "mitre_loaded" "1" else ret tt) ;;;
  ret total.

(** What [admin] and the dashboard show as "ATT&CK Loaded":
    [get_setting("mitre_loaded", "0") == "1"]. *)
Definition mitre_loaded (d : database) : bool :=
  String.eqb (setting d "mitre_loaded" "0") "1".

(** ** Requests *)

(** [get_db] on a fresh application context: a new connection sees the
    database file. *)
Definition connect : py unit :=
  fun w => (mk_world (committed w) (committed w) (clock w) (ticks w), Return tt).

(** [init_db]: [CREATE TABLE IF NOT EXISTS] leaves existing tables alone. *)
Definition init_db : py unit := commit.

(** [close_db]: closing the connection drops the open transaction. *)
Definition close_db : py unit := connect.

(** The routes as far as [ttps] and [settings] go: the import route, and
    every other route, none of which writes these tables. *)
Inductive route : Type :=
| LoadMitre
| OtherRoute.

(** One request: the [before_request] hooks [ensure_db] and [maybe_seed],
    the view function, the teardown. The result is the import total, if
    the route was the import. *)
Definition serve (env : environment) (rt : route) : py (option nat) :=
  connect ;;;
  init_db ;;;
  seed_minimal_ttps ;;;
  res <- match rt with
         | LoadMitre => total <- admin_load_mitre env ;; ret (Some total)
         | OtherRoute => ret None
         end ;;
  close_db ;;;
  ret res.

Definition run {A} (m : py A) (w : world) : world := fst (m w).

Definition result {A} (m : py A) (w : world) : outcome A := snd (m w).

(** An ingestion operation on the catalog, for statements about sequences
    of them: the seeding hook, one JSON document (bundle or flat list), one
    workbook, or a whole import pass; an exception ends the operation as
    it does under the route's [try]. *)
Inductive ingestion : Type :=
| Seed
| ImportJson (js : json_doc)
| EnrichXlsx (wb : workbook)
| ImportPass (env : environment).

Definition ingest (op : ingestion) : py unit :=
  match op with
  | Seed => seed_minimal_ttps
  | ImportJson js => try_or (_try_import_from_stix_or_layer js ;;; ret tt) tt
  | EnrichXlsx wb => try_or (enrich_workbook wb ;;; ret tt) tt
  | ImportPass env => admin_load_mitre env ;;; ret tt
  end.

Definition ingest_all (ops : list ingestion) (w : world) : world :=
  fold_left (fun w op => run (ingest op) w) ops w.

Definition serve_all (env : environment) (rts : list route) (w : world) : world :=
  fold_left (fun w rt => run (serve env rt) w) rts w.

(** The catalog as the connection sees it. *)
Definition catalog (w : world) : list ttp_row := ttps (pending w).

Definition empty_db : database := mk_db [] ∅.

Definition fresh_world (clk : nat -> string) : world := mk_world empty_db empty_db clk 0.


(** ** The journal of a source

    The importers never read the database: what they do to it is the list
    of statements they execute. An entry is one candidate record as it is
    applied: [Ins] for the bare [INSERT OR IGNORE] of the JSON importer,
    [Ups] for the [INSERT OR IGNORE] followed by the [UPDATE] of the
    spreadsheet importer. *)

Inductive entry : Type :=
| Ins (r : ttp_row)
| Ups (tid tac nm ds ts : string).

Definition entry_row (e : entry) : ttp_row :=
  match e with
  | Ins r => r
  | Ups tid tac nm ds ts => mk_row tid tac (Some nm) (Some ds) "" ts
  end.

(** What an entry does to a row that is already stored. *)
Definition enrich_by (e : entry) (r : ttp_row) : ttp_row :=
  match e with
  | Ins _ => r
  | Ups tid tac nm ds _ => enrich_row nm ds tid tac r
  end.

Definition exec (e : entry) (rows : list ttp_row) : list ttp_row :=
  match e with
  | Ins r => insert_or_ignore r rows
  | Ups tid tac nm ds ts =>
      update_enrich nm ds tid tac
        (insert_or_ignore (mk_row tid tac (Some nm) (Some ds) "" ts) rows)
  end.

Definition apply_journal (j : list entry) (rows : list ttp_row) : list ttp_row :=
  fold_left (fun rows e => exec e rows) j rows.

(** An entry without its timestamp: the candidate record itself. *)
Definition unstamp (e : entry) : entry :=
  match e with
  | Ins r => Ins (mk_row (technique_id r) (tactic r) (name r) (description r) (refs r) "")
  | Ups tid tac nm ds _ => Ups tid tac nm ds ""
  end.

Definition has_key (tid tac : string) (rows : list ttp_row) : bool :=
  existsb (same_key tid tac) rows.

(** The rows a journal adds to a table: the first entry of each key that
    the table lacks. *)
Fixpoint fresh (rows : list ttp_row) (j : list entry) : list ttp_row :=
  match j with
  | [] => []
  | e :: j' =>
      let r := entry_row e in
      if has_key (technique_id r) (tactic r) rows then fresh rows j'
      else r :: fresh (rows ++ [r]) j'
  end.

(** What a whole journal does to a row that is stored throughout. *)
Definition enrich_all (j : list entry) (r : ttp_row) : ttp_row :=
  fold_left (fun r e => enrich_by e r) j r.

(** The names and descriptions a journal offers to the row [r]. *)
Fixpoint offers (r : ttp_row) (j : list entry) : list (string * string) :=
  match j with
  | [] => []
  | Ins _ :: j' => offers r j'
  | Ups tid tac nm ds _ :: j' =>
      if same_key tid tac r then (nm, ds) :: offers r j' else offers r j'
  end.

(** The world after [db.commit()]. *)
Definition committed_world (w : world) : world :=
  mk_world (pending w) (pending w) (clock w) (ticks w).

(** The world after a source has executed the journal [j] and read the
    clock [k] times. *)
Definition journal_world (j : list entry) (k : nat) (w : world) : world :=
  mk_world (set_ttps (apply_journal j (catalog w)) (pending w))
           (committed w) (clock w) (ticks w + k).

(** [m], entered with the counter at [acc], executes the candidates [b]
    (with some timestamps) whatever the world, and then raises or returns
    the counter advanced by their number. *)
Definition journalled (m : py nat) (acc : nat) (b : list entry) (raised : bool) : Prop :=
  forall w, exists j k,
    map unstamp j = b /\
    m w = (journal_world j k w,
           if raised then Raise else Return (acc + length b)).

(** A loop body or loop, given the timestamp [now] taken on entry: the
    candidates depend neither on the counter nor on the timestamp, and all
    of them satisfy [P]. *)
Definition source (P : entry -> Prop) (f : string -> nat -> py nat) : Prop :=
  exists b raised, Forall P b /\ forall now acc, journalled (f now acc) acc b raised.

(** A whole importer: it executes candidates satisfying [P], then raises
    ([None]) or returns their number, having committed or not. *)
Definition pass (P : entry -> Prop) (m : py nat) : Prop :=
  exists b (fin : option bool), Forall P b /\
    forall w, exists j k,
      map unstamp j = b /\
      m w = match fin with
            | None => (journal_world j k w, Raise)
            | Some true => (committed_world (journal_world j k w), Return (length b))
            | Some false => (journal_world j k w, Return (length b))
            end.

(** What can be said of the candidates of each source. *)
Definition T_prefixed (e : entry) : Prop :=
  Py.startswith (technique_id (entry_row e)) "T" = true.

(** The ids the bundle importer can store: a string starting with "T", or
    "1" for the external id [true]. *)
Definition bundle_id (tid : string) : Prop := Py.startswith tid "T" = true \/ tid = "1".

Definition bundle_entry (e : entry) : Prop := bundle_id (technique_id (entry_row e)).

Definition nonempty_key (e : entry) : Prop :=
  technique_id (entry_row e) <> "" /\ tactic (entry_row e) <> "".

Definition registry_tactic (e : entry) : Prop :=
  in_TACTIC_TITLES (tactic (entry_row e)) = true.

Definition nonempty_id (e : entry) : Prop := technique_id (entry_row e) <> "".

(** A computation that touches nothing: it returns a value or raises. *)
Definition pure_or_raise {A} (c : py A) : Prop := c = raise \/ exists a, c = ret a.

(** ** The primitive steps of the pipeline *)

Inductive prim : world -> world -> Prop :=
| prim_tick w :
    prim w (mk_world (pending w) (committed w) (clock w) (S (ticks w)))
| prim_insert r w :
    prim w (set_pending (set_ttps (insert_or_ignore r (catalog w)) (pending w)) w)
| prim_update nm ds tid tac w :
    prim w (set_pending (set_ttps (update_enrich nm ds tid tac (catalog w)) (pending w)) w)
| prim_commit w :
    prim w (mk_world (pending w) (pending w) (clock w) (ticks w)).

(** [m] only ever reads the clock, inserts, enriches and commits. *)
Definition appends {A} (m : py A) : Prop := forall w, rtc prim w (run m w).

(** A property of the two copies of the catalog (the connection's and the
    committed one) that inserting, enriching, committing and dropping the
    open transaction all keep. *)
Record stable (I : list ttp_row -> list ttp_row -> Prop) : Prop := {
  stable_insert : forall p c r, I p c -> I (insert_or_ignore r p) c;
  stable_update : forall p c nm ds tid tac, I p c -> I (update_enrich nm ds tid tac p) c;
  stable_commit : forall p c, I p c -> I p p;
  stable_drop : forall p c, I p c -> I c c
}.

Definition holds (I : list ttp_row -> list ttp_row -> Prop) (w : world) : Prop :=
  I (ttps (pending w)) (ttps (committed w)).

(** The settings as both copies of the database have them. *)
Definition settings_are (s : gmap string string) (w : world) : Prop :=
  settings (pending w) = s /\ settings (committed w) = s.

(** A triple for [py]: from a world satisfying [Pre], [m] returns a value
    and a world satisfying [Post], or raises in a world satisfying [Exn]. *)
Definition hoare {A} (Pre : world -> Prop) (m : py A)
    (Post : A -> world -> Prop) (Exn : world -> Prop) : Prop :=
  forall w, Pre w ->
    match m w with
    | (w', Return a) => Post a w'
    | (w', Raise) => Exn w'
    end.

(** [m] keeps [J], whether it returns or raises. *)
Definition keeps {A} (J : world -> Prop) (m : py A) : Prop :=
  hoare J m (fun _ => J) J.

(** [m] keeps [J] and never raises. *)
Definition keeps_safely {A} (J : world -> Prop) (m : py A) : Prop :=
  hoare J m (fun _ => J) (fun _ => False).

(** The rows the seeding hook writes at the time [now]. *)
Definition seed_rows (now : string) : list ttp_row :=
  map (fun t => match t with
                | (tid, tac, nm, ds, rf) => mk_row tid tac (Some nm) (Some ds) rf now
                end) DEFAULT_TTPS.

(** ** Sample inputs *)

Definition sample_clock : nat -> string := fun _ => "2024-05-01T12:00:00".

(** The flat list [[{"techniqueID":"T1059","tactic":"execution"}]]. *)
Definition sample_layer : json_doc :=
  NavigatorLayer [Dict (mk_entry (Some "T1059") (Some "execution"))].

(** A workbook whose only data row has the id and the tactic of
    [sample_layer] and an empty name cell. *)
Definition sample_unnamed_sheet : workbook :=
  [ [ [CText "ID"; CText "Name"; CText "Description"; CText "Tactics"];
      [CText "T1059"; CNone; CText "desc..."; CText "Execution"] ] ].

(** A workbook with the row (T1059, "Command and Scripting Interpreter",
    "desc...", "Execution"). *)
Definition sample_named_sheet : workbook :=
  [ [ [CText "ID"; CText "Name"; CText "Description"; CText "Tactics"];
      [CText "T1059"; CText "Command and Scripting Interpreter"; CText "desc...";
       CText "Execution"] ] ].

(** A bundle with one attack pattern whose id and phase the registry and
    the id pattern do not know. *)
Definition sample_odd_bundle : json_doc :=
  StixBundle
    [Dict (mk_obj (Some "attack-pattern") (Some "Odd") None
                  [mk_ref (Some "mitre-attack") (Some (JString "Tbogus"))]
                  [mk_phase (Some "mitre-attack") (Some "Made-Up-Phase")])].

(** A bundle whose attack pattern has the external id [true]. *)
Definition sample_true_bundle : json_doc :=
  StixBundle
    [Dict (mk_obj (Some "attack-pattern") (Some "Odd") None
                  [mk_ref (Some "mitre-attack") (Some JTrue)]
                  [mk_phase (Some "mitre-attack") (Some "execution")])].



(** The candidates of one technique-like bundle object whose id is [tid],
    at the time [now]: one insert per recognized phase. *)
Definition stix_candidates (now tid : string) (obj : stix_object) : list entry :=
  map (fun tac => Ins (mk_row tid (Py.lower (Py.or_empty tac)) (obj_name obj)
                              (Some (Py.strip (Py.or_empty (obj_description obj)))) "" now))
      (attack_phases (kill_chain_phases obj)).

(** The world with its catalog replaced. *)
Definition with_catalog (rows : list ttp_row) (w : world) : world :=
  set_pending (set_ttps rows (pending w)) w.

(** An attack pattern with one matching reference after a foreign one and
    two phases of the mitre-attack kill chain among three. *)
Definition sample_object : stix_object :=
  mk_obj (Some "attack-pattern") (Some "Valid Accounts") (Some " Adversaries may ... ")
         [mk_ref (Some "capec") (Some (JString "CAPEC-560"));
          mk_ref (Some "mitre-attack") (Some (JString "T1078"));
          mk_ref (Some "mitre-attack") (Some (JString "T9999"))]
         [mk_phase (Some "mitre-attack") (Some "persistence");
          mk_phase (Some "lockheed") (Some "delivery");
          mk_phase (Some "mitre-attack") (Some "initial-access")].

(** A sheet with an id and a tactics column and no name-like header, and a
    sheet that only lacks the description column. *)
Definition sample_nameless_sheet : worksheet :=
  [ [CText "ID"; CText "Tactics"];
    [CText "T1059"; CText "Execution"] ].

Definition sample_undescribed_sheet : worksheet :=
  [ [CText "ID"; CText "Name"; CText "Tactics"];
    [CText "T1059"; CText "Command and Scripting Interpreter"; CText "Execution"] ].

(** An installation with a flat list and a workbook in the working
    directory, and unreadable files under [/mnt/data]. *)
Definition sample_env : environment :=
  mk_env "/srv/rtops"
         (fun p => if String.eqb p "/srv/rtops/enterprise-attack.json"
                   then Content sample_layer
                   else if String.eqb p "/mnt/data/enterprise-attack.json"
                        then Unreadable else Missing)
         (fun p => if String.eqb p "/srv/rtops/enterprise-attack-v17.1.xlsx"
                   then Content [sample_undescribed_sheet]
                   else if String.eqb p "/mnt/data/enterprise-attack-v17.1.xlsx"
                        then Unreadable else Missing)
         true.

(** A bundle whose second item is not a dictionary, and an installation
    whose only file it is. *)
Definition sample_broken_bundle : json_doc :=
  StixBundle [Dict sample_object; NotADict].

Definition broken_env : environment :=
  mk_env "/srv/rtops"
         (fun p => if String.eqb p "/srv/rtops/enterprise-attack.json"
                   then Content sample_broken_bundle else Missing)
         (fun _ => Missing) true.

(** An installation without any of the files. *)
Definition bare_env : environment :=
  mk_env "/srv/rtops" (fun _ => Missing) (fun _ => Missing) true.

(** An installation with the flat list only: its one pair is a seed row. *)
Definition layer_env : environment :=
  mk_env "/srv/rtops"
         (fun p => if String.eqb p "/srv/rtops/enterprise-attack.json"
                   then Content sample_layer else Missing)
         (fun _ => Missing) true.

(** An installation with the broken bundle and a workbook: one without
    sheets, or the sample workbook. *)
Definition mixed_env (wb : workbook) : environment :=
  mk_env "/srv/rtops"
         (fun p => if String.eqb p "/srv/rtops/enterprise-attack.json"
                   then Content sample_broken_bundle else Missing)
         (fun p => if String.eqb p "/srv/rtops/enterprise-attack-v17.1.xlsx"
                   then Content wb else Missing)
         true.

(** ** Stored rows over time *)

(** A stored name that the [UPDATE] leaves alone: not [NULL], not empty,
    not the technique id. *)
Definition genuine_name (r : ttp_row) : Prop :=
  exists n, name r = Some n /\ n <> "" /\ n <> technique_id r.

(** A stored description that the [UPDATE] leaves alone. *)
Definition filled_description (r : ttp_row) : Prop :=
  exists d, description r = Some d /\ d <> "".

(** The row [r0] is still at position [i] of the table: same technique id,
    tactic, references and creation time, the same name if it was genuine
    and the same description if it was filled. *)
Definition kept (r0 : ttp_row) (i : nat) (rows : list ttp_row) : Prop :=
  exists r,
    rows !! i = Some r /\
    technique_id r = technique_id r0 /\ tactic r = tactic r0 /\
    refs r = refs r0 /\ created_at r = created_at r0 /\
    (genuine_name r0 -> name r = name r0) /\
    (filled_description r0 -> description r = description r0).

(** ** What the JSON importer writes *)




(** ** Header cells *)

(** The key under which the header cell of column [c] enters the header
    map: [str(v).strip().lower()]. *)
Definition header_text (ws : worksheet) (c : nat) : string :=
  Py.lower (Py.strip (cell_str (cell_value ws 1 c))).

(** The header map after the columns 1 to [n] have been read. *)
Definition header_upto (ws : worksheet) (n : nat) : list (string * nat) :=
  fold_left (fun header c =>
               match cell_value ws 1 c with
               | CNone => header
               | v => dict_set (Py.lower (Py.strip (cell_str v))) c header
               end)
            (seq 1 n) [].

(** What the header map holds once the columns 1 to [n] have been read:
    one entry per distinct header text, pointing at the last column that
    carries it. *)
Definition header_invariant (ws : worksheet) (n : nat) (header : list (string * nat)) : Prop :=
  NoDup (map fst header) /\
  (forall k c, (k, c) ∈ header ->
     1 <= c <= n /\ cell_value ws 1 c <> CNone /\ header_text ws c = k /\
     forall c', 1 <= c' <= n -> cell_value ws 1 c' <> CNone ->
                header_text ws c' = k -> c' <= c) /\
  (forall c, 1 <= c <= n -> cell_value ws 1 c <> CNone ->
     exists c0, (header_text ws c, c0) ∈ header).

(** ** HTML attribute values *)

(** The double-quote character. *)
Definition double_quote : ascii := "034"%char.

(** [esc_attr(s)]: [None] gives the empty string; in a string the single
    quotes, then the double quotes, are replaced by their entities. *)
Definition esc_attr (s : option string) : string :=
  match s with
  | None => EmptyString
  | Some s =>
      Py.replace (String double_quote EmptyString) "&quot;" (Py.replace "'" "&#39;" s)
  end.

(** ** The attempts of one import *)

(** What a candidate path with a file behind it contributes: the file is
    read and the importer run on it. *)
Definition json_source (env : environment) (p : string) : py nat :=
  js <- _load_json env p ;; _try_import_from_stix_or_layer js.

Definition xlsx_source (env : environment) (p : string) : py nat :=
  _try_enrich_from_xlsx env p.

(** The attempts that an import is to make, in order: one for each
    candidate path that has a file. *)
Definition attempts (env : environment) : list (py nat) :=
  map (json_source env)
      (filter (fun p => exists_file (json_at env p) = true) (MITRE_JSON_CANDIDATES env)) ++
  map (xlsx_source env)
      (filter (fun p => exists_file (xlsx_at env p) = true) (MITRE_XLSX_CANDIDATES env)).

(** Every attempt is made from the world the one before it left, whether
    that one returned or raised; the counts of those that returned are
    added up, one that raised counts 0. *)
Fixpoint attempt_all (ms : list (py nat)) (w : world) : world * nat :=
  match ms with
  | [] => (w, 0)
  | m :: ms' =>
      let w' := fst (m w) in
      (fst (attempt_all ms' w'),
       match snd (m w) with Return n => n | Raise => 0 end + snd (attempt_all ms' w'))
  end.

(** ** One import as a whole

    The sources of one import, run one after the other: together they
    execute one journal [j]; the last commit of a source came after the
    first [cut] entries ([None] when no source committed). *)

Definition batch_world (j : list entry) (cut : option nat) (k : nat) (w : world) : world :=
  mk_world (set_ttps (apply_journal j (catalog w)) (pending w))
           (match cut with
            | None => committed w
            | Some i => set_ttps (apply_journal (take i j) (catalog w)) (pending w)
            end)
           (clock w) (ticks w + k).

(** A loop over candidate files, entered with the running total [acc]:
    whatever the world, it executes the candidates [b], commits as [cut]
    says, and returns the total advanced by [n]. *)
Definition batch (m : nat -> py nat) (b : list entry) (cut : option nat) (n : nat) : Prop :=
  from_option (fun i => i <= length b) True cut /\
  forall acc w, exists j k,
    map unstamp j = b /\ m acc w = (batch_world j cut k w, Return (acc + n)).

(** The database file after an import request that found the file [d],
    executed the journal [j] and counted [n]: with a positive count the
    flag is set and everything is committed; otherwise what the last
    committing source saw is committed. *)
Definition import_outcome (j : list entry) (cut : option nat) (n : nat) (d : database)
  : database :=
  if (0 <? n)%nat
  then mk_db (apply_journal j (ttps d)) (<["mitre_loaded" := "1"]> (settings d))
  else match cut with
       | None => d
       | Some i => set_ttps (apply_journal (take i j) (ttps d)) d
       end.

(** ** The MITRE map ([/mitre])

    The body of the page is embedded; [html_page], the fixed frame around
    every page, is left out. [ORDER BY] is a merge sort: on a table that
    obeys [UNIQUE(technique_id, tactic)] no two rows have the same sort
    key, so the order of the result does not depend on the algorithm. *)

(** [NULL] sorts before every string. *)
Definition cmp_null_first (a b : option string) : comparison :=
  match a, b with
  | None, None => Eq
  | None, Some _ => Lt
  | Some _, None => Gt
  | Some x, Some y => String.compare x y
  end.

Definition lex (c1 c2 : comparison) : comparison :=
  match c1 with Eq => c2 | _ => c1 end.

(** The comparison of [ORDER BY tactic,name,technique_id] under the
    [BINARY] collation. *)
Definition cmp_rows (r1 r2 : ttp_row) : comparison :=
  lex (String.compare (tactic r1) (tactic r2))
      (lex (cmp_null_first (name r1) (name r2))
           (String.compare (technique_id r1) (technique_id r2))).

Definition order_by (r1 r2 : ttp_row) : Prop := cmp_rows r1 r2 <> Gt.

Definition order_by_dec (r1 r2 : ttp_row) : Decision (order_by r1 r2) :=
  decide (cmp_rows r1 r2 <> Gt).

(** [SELECT technique_id,tactic,name,description FROM ttps
     ORDER BY tactic,name,technique_id] *)
Definition select_ttps_ordered (d : database) : list ttp_row :=
  @merge_sort _ order_by order_by_dec (ttps d).

(** [_match(r)] for the query [q]. *)
Definition _match (q : string) (r : ttp_row) : bool :=
  Py.contains q (Py.lower (Py.or_empty (name r)))
  || Py.contains q (Py.lower (technique_id r))
  || Py.contains q (Py.lower (tactic r)).

(** The rows after [if q: rows = [r for r in rows if _match(r)]]. *)
Definition mitre_rows (q : string) (d : database) : list ttp_row :=
  let rows := select_ttps_ordered d in
  if String.eqb q "" then rows else filter (fun r => _match q r = true) rows.

(** [groups = defaultdict(list)] filled by [groups[r["tactic"]].append(r)]. *)
Definition group_by_tactic (rows : list ttp_row) : gmap string (list ttp_row) :=
  fold_left (fun groups r =>
               <[tactic r := default [] (groups !! tactic r) ++ [r]]> groups)
            rows ∅.

(** [groups.get(tac, [])] *)
Definition mitre_items (groups : gmap string (list ttp_row)) (tac : string) : list ttp_row :=
  default [] (groups !! tac).

(** [q = request.args.get("q","").strip().lower()] and the groups built
    from it. *)
Definition mitre_query (q_arg : string) : string := Py.lower (Py.strip q_arg).

Definition mitre_groups (q_arg : string) (d : database) : gmap string (list ttp_row) :=
  group_by_tactic (mitre_rows (mitre_query q_arg) d).

(** ["".join(parts)], also used for the pieces of an f-string. *)
Definition str_join (parts : list string) : string :=
  fold_right String.append EmptyString parts.

(** [str(n)] for a length. *)
Definition str_of_nat (n : nat) : string := NilEmpty.string_of_uint (Nat.to_uint n).

(** [r['name'] or r['technique_id']] *)
Definition pill_label (r : ttp_row) : string :=
  if Py.truthy (name r) then Py.or_empty (name r) else technique_id r.

Definition pill (r : ttp_row) : string :=
  str_join [ "<div class='pill' title='"; esc_attr (Some (Py.or_empty (description r)));
             "'>"; pill_label r; " "; "<span class='opacity-70'>("; technique_id r;
             ")</span></div>" ].

(** ["".join(...) or "<i class='opacity-60'>No techniques loaded</i>"] *)
Definition pills (items : list ttp_row) : string :=
  let joined := str_join (map pill items) in
  if String.eqb joined "" then "<i class='opacity-60'>No techniques loaded</i>" else joined.

(** [TACTIC_TITLES[tac]]: a missing key raises [KeyError]. *)
Definition tactic_title (tac : string) : py string :=
  match find (fun kv => String.eqb (fst kv) tac) TACTIC_TITLES with
  | Some kv => ret (snd kv)
  | None => raise
  end.

(** The body of [for tac in TACTIC_ORDER], which appends one card to the
    grid. *)
Definition mitre_card (groups : gmap string (list ttp_row)) (grid tac : string) : py string :=
  let items := mitre_items groups tac in
  title <- tactic_title tac ;;
  ret (String.append grid
         (str_join [ "<div class='card'>"; "<div class='font-semibold mb-1'>"; title; " ";
                     "<span class='opacity-60 text-xs'>("; str_of_nat (length items);
                     ")</span></div>"; "<div class='flex flex-wrap gap-2'>"; pills items;
                     "</div>"; "</div>" ])).

Definition search_box (q : string) : string :=
  str_join [ "<form method='get' class='mb-3'>";
             "<input class='search' name='q' placeholder='Search by name, ID or tactic (e.g., T1059, initial-access)' value='";
             esc_attr (Some q); "'/>"; "</form>" ].

(** [mitre] up to the call of [html_page]: the body of the page for the
    query argument [q_arg]. *)
Definition mitre_body (q_arg : string) : py string :=
  fun w =>
    let q := mitre_query q_arg in
    let groups := mitre_groups q_arg (pending w) in
    (grid <- for_acc (mitre_card groups) TACTIC_ORDER EmptyString ;;
     ret (str_join [search_box q; "<div class='grid-2'>"; grid; "</div>"])) w.

(** A comparison that decides a linear order. *)
Record linear {K : Type} (c : K -> K -> comparison) : Prop := {
  linear_eq : forall x y, c x y = Eq -> x = y;
  linear_opp : forall x y, c y x = CompOpp (c x y);
  linear_lt : forall x y z, c x y = Lt -> c y z = Lt -> c x z = Lt
}.

(** The sort key of a row. *)
Definition sort_key (r : ttp_row) : string * (option string * string) :=
  (tactic r, (name r, technique_id r)).

(** The rows that the query lets through: all of them when it is empty. *)
Definition visible (q : string) (r : ttp_row) : Prop := q = "" \/ _match q r = true.

#[global] Instance visible_dec (q : string) (r : ttp_row) : Decision (visible q r) :=
  or_dec (decide (q = "")) (decide (_match q r = true)).

(** ** Definitions that follow the specification's wording *)

Module Spec.

Definition is_digit (a : ascii) : bool :=
  let n := nat_of_ascii a in (48 <=? n)%nat && (n <=? 57)%nat.

(** The technique-id pattern [T\d{4}(\.\d{3})?]. *)
Definition technique_id_ok (s : string) : bool :=
  match list_ascii_of_string s with
  | ["T"%char; a; b; c; d] => is_digit a && is_digit b && is_digit c && is_digit d
  | ["T"%char; a; b; c; d; "."%char; x; y; z] =>
      is_digit a && is_digit b && is_digit c && is_digit d
      && is_digit x && is_digit y && is_digit z
  | _ => false
  end.

(** The normalizer's acceptance test: a non-empty, pattern-valid technique
    id and a registry tactic. *)
Definition accepts (tid tac : string) : bool :=
  negb (String.eqb tid "") && technique_id_ok tid && in_TACTIC_TITLES tac.


End Spec.

(** * Properties *)

(** ** Keys, inserts and updates *)

Section Rows.

Implicit Types (r : ttp_row) (rows : list ttp_row) (e : entry) (j : list entry).

Lemma same_key_true tid tac r :
  same_key tid tac r = true <-> row_key r = (tid, tac).
Proof.
  unfold same_key, row_key. rewrite andb_true_iff, !String.eqb_eq.
  split; [intros [-> ->]; reflexivity | intros [= -> ->]; auto].
Qed.

Lemma has_key_true tid tac rows :
  has_key tid tac rows = true <-> (tid, tac) ∈ keys rows.
Proof.
  unfold has_key, keys. rewrite existsb_exists, list_elem_of_fmap. split.
  - intros (r & Hin & Hk). exists r. apply same_key_true in Hk.
    split; [auto | now apply list_elem_of_In].
  - intros (r & Hk & Hin). exists r.
    split; [now apply list_elem_of_In | now apply same_key_true].
Qed.

Lemma has_key_false tid tac rows :
  has_key tid tac rows = false <-> (tid, tac) ∉ keys rows.
Proof.
  rewrite <- has_key_true. destruct (has_key tid tac rows); split; congruence.
Qed.

Lemma has_key_ext tid tac rows rows' :
  keys rows = keys rows' -> has_key tid tac rows = has_key tid tac rows'.
Proof.
  intros Hk. destruct (has_key tid tac rows') eqn:H'.
  - apply has_key_true. rewrite Hk. now apply has_key_true.
  - apply has_key_false. rewrite Hk. now apply has_key_false.
Qed.

Lemma row_key_enrich_row nm ds tid tac r :
  row_key (enrich_row nm ds tid tac r) = row_key r.
Proof. unfold enrich_row. destruct (same_key tid tac r); reflexivity. Qed.

Lemma keys_update_enrich nm ds tid tac rows :
  keys (update_enrich nm ds tid tac rows) = keys rows.
Proof.
  unfold keys, update_enrich. rewrite <- list_fmap_compose.
  apply list_fmap_ext. intros _ r _. apply row_key_enrich_row.
Qed.

Lemma insert_or_ignore_unfold r rows :
  insert_or_ignore r rows =
  if has_key (technique_id r) (tactic r) rows then rows else rows ++ [r].
Proof. reflexivity. Qed.

Lemma keys_insert_or_ignore r rows :
  keys (insert_or_ignore r rows) =
  if has_key (technique_id r) (tactic r) rows then keys rows else keys rows ++ [row_key r].
Proof.
  rewrite insert_or_ignore_unfold.
  destruct (has_key _ _ rows); [reflexivity |]. unfold keys. now rewrite map_app.
Qed.

Lemma insert_or_ignore_present r rows :
  row_key r ∈ keys rows -> insert_or_ignore r rows = rows.
Proof.
  intros H. rewrite insert_or_ignore_unfold.
  apply has_key_true in H. now rewrite H.
Qed.

Lemma NoDup_keys_insert r rows :
  NoDup (keys rows) -> NoDup (keys (insert_or_ignore r rows)).
Proof.
  intros H. rewrite keys_insert_or_ignore.
  destruct (has_key _ _ rows) eqn:Hk; [assumption |].
  apply NoDup_app. split; [assumption |]. split.
  - intros k Hin Hk'. apply list_elem_of_singleton in Hk'. subst k.
    apply has_key_false in Hk. now apply Hk.
  - apply NoDup_singleton.
Qed.

Lemma keys_insert_mono k r rows :
  k ∈ keys rows -> k ∈ keys (insert_or_ignore r rows).
Proof.
  intros H. rewrite keys_insert_or_ignore.
  destruct (has_key _ _ rows); [assumption |]. apply elem_of_app. now left.
Qed.

Lemma key_inserted r rows : row_key r ∈ keys (insert_or_ignore r rows).
Proof.
  rewrite keys_insert_or_ignore.
  destruct (has_key _ _ rows) eqn:Hk.
  - now apply has_key_true.
  - apply elem_of_app. right. now apply list_elem_of_singleton.
Qed.

Lemma length_insert_or_ignore r rows :
  length rows <= length (insert_or_ignore r rows).
Proof.
  rewrite insert_or_ignore_unfold. destruct (has_key _ _ rows); [lia |].
  rewrite length_app. simpl. lia.
Qed.

Lemma length_update_enrich nm ds tid tac rows :
  length (update_enrich nm ds tid tac rows) = length rows.
Proof. unfold update_enrich. apply length_map. Qed.

Lemma keys_exec e rows :
  keys (exec e rows) = keys (insert_or_ignore (entry_row e) rows).
Proof. destruct e; simpl; [reflexivity | apply keys_update_enrich]. Qed.

Lemma exec_enrich_by e rows :
  exec e rows = map (enrich_by e) (insert_or_ignore (entry_row e) rows).
Proof.
  destruct e as [r | tid tac nm ds ts]; simpl; [| reflexivity].
  symmetry. apply map_id.
Qed.

End Rows.

(** ** Journals are idempotent *)

Section Journals.

Implicit Types (r : ttp_row) (rows : list ttp_row) (e : entry) (j : list entry).

Lemma apply_journal_cons e j rows :
  apply_journal (e :: j) rows = apply_journal j (exec e rows).
Proof. reflexivity. Qed.

Lemma apply_journal_app j1 j2 rows :
  apply_journal (j1 ++ j2) rows = apply_journal j2 (apply_journal j1 rows).
Proof. unfold apply_journal. apply fold_left_app. Qed.

Lemma enrich_all_cons e j r : enrich_all (e :: j) r = enrich_all j (enrich_by e r).
Proof. reflexivity. Qed.

Lemma row_key_enrich_by e r : row_key (enrich_by e r) = row_key r.
Proof. destruct e; simpl; [reflexivity | apply row_key_enrich_row]. Qed.

Lemma enrich_by_other e r :
  row_key r <> row_key (entry_row e) -> enrich_by e r = r.
Proof.
  destruct e as [r0 | tid tac nm ds ts]; simpl; [reflexivity |].
  intros Hne. unfold enrich_row.
  destruct (same_key tid tac r) eqn:Hk; [| reflexivity].
  apply same_key_true in Hk. contradiction.
Qed.

Lemma enrich_by_unstamp e r : enrich_by (unstamp e) r = enrich_by e r.
Proof. destruct e; reflexivity. Qed.

Lemma enrich_all_unstamp j r : enrich_all (map unstamp j) r = enrich_all j r.
Proof.
  revert r. induction j as [| e j IH]; intros r; [reflexivity |].
  simpl map. rewrite !enrich_all_cons, enrich_by_unstamp. apply IH.
Qed.

Lemma row_key_unstamp e : row_key (entry_row (unstamp e)) = row_key (entry_row e).
Proof. destruct e; reflexivity. Qed.

Lemma fresh_ext rows rows' j : keys rows = keys rows' -> fresh rows j = fresh rows' j.
Proof.
  revert rows rows'. induction j as [| e j IH]; intros rows rows' Hk; [reflexivity |].
  simpl. rewrite (has_key_ext _ _ rows rows' Hk).
  destruct (has_key _ _ rows'); [now apply IH |].
  f_equal. apply IH. unfold keys in *. rewrite !map_app. now rewrite Hk.
Qed.

Lemma fresh_not_stored rows j r : r ∈ fresh rows j -> row_key r ∉ keys rows.
Proof.
  revert rows. induction j as [| e j IH]; intros rows Hin; simpl in Hin.
  - now apply elem_of_nil in Hin.
  - destruct (has_key _ _ rows) eqn:Hk; [now apply IH |].
    apply elem_of_cons in Hin as [-> | Hin].
    + now apply has_key_false.
    + apply IH in Hin. intros Hr. apply Hin.
      unfold keys. rewrite map_app. apply elem_of_app. now left.
Qed.

Lemma fresh_nil rows j :
  (forall e, e ∈ j -> row_key (entry_row e) ∈ keys rows) -> fresh rows j = [].
Proof.
  induction j as [| e j IH]; intros H; [reflexivity |]. simpl.
  assert (Hk : has_key (technique_id (entry_row e)) (tactic (entry_row e)) rows = true).
  { apply has_key_true. apply (H e). now left. }
  rewrite Hk. apply IH. intros e' He'. apply H. now right.
Qed.

(** A journal enriches the rows that were there and the rows it adds. *)
Lemma apply_journal_fresh j rows :
  apply_journal j rows = map (enrich_all j) (rows ++ fresh rows j).
Proof.
  revert rows. induction j as [| e j IH]; intros rows.
  - simpl. rewrite app_nil_r. symmetry. apply map_id.
  - rewrite apply_journal_cons, IH, exec_enrich_by, insert_or_ignore_unfold.
    set (r := entry_row e). simpl fresh. fold r.
    set (rows1 := if has_key (technique_id r) (tactic r) rows then rows else rows ++ [r]).
    assert (Hfx : fresh (map (enrich_by e) rows1) j = map (enrich_by e) (fresh rows1 j)).
    { rewrite (fresh_ext (map (enrich_by e) rows1) rows1).
      - symmetry. erewrite map_ext_in; [apply map_id |].
        intros x Hx. apply enrich_by_other. fold r.
        apply list_elem_of_In, fresh_not_stored in Hx.
        intros Heq. apply Hx. rewrite Heq.
        change (row_key r) with (technique_id r, tactic r).
        apply has_key_true. subst rows1.
        destruct (has_key (technique_id r) (tactic r) rows) eqn:Hk; [assumption |].
        apply has_key_true. unfold keys. rewrite map_app.
        apply elem_of_app. right. now apply list_elem_of_singleton.
      - unfold keys. rewrite <- list_fmap_compose.
        apply list_fmap_ext. intros _ x _. apply row_key_enrich_by. }
    rewrite Hfx, <- map_app, map_map.
    assert (Hrows : rows1 ++ fresh rows1 j =
                    rows ++ (if has_key (technique_id r) (tactic r) rows
                             then fresh rows j else r :: fresh (rows ++ [r]) j)).
    { subst rows1. destruct (has_key (technique_id r) (tactic r) rows);
        [reflexivity | now rewrite <- app_assoc]. }
    rewrite Hrows. reflexivity.
Qed.

Lemma keys_apply_journal_mono k j rows :
  k ∈ keys rows -> k ∈ keys (apply_journal j rows).
Proof.
  revert rows. induction j as [| e j IH]; intros rows H; [assumption |].
  rewrite apply_journal_cons. apply IH. rewrite keys_exec. now apply keys_insert_mono.
Qed.

Lemma keys_apply_journal_covers e j rows :
  e ∈ j -> row_key (entry_row e) ∈ keys (apply_journal j rows).
Proof.
  revert rows. induction j as [| e' j IH]; intros rows H.
  - now apply elem_of_nil in H.
  - rewrite apply_journal_cons. apply elem_of_cons in H as [-> | H].
    + apply keys_apply_journal_mono. rewrite keys_exec. apply key_inserted.
    + now apply IH.
Qed.

Lemma NoDup_keys_apply_journal j rows :
  NoDup (keys rows) -> NoDup (keys (apply_journal j rows)).
Proof.
  revert rows. induction j as [| e j IH]; intros rows H; [assumption |].
  rewrite apply_journal_cons. apply IH. rewrite keys_exec. now apply NoDup_keys_insert.
Qed.

(** A fold of a latch: once [locked], the state stays; otherwise it takes
    the incoming value. Folding the same list twice changes nothing. *)
Lemma latch_locked {S X} (locked : S -> bool) (inj : X -> S) (f : S -> X -> S)
    (Hf : forall s x, f s x = if locked s then s else inj x) l s :
  locked s = true -> fold_left f l s = s.
Proof.
  intros Hl. induction l as [| x l IH]; [reflexivity |].
  simpl. rewrite Hf, Hl. apply IH.
Qed.

Lemma latch_idem {S X} (locked : S -> bool) (inj : X -> S) (f : S -> X -> S)
    (Hf : forall s x, f s x = if locked s then s else inj x) l s :
  fold_left f l (fold_left f l s) = fold_left f l s.
Proof.
  destruct l as [| x l]; [reflexivity |].
  destruct (locked s) eqn:Hs.
  - now rewrite !(latch_locked locked inj f Hf (x :: l) s Hs).
  - simpl. rewrite (Hf s x), Hs.
    set (t := fold_left f l (inj x)).
    destruct (locked t) eqn:Ht.
    + rewrite (Hf t x), Ht. now apply (latch_locked locked inj f Hf).
    + now rewrite (Hf t x), Ht.
Qed.

Lemma offers_key r r' j : row_key r = row_key r' -> offers r j = offers r' j.
Proof.
  intros Hk.
  induction j as [| [r0 | tid tac nm ds ts] j IH]; simpl; [reflexivity | assumption |].
  assert (same_key tid tac r = same_key tid tac r') as ->.
  { unfold same_key. injection Hk as -> ->. reflexivity. }
  now rewrite IH.
Qed.

Lemma enrich_all_offers j r :
  enrich_all j r =
  mk_row (technique_id r) (tactic r)
         (fold_left (case_name (technique_id r)) (map fst (offers r j)) (name r))
         (fold_left case_description (map snd (offers r j)) (description r))
         (refs r) (created_at r).
Proof.
  revert r. induction j as [| e j IH]; intros r; [now destruct r |].
  rewrite enrich_all_cons, IH.
  assert (Hk : row_key (enrich_by e r) = row_key r) by apply row_key_enrich_by.
  rewrite (offers_key _ r j Hk).
  destruct e as [r0 | tid tac nm ds ts]; [reflexivity |].
  simpl enrich_by. simpl offers. unfold enrich_row.
  destruct (same_key tid tac r); reflexivity.
Qed.

Lemma enrich_all_idem j r : enrich_all j (enrich_all j r) = enrich_all j r.
Proof.
  rewrite (enrich_all_offers j (enrich_all j r)).
  assert (Hk : row_key (enrich_all j r) = row_key r).
  { rewrite enrich_all_offers. reflexivity. }
  rewrite (offers_key _ r j Hk).
  rewrite (enrich_all_offers j r) at 1 2 3 4 5 6. simpl.
  rewrite (enrich_all_offers j r). f_equal.
  - apply (latch_idem
             (fun s => match s with
                       | None => false
                       | Some n => negb (String.eqb n "" || String.eqb n (technique_id r))
                       end) Some).
    intros [n |] x; simpl; [| reflexivity].
    destruct (String.eqb n "" || String.eqb n (technique_id r)); reflexivity.
  - apply (latch_idem
             (fun s => match s with
                       | None => false
                       | Some d => negb (String.eqb d "")
                       end) Some).
    intros [d |] x; simpl; [| reflexivity].
    destruct (String.eqb d ""); reflexivity.
Qed.

Lemma apply_journal_stored j rows :
  (forall e, e ∈ j -> row_key (entry_row e) ∈ keys rows) ->
  apply_journal j rows = map (enrich_all j) rows.
Proof.
  intros H. rewrite apply_journal_fresh, (fresh_nil rows j H). now rewrite app_nil_r.
Qed.

(** Replaying the candidates of a journal on the table that absorbed them
    changes nothing, whatever the timestamps of the replay. *)
Lemma apply_journal_idem j j' rows :
  map unstamp j' = map unstamp j ->
  apply_journal j' (apply_journal j rows) = apply_journal j rows.
Proof.
  intros Hu. rewrite (apply_journal_stored j').
  - rewrite apply_journal_fresh, map_map. apply map_ext. intros r.
    rewrite <- (enrich_all_unstamp j'), Hu, enrich_all_unstamp.
    apply enrich_all_idem.
  - intros e' He'.
    assert (Hin : unstamp e' ∈ map unstamp j).
    { rewrite <- Hu. now apply list_elem_of_fmap_2. }
    apply list_elem_of_fmap in Hin as (e & He & Hin).
    rewrite <- row_key_unstamp, He, row_key_unstamp.
    now apply keys_apply_journal_covers.
Qed.

End Journals.

(** ** Splitting a tactics cell *)

Section Splitting.

Implicit Types (s u v old new : string) (c : ascii).

Lemma append_cons x u v : String.append (String x u) v = String x (String.append u v).
Proof. reflexivity. Qed.


Lemma append_assoc u v s :
  String.append (String.append u v) s = String.append u (String.append v s).
Proof.
  induction u as [| x u IH]; [reflexivity |]. now rewrite !append_cons, IH.
Qed.



Lemma replace_from_cons_0 old new x s :
  Py.replace_from 0 old new (String x s) =
  if String.prefix old (String x s)
  then String.append new (Py.replace_from (String.length old - 1) old new s)
  else String x (Py.replace_from 0 old new s).
Proof. reflexivity. Qed.



(** A one-character pattern is replaced character by character. *)
Lemma replace_char_app x new u v :
  Py.replace (String x EmptyString) new (String.append u v) =
  String.append (Py.replace (String x EmptyString) new u)
                (Py.replace (String x EmptyString) new v).
Proof.
  unfold Py.replace. induction u as [| a u IH]; [reflexivity |].
  rewrite append_cons, !replace_from_cons_0.
  change (String.length (String x EmptyString) - 1) with 0.
  assert (Hp : forall t, String.prefix (String x EmptyString) (String a t)
                         = if ascii_dec x a then true else false).
  { intros t. cbn [String.prefix]. destruct (ascii_dec x a); [now destruct t | reflexivity]. }
  rewrite !Hp. destruct (ascii_dec x a).
  - now rewrite IH, append_assoc.
  - now rewrite IH, append_cons.
Qed.

Lemma has_char_append c u v :
  Py.has_char c (String.append u v) = Py.has_char c u || Py.has_char c v.
Proof.
  induction u as [| a u IH]; [reflexivity |].
  rewrite append_cons. simpl. now rewrite IH, orb_assoc.
Qed.








End Splitting.

(** ** Sources and their journals *)

Section Sources.

Implicit Types (w : world) (j b : list entry) (P : entry -> Prop).

Lemma set_ttps_same (d : database) : set_ttps (ttps d) d = d.
Proof. now destruct d. Qed.

Lemma journal_world_nil w : journal_world [] 0 w = w.
Proof.
  unfold journal_world, catalog. simpl. rewrite set_ttps_same, Nat.add_0_r.
  now destruct w.
Qed.

Lemma journal_world_app j1 k1 j2 k2 w :
  journal_world j2 k2 (journal_world j1 k1 w) = journal_world (j1 ++ j2) (k1 + k2) w.
Proof.
  unfold journal_world, catalog. simpl.
  now rewrite apply_journal_app, Nat.add_assoc.
Qed.

Lemma journalled_ret acc : journalled (ret acc) acc [] false.
Proof.
  intros w. exists [], 0. split; [reflexivity |].
  unfold ret. simpl. now rewrite journal_world_nil, Nat.add_0_r.
Qed.

Lemma journalled_raise acc : journalled raise acc [] true.
Proof.
  intros w. exists [], 0. split; [reflexivity |].
  unfold raise. now rewrite journal_world_nil.
Qed.

Lemma journalled_bind (m : py nat) (k : nat -> py nat) acc b b' raised :
  journalled m acc b false ->
  journalled (k (acc + length b)) (acc + length b) b' raised ->
  journalled (bind m k) acc (b ++ b') raised.
Proof.
  intros Hm Hk w. destruct (Hm w) as (j1 & k1 & Hj1 & E1).
  destruct (Hk (journal_world j1 k1 w)) as (j2 & k2 & Hj2 & E2).
  exists (j1 ++ j2), (k1 + k2). split; [now rewrite map_app, Hj1, Hj2 |].
  unfold bind. rewrite E1, E2, journal_world_app, length_app, Nat.add_assoc.
  reflexivity.
Qed.

Lemma journalled_bind_raise (m : py nat) (k : nat -> py nat) acc b :
  journalled m acc b true -> journalled (bind m k) acc b true.
Proof.
  intros Hm w. destruct (Hm w) as (j1 & k1 & Hj1 & E1).
  exists j1, k1. split; [assumption |]. unfold bind. now rewrite E1.
Qed.

Lemma source_ret P : source P (fun _ acc => ret acc).
Proof. exists [], false. split; [constructor | intros; apply journalled_ret]. Qed.

Lemma source_raise P : source P (fun _ _ => raise).
Proof. exists [], true. split; [constructor | intros; apply journalled_raise]. Qed.

Lemma source_bind P (f g : string -> nat -> py nat) :
  source P f -> source P g -> source P (fun now acc => bind (f now acc) (g now)).
Proof.
  intros (b & [|] & HP & Hf) (b' & raised & HP' & Hg).
  - exists b, true. split; [assumption |].
    intros now acc. apply journalled_bind_raise, Hf.
  - exists (b ++ b'), raised. split; [now apply Forall_app |].
    intros now acc. apply journalled_bind; [apply Hf | apply Hg].
Qed.

Lemma source_for {A} P (body : string -> nat -> A -> py nat) (l : list A) :
  (forall a, source P (fun now acc => body now acc a)) ->
  source P (fun now acc => for_acc (body now) l acc).
Proof.
  intros Hbody. induction l as [| a l IH]; simpl.
  - apply source_ret.
  - apply (source_bind P (fun now acc => body now acc a)
                         (fun now acc => for_acc (body now) l acc)); auto.
Qed.

Lemma source_insert P (mk : string -> ttp_row) :
  (forall now, unstamp (Ins (mk now)) = unstamp (Ins (mk ""))) ->
  P (unstamp (Ins (mk ""))) ->
  source P (fun now acc => execute_insert (mk now) ;;; ret (S acc)).
Proof.
  intros Hmk HP. exists [unstamp (Ins (mk ""))], false.
  split; [now constructor |].
  intros now acc w. exists [Ins (mk now)], 0.
  split.
  { change (map unstamp [Ins (mk now)]) with [unstamp (Ins (mk now))].
    now rewrite (Hmk now). }
  unfold bind, execute_insert, ret, journal_world, set_pending, catalog. simpl.
  now rewrite Nat.add_0_r, (Nat.add_comm acc 1).
Qed.

Lemma source_upsert P tid tac nm ds :
  P (Ups tid tac nm ds "") ->
  source P (fun _ acc =>
              now <- now_iso ;;
              execute_insert (mk_row tid tac (Some nm) (Some ds) "" now) ;;;
              execute_update nm ds tid tac ;;;
              ret (S acc)).
Proof.
  intros HP. exists [Ups tid tac nm ds ""], false.
  split; [now constructor |].
  intros _ acc w. exists [Ups tid tac nm ds (clock w (ticks w))], 1.
  split; [reflexivity |].
  unfold bind, now_iso, execute_insert, execute_update, ret, journal_world,
    set_pending, set_ttps, catalog. simpl.
  now rewrite (Nat.add_comm (ticks w) 1), (Nat.add_comm acc 1).
Qed.

End Sources.

(** ** The journals of the three importers *)

Section Importers.

Implicit Types (w : world) (j b : list entry) (P : entry -> Prop).

Lemma source_bind_pure {A} P (c : py A) (k : A -> string -> nat -> py nat) :
  pure_or_raise c ->
  (forall a, source P (k a)) ->
  source P (fun now acc => bind c (fun a => k a now acc)).
Proof.
  intros [-> | (a & ->)] Hk.
  - exact (source_raise P).
  - exact (Hk a).
Qed.

Lemma or_empty_strip_pure v : pure_or_raise (or_empty_strip v).
Proof.
  destruct v as [| s | [|] shown]; simpl; unfold pure_or_raise; eauto.
Qed.

Lemma T_prefixed_nonempty_id e : T_prefixed e -> nonempty_id e.
Proof.
  unfold T_prefixed, nonempty_id. intros H Hempty. rewrite Hempty in H. discriminate.
Qed.

Lemma bundle_entry_nonempty_id e : bundle_entry e -> nonempty_id e.
Proof.
  unfold bundle_entry, bundle_id, nonempty_id. intros [H | H] Hempty; rewrite Hempty in H;
    discriminate.
Qed.

Lemma stored_id_bundle v t :
  str_starts_T v = true -> stored_id v = Some t -> bundle_id t.
Proof.
  destruct v as [[s | |] |]; simpl; intros HT Hid; try discriminate.
  - left. congruence.
  - right. congruence.
Qed.

Lemma find_tech_id_attack refs t :
  find_tech_id refs = Some t -> bundle_id t.
Proof.
  induction refs as [| ref refs IH]; simpl; [discriminate |].
  destruct (is_attack_ref ref) eqn:Href; [| assumption].
  intros Hid. unfold is_attack_ref in Href. apply andb_true_iff in Href as [_ HT].
  exact (stored_id_bundle _ _ HT Hid).
Qed.

Lemma source_stix_object (obj : stix_object) :
  source bundle_entry (fun now acc => import_stix_object now acc obj).
Proof.
  unfold import_stix_object.
  destruct (opt_eqb (obj_type obj) "attack-pattern"); [| apply source_ret].
  destruct (find_tech_id (external_references obj)) as [t |] eqn:Hid;
    [| apply source_ret].
  apply find_tech_id_attack in Hid.
  destruct (negb (Py.truthy (Some t))); [apply source_ret |].
  destruct (attack_phases (kill_chain_phases obj)) as [| p ps] eqn:Hph;
    [apply source_ret |].
  cbv zeta.
  apply (source_for bundle_entry
           (fun now inserted tac =>
              execute_insert
                (mk_row (Py.or_empty (Some t)) (Py.lower (Py.or_empty tac))
                        (obj_name obj)
                        (Some (Py.strip (Py.or_empty (obj_description obj)))) "" now) ;;;
              ret (S inserted))).
  intros tac.
  apply (source_insert bundle_entry
           (fun now => mk_row (Py.or_empty (Some t)) (Py.lower (Py.or_empty tac))
                              (obj_name obj)
                              (Some (Py.strip (Py.or_empty (obj_description obj)))) "" now)).
  - reflexivity.
  - exact Hid.
Qed.

Lemma truthy_nonempty o : Py.truthy o = true -> Py.or_empty o <> "".
Proof.
  destruct o as [s |]; simpl; [| discriminate].
  intros H ->. discriminate.
Qed.

Lemma source_layer_entry (t : layer_entry) :
  source nonempty_key (fun now acc => import_layer_entry now acc t).
Proof.
  unfold import_layer_entry. cbv zeta.
  destruct (Py.truthy (techniqueID t)) eqn:Hid; simpl negb; simpl orb;
    [| apply source_ret].
  destruct (String.eqb (Py.lower (Py.or_empty (entry_tactic t))) "") eqn:Htac;
    [apply source_ret |].
  apply (source_insert nonempty_key
           (fun now => mk_row (Py.or_empty (techniqueID t))
                              (Py.lower (Py.or_empty (entry_tactic t)))
                              (techniqueID t) (Some "") "" now)).
  - reflexivity.
  - split; simpl.
    + now apply truthy_nonempty.
    + now apply String.eqb_neq.
Qed.

Lemma source_on_dict {A} P (body : string -> nat -> A -> py nat) (it : item A) :
  (forall a, source P (fun now acc => body now acc a)) ->
  source P (fun now acc => on_dict (body now) acc it).
Proof.
  intros H. destruct it as [a |]; simpl; [apply H | apply source_raise].
Qed.

Lemma source_stix_objects (objects : list (item stix_object)) :
  source bundle_entry (fun now acc => for_acc (on_dict (import_stix_object now)) objects acc).
Proof.
  apply (source_for bundle_entry (fun now => on_dict (import_stix_object now))).
  intros it. apply (source_on_dict bundle_entry import_stix_object), source_stix_object.
Qed.

Lemma source_layer_entries (techniques : list (item layer_entry)) :
  source nonempty_key
    (fun now acc => for_acc (on_dict (import_layer_entry now)) techniques acc).
Proof.
  apply (source_for nonempty_key (fun now => on_dict (import_layer_entry now))).
  intros it. apply (source_on_dict nonempty_key import_layer_entry), source_layer_entry.
Qed.

Lemma source_enrich_tactic tid nm ds tac :
  Py.startswith tid "T" = true ->
  source (fun e => T_prefixed e /\ registry_tactic e)
         (fun _ acc => enrich_tactic tid nm ds acc tac).
Proof.
  intros HT. unfold enrich_tactic.
  destruct (in_TACTIC_TITLES tac) eqn:Hreg; simpl negb; [| apply source_ret].
  apply source_upsert. split; assumption.
Qed.

Lemma source_enrich_sheet_row ws cid cname cdesc ctac r :
  source (fun e => T_prefixed e /\ registry_tactic e)
         (fun _ acc => enrich_sheet_row ws cid cname cdesc ctac acc r).
Proof.
  unfold enrich_sheet_row. cbv zeta.
  destruct (Py.startswith (Py.strip (str_or_empty (cell_value ws r cid))) "T") eqn:HT;
    simpl negb; [| apply source_ret].
  apply (source_bind_pure _ (or_empty_strip (cell_value ws r cname))
           (fun nm _ acc => _)); [apply or_empty_strip_pure |]. intros nm.
  apply (source_bind_pure _ _ (fun ds _ acc => _)).
  { destruct cdesc as [[| c] |]; try (right; eexists; reflexivity).
    apply or_empty_strip_pure. }
  intros ds.
  apply (source_bind_pure _ (or_empty_strip (cell_value ws r ctac))
           (fun tacs_raw _ acc => _)); [apply or_empty_strip_pure |]. intros tacs_raw.
  destruct (String.eqb tacs_raw ""); [apply source_ret |].
  apply (source_for _ (fun _ => enrich_tactic _ nm ds)).
  intros tac. now apply source_enrich_tactic.
Qed.

Lemma source_enrich_sheet ws :
  source (fun e => T_prefixed e /\ registry_tactic e)
         (fun _ acc => enrich_sheet acc ws).
Proof.
  unfold enrich_sheet. cbv zeta.
  destruct (find_col (build_header ws) id_keys) as [cid |]; [| apply source_ret].
  destruct (find_col (build_header ws) name_keys) as [cname |]; [| apply source_ret].
  destruct (find_col (build_header ws) tac_keys) as [ctac |]; [| apply source_ret].
  destruct ((cid =? 0)%nat || (cname =? 0)%nat || (ctac =? 0)%nat); [apply source_ret |].
  apply (source_for _ (fun _ => enrich_sheet_row ws cid cname _ ctac)).
  intros r. apply source_enrich_sheet_row.
Qed.

Lemma source_enrich_sheets (wb : workbook) :
  source (fun e => T_prefixed e /\ registry_tactic e)
         (fun _ acc => for_acc enrich_sheet wb acc).
Proof.
  apply (source_for _ (fun _ => enrich_sheet)). intros ws. apply source_enrich_sheet.
Qed.

End Importers.

(** ** Whole passes *)

Section Passes.

Implicit Types (w : world) (j b : list entry) (P : entry -> Prop).

Lemma pass_weaken P Q (m : py nat) :
  (forall e, P e -> Q e) -> pass P m -> pass Q m.
Proof.
  intros HPQ (b & fin & HP & Hm). exists b, fin.
  split; [| assumption]. eapply Forall_impl; eauto.
Qed.

Lemma pass_ret0 P : pass P (ret 0).
Proof.
  exists [], (Some false). split; [constructor |].
  intros w. exists [], 0. split; [reflexivity |].
  unfold ret. now rewrite journal_world_nil.
Qed.

Lemma pass_raise P : pass P raise.
Proof.
  exists [], None. split; [constructor |].
  intros w. exists [], 0. split; [reflexivity |].
  unfold raise. now rewrite journal_world_nil.
Qed.

Lemma pass_commit P (f : string -> nat -> py nat) now :
  source P f -> pass P (x <- f now 0 ;; commit ;;; ret x).
Proof.
  intros (b & raised & HP & Hf).
  exists b, (if raised then None else Some true). split; [assumption |].
  intros w. destruct (Hf now 0 w) as (j & k & Hj & E).
  exists j, k. split; [assumption |].
  unfold bind. rewrite E. destruct raised; reflexivity.
Qed.

Lemma pass_commit_now P (f : string -> nat -> py nat) :
  source P f -> pass P (now <- now_iso ;; x <- f now 0 ;; commit ;;; ret x).
Proof.
  intros (b & raised & HP & Hf).
  exists b, (if raised then None else Some true). split; [assumption |].
  intros w. unfold bind at 1. unfold now_iso.
  set (w1 := mk_world (pending w) (committed w) (clock w) (S (ticks w))).
  destruct (Hf (clock w (ticks w)) 0 w1) as (j & k & Hj & E).
  exists j, (S k). split; [assumption |].
  assert (Hw : journal_world j k w1 = journal_world j (S k) w).
  { unfold journal_world, w1, catalog. simpl. f_equal. lia. }
  unfold bind. rewrite E, Hw. destruct raised; reflexivity.
Qed.

Lemma pass_tick P : pass P (now <- now_iso ;; ret 0).
Proof.
  exists [], (Some false). split; [constructor |].
  intros w. exists [], 1. split; [reflexivity |].
  unfold bind, now_iso, ret, journal_world, catalog. simpl.
  now rewrite set_ttps_same, Nat.add_1_r.
Qed.

Lemma pass_import_stix objects :
  pass bundle_entry (_try_import_from_stix_or_layer (StixBundle objects)).
Proof.
  apply (pass_commit_now bundle_entry
           (fun now acc => for_acc (on_dict (import_stix_object now)) objects acc)).
  apply source_stix_objects.
Qed.

Lemma pass_import_layer techniques :
  pass nonempty_key (_try_import_from_stix_or_layer (NavigatorLayer techniques)).
Proof.
  apply (pass_commit_now nonempty_key
           (fun now acc => for_acc (on_dict (import_layer_entry now)) techniques acc)).
  apply source_layer_entries.
Qed.

Lemma pass_import js : pass nonempty_id (_try_import_from_stix_or_layer js).
Proof.
  destruct js as [objects | techniques |].
  - eapply pass_weaken; [| apply pass_import_stix]. apply bundle_entry_nonempty_id.
  - eapply pass_weaken; [| apply pass_import_layer]. now intros e [H _].
  - apply pass_tick.
Qed.

Lemma pass_enrich_workbook wb :
  pass (fun e => T_prefixed e /\ registry_tactic e) (enrich_workbook wb).
Proof.
  apply (pass_commit _ (fun _ acc => for_acc enrich_sheet wb acc) "").
  apply source_enrich_sheets.
Qed.

Lemma pass_enrich env xlsx_path :
  pass (fun e => T_prefixed e /\ registry_tactic e) (_try_enrich_from_xlsx env xlsx_path).
Proof.
  unfold _try_enrich_from_xlsx.
  destruct (negb (openpyxl_installed env)); [apply pass_ret0 |].
  destruct (xlsx_at env xlsx_path) as [| | wb].
  - apply pass_ret0.
  - apply pass_raise.
  - apply pass_enrich_workbook.
Qed.

(** A pass run again on the world it left changes neither copy of the
    database and ends the same way. *)
Lemma pass_replay P (m : py nat) w :
  pass P m ->
  pending (run m (run m w)) = pending (run m w) /\
  committed (run m (run m w)) = committed (run m w) /\
  result m (run m w) = result m w.
Proof.
  intros (b & fin & _ & Hm).
  destruct (Hm w) as (j & k & Hj & E).
  unfold run at 2 4 5 7, result at 1. rewrite E.
  set (w1 := fst _).
  destruct (Hm w1) as (j' & k' & Hj' & E').
  unfold run, result. rewrite E, E'. fold w1.
  assert (Hcat : apply_journal j' (catalog w1) = catalog w1).
  { assert (catalog w1 = apply_journal j (catalog w)) as ->.
    { subst w1. destruct fin as [[|] |]; reflexivity. }
    apply apply_journal_idem. congruence. }
  assert (Hp : pending (journal_world j' k' w1) = pending w1).
  { unfold journal_world. simpl. rewrite Hcat. apply set_ttps_same. }
  destruct fin as [[|] |]; simpl; rewrite ?Hcat, ?set_ttps_same; repeat split;
    subst w1; reflexivity.
Qed.

(** The keys of the table after a journal come from the table or from the
    journal. *)
Lemma keys_apply_journal_origin k j rows :
  k ∈ keys (apply_journal j rows) ->
  k ∈ keys rows \/ exists e, e ∈ j /\ k = row_key (entry_row e).
Proof.
  revert rows. induction j as [| e j IH]; intros rows H; [now left |].
  rewrite apply_journal_cons in H. apply IH in H as [H | (e' & He' & ->)].
  - rewrite keys_exec, keys_insert_or_ignore in H.
    destruct (has_key _ _ rows); [now left |].
    apply elem_of_app in H as [H | H]; [now left |].
    apply list_elem_of_singleton in H. right. exists e. split; [now left | assumption].
  - right. exists e'. split; [now right | reflexivity].
Qed.

(** A pass whose candidates all have keys in [K] keeps a table whose keys
    are all in [K] that way. *)
Lemma pass_keys (K : string * string -> Prop) (m : py nat) w :
  pass (fun e => K (row_key (entry_row e))) m ->
  Forall K (keys (catalog w)) -> Forall K (keys (catalog (run m w))).
Proof.
  intros (b & fin & HP & Hm) HK.
  destruct (Hm w) as (j & k & Hj & E). unfold run. rewrite E.
  assert (Hcat : Forall K (keys (apply_journal j (catalog w)))).
  { apply Forall_forall. intros x Hx.
    apply keys_apply_journal_origin in Hx as [Hx | (e & He & ->)].
    - revert x Hx. now apply Forall_forall.
    - rewrite <- row_key_unstamp.
      assert (Hin : unstamp e ∈ b) by (rewrite <- Hj; now apply list_elem_of_fmap_2).
      revert Hin. revert HP. rewrite Forall_forall. intros HP. apply HP. }
  destruct fin as [[|] |]; exact Hcat.
Qed.

(** A pass whose candidates all have keys in [K] writes keys in [K] only:
    a key of the table it leaves was there before or is in [K]. *)
Lemma pass_writes (K : string * string -> Prop) (m : py nat) w k :
  pass (fun e => K (row_key (entry_row e))) m ->
  k ∈ keys (catalog (run m w)) -> k ∈ keys (catalog w) \/ K k.
Proof.
  intros (b & fin & HP & Hm) Hk.
  destruct (Hm w) as (j & n & Hj & E). unfold run in Hk. rewrite E in Hk.
  assert (Hcat : k ∈ keys (apply_journal j (catalog w))).
  { destruct fin as [[|] |]; exact Hk. }
  apply keys_apply_journal_origin in Hcat as [Hx | (e & He & ->)]; [now left |].
  right. rewrite <- row_key_unstamp.
  assert (Hin : unstamp e ∈ b) by (rewrite <- Hj; now apply list_elem_of_fmap_2).
  revert Hin. revert HP. rewrite Forall_forall. intros HP. apply HP.
Qed.

(** The count a pass returns is the number of candidates it has executed. *)
Lemma pass_count P (m : py nat) w n :
  pass P m -> result m w = Return n ->
  exists j, length j = n /\ catalog (run m w) = apply_journal j (catalog w).
Proof.
  intros (b & fin & _ & Hm) Hr.
  destruct (Hm w) as (j & k & Hj & E). unfold run, result in *. rewrite E in *.
  exists j. assert (Hlen : length j = length b) by (now rewrite <- Hj, length_map).
  destruct fin as [[|] |]; simpl in *; try discriminate;
    (split; [congruence | reflexivity]).
Qed.

End Passes.

(** ** Triples *)

Section Triples.

Implicit Types (w : world) (J Pre Exn : world -> Prop).

Lemma hoare_ret {A} Pre (a : A) (Post : A -> world -> Prop) Exn :
  (forall w, Pre w -> Post a w) -> hoare Pre (ret a) Post Exn.
Proof. intros H w Hw. now apply H. Qed.

Lemma hoare_raise {A} Pre (Post : A -> world -> Prop) Exn :
  (forall w, Pre w -> Exn w) -> hoare Pre (@raise A) Post Exn.
Proof. intros H w Hw. now apply H. Qed.

Lemma hoare_bind {A B} Pre (m : py A) (k : A -> py B) (Mid : A -> world -> Prop)
    (Post : B -> world -> Prop) Exn :
  hoare Pre m Mid Exn ->
  (forall a, hoare (Mid a) (k a) Post Exn) ->
  hoare Pre (bind m k) Post Exn.
Proof.
  intros Hm Hk w Hw. unfold bind. specialize (Hm w Hw).
  destruct (m w) as [w' [a |]]; [now apply Hk | assumption].
Qed.

Lemma hoare_conseq {A} (Pre Pre' : world -> Prop) (m : py A)
    (Post Post' : A -> world -> Prop) (Exn Exn' : world -> Prop) :
  hoare Pre' m Post' Exn' ->
  (forall w, Pre w -> Pre' w) ->
  (forall a w, Post' a w -> Post a w) ->
  (forall w, Exn' w -> Exn w) ->
  hoare Pre m Post Exn.
Proof.
  intros Hm HPre HPost HExn w Hw. specialize (Hm w (HPre w Hw)).
  destruct (m w) as [w' [a |]]; auto.
Qed.

Lemma hoare_try_or {A} Pre (m : py A) (a : A) (Post : A -> world -> Prop) Exn :
  hoare Pre m Post (Post a) -> hoare Pre (try_or m a) Post Exn.
Proof.
  intros Hm w Hw. unfold try_or. specialize (Hm w Hw).
  destruct (m w) as [w' [b |]]; assumption.
Qed.

Lemma hoare_for_acc {A B} J (body : B -> A -> py B) (l : list A) (s : B) Exn :
  (forall s a, hoare J (body s a) (fun _ => J) Exn) ->
  hoare J (for_acc body l s) (fun _ => J) Exn.
Proof.
  intros Hbody. revert s. induction l as [| a l IH]; intros s; simpl.
  - now apply hoare_ret.
  - eapply hoare_bind; [apply Hbody | intros s'; apply IH].
Qed.

Lemma keeps_safely_keeps {A} J (m : py A) : keeps_safely J m -> keeps J m.
Proof. intros H. eapply hoare_conseq; [exact H | auto | auto | contradiction]. Qed.

Lemma keeps_try_or {A} J (m : py A) (a : A) : keeps J m -> keeps_safely J (try_or m a).
Proof. intros H. apply hoare_try_or. exact H. Qed.

Lemma keeps_run {A} J (m : py A) w : keeps J m -> J w -> J (run m w).
Proof.
  intros H Hw. specialize (H w Hw). unfold run.
  destruct (m w) as [w' [a |]]; assumption.
Qed.

Lemma keeps_safely_returns {A} J (m : py A) w :
  keeps_safely J m -> J w -> exists a, result m w = Return a.
Proof.
  intros H Hw. specialize (H w Hw). unfold result.
  destruct (m w) as [w' [a |]]; [eauto | contradiction].
Qed.

Lemma appends_keeps {A} J (m : py A) :
  (forall w w', prim w w' -> J w -> J w') -> appends m -> keeps J m.
Proof.
  intros Hprim Hm w Hw. specialize (Hm w). unfold run in Hm.
  assert (HJ : J (fst (m w))).
  { revert Hw. generalize dependent (fst (m w)). intros w' Hrtc.
    induction Hrtc as [| x y z Hxy _ IH]; [auto |].
    intros Hx. apply IH. eapply Hprim; eauto. }
  destruct (m w) as [w' [a |]]; exact HJ.
Qed.

End Triples.

Section Reachability.

Implicit Types (w : world) (j : list entry).

Lemma ticks_reachable k w : rtc prim w (journal_world [] k w).
Proof.
  induction k as [| k IH].
  - rewrite journal_world_nil. apply rtc_refl.
  - eapply rtc_r; [exact IH |].
    replace (journal_world [] (S k) w)
      with (mk_world (pending (journal_world [] k w)) (committed (journal_world [] k w))
                     (clock (journal_world [] k w)) (S (ticks (journal_world [] k w)))).
    + apply prim_tick.
    + unfold journal_world. simpl. f_equal. lia.
Qed.

Lemma entry_reachable e w : rtc prim w (journal_world [e] 0 w).
Proof.
  assert (Hw : journal_world [e] 0 w =
               mk_world (set_ttps (exec e (catalog w)) (pending w))
                        (committed w) (clock w) (ticks w)).
  { unfold journal_world. simpl. now rewrite Nat.add_0_r. }
  rewrite Hw. destruct e as [r | tid tac nm ds ts]; simpl exec.
  - apply rtc_once. apply (prim_insert r w).
  - eapply rtc_l; [apply (prim_insert (mk_row tid tac (Some nm) (Some ds) "" ts) w) |].
    apply rtc_once.
    set (w1 := set_pending _ w).
    replace (mk_world _ (committed w) (clock w) (ticks w))
      with (set_pending (set_ttps (update_enrich nm ds tid tac (catalog w1)) (pending w1)) w1);
      [apply prim_update | reflexivity].
Qed.

Lemma journal_reachable j k w : rtc prim w (journal_world j k w).
Proof.
  revert w. induction j as [| e j IH]; intros w; [apply ticks_reachable |].
  change (e :: j) with ([e] ++ j). change k with (0 + k).
  rewrite <- journal_world_app.
  eapply rtc_trans; [apply entry_reachable | apply IH].
Qed.

Lemma pass_appends P (m : py nat) : pass P m -> appends m.
Proof.
  intros (b & fin & _ & Hm) w. destruct (Hm w) as (j & k & _ & E).
  unfold run. rewrite E. destruct fin as [[|] |]; simpl;
    try apply journal_reachable.
  eapply rtc_r; [apply journal_reachable | apply prim_commit].
Qed.

Lemma appends_ret {A} (a : A) : appends (ret a).
Proof. intros w. apply rtc_refl. Qed.

Lemma appends_bind {A B} (m : py A) (k : A -> py B) :
  appends m -> (forall a, appends (k a)) -> appends (bind m k).
Proof.
  intros Hm Hk w. specialize (Hm w). unfold run, bind in *.
  destruct (m w) as [w' [a |]]; simpl in Hm; [| assumption].
  eapply rtc_trans; [exact Hm | apply Hk].
Qed.

Lemma appends_for_acc {A S} (body : S -> A -> py S) (l : list A) (s : S) :
  (forall s a, appends (body s a)) -> appends (for_acc body l s).
Proof.
  intros Hbody. revert s. induction l as [| a l IH]; intros s; simpl.
  - apply appends_ret.
  - apply appends_bind; [apply Hbody | intros s'; apply IH].
Qed.

Lemma appends_now_iso : appends now_iso.
Proof. intros w. apply rtc_once, prim_tick. Qed.

Lemma appends_execute_insert r : appends (execute_insert r).
Proof. intros w. apply rtc_once, prim_insert. Qed.

Lemma appends_commit : appends commit.
Proof. intros w. apply rtc_once, prim_commit. Qed.

Lemma appends_seed : appends seed_minimal_ttps.
Proof.
  intros w. unfold run, seed_minimal_ttps.
  destruct (length (ttps (pending w)) =? 0)%nat; [| apply rtc_refl].
  apply appends_bind; [apply appends_now_iso |]. intros now.
  apply appends_bind; [| intros _; apply appends_commit].
  apply appends_for_acc. intros _ [[[[tid tac] nm] ds] rf].
  apply appends_execute_insert.
Qed.

Lemma stable_prim I w w' : stable I -> prim w w' -> holds I w -> holds I w'.
Proof.
  intros [Hi Hu Hc _] Hp. unfold holds.
  destruct Hp; simpl; auto. apply Hc.
Qed.

End Reachability.

(** ** The import route and the request cycle *)

Section Route.

Implicit Types (w : world) (J : world -> Prop) (env : environment).

Lemma appends_load_json env path : appends (_load_json env path).
Proof.
  unfold _load_json. destruct (json_at env path); intros w; apply rtc_refl.
Qed.

Lemma appends_attempt_json_body env total p :
  appends (js <- _load_json env p ;;
           n <- _try_import_from_stix_or_layer js ;;
           ret (total + n)).
Proof.
  apply appends_bind; [apply appends_load_json |]. intros js.
  apply appends_bind; [apply (pass_appends _ _ (pass_import js)) |].
  intros n. apply appends_ret.
Qed.

Lemma appends_attempt_xlsx_body env total p :
  appends (n <- _try_enrich_from_xlsx env p ;; ret (total + n)).
Proof.
  apply appends_bind; [apply (pass_appends _ _ (pass_enrich env p)) |].
  intros n. apply appends_ret.
Qed.

Variable J : world -> Prop.
Hypothesis J_prim : forall w w', prim w w' -> J w -> J w'.

Lemma keeps_attempt_json env total p : keeps_safely J (attempt_json env total p).
Proof.
  unfold attempt_json. destruct (exists_file (json_at env p)).
  - apply keeps_try_or, appends_keeps; [exact J_prim |].
    apply appends_attempt_json_body.
  - now apply hoare_ret.
Qed.

Lemma keeps_attempt_xlsx env total p : keeps_safely J (attempt_xlsx env total p).
Proof.
  unfold attempt_xlsx. destruct (exists_file (xlsx_at env p)).
  - apply keeps_try_or, appends_keeps; [exact J_prim |].
    apply appends_attempt_xlsx_body.
  - now apply hoare_ret.
Qed.

Lemma keeps_json_candidates env ps total :
  keeps_safely J (for_acc (attempt_json env) ps total).
Proof. apply hoare_for_acc. intros s a. apply keeps_attempt_json. Qed.

Lemma keeps_xlsx_candidates env ps total :
  keeps_safely J (for_acc (attempt_xlsx env) ps total).
Proof. apply hoare_for_acc. intros s a. apply keeps_attempt_xlsx. Qed.

Lemma keeps_seed : keeps_safely J seed_minimal_ttps.
Proof.
  intros w Hw.
  assert (HJ : J (run seed_minimal_ttps w)).
  { apply (keeps_run J); [| assumption].
    apply appends_keeps; [exact J_prim | apply appends_seed]. }
  unfold run in HJ. unfold seed_minimal_ttps in *.
  destruct (length (ttps (pending w)) =? 0)%nat; exact HJ.
Qed.

End Route.

Section RouteInvariants.

Implicit Types (w : world) (env : environment).

Lemma settings_are_prim s w w' : prim w w' -> settings_are s w -> settings_are s w'.
Proof. intros Hp [H1 H2]. destruct Hp; split; simpl; assumption. Qed.

(** The import pass returns its total, and sets the flag in both copies of
    the database exactly when the total is positive. *)
Lemma admin_load_mitre_settings env s :
  hoare (settings_are s) (admin_load_mitre env)
        (fun total w' =>
           settings_are (if (0 <? total)%nat then <["mitre_loaded" := "1"]> s else s) w')
        (fun _ => False).
Proof.
  unfold admin_load_mitre.
  eapply hoare_bind; [apply keeps_json_candidates, settings_are_prim |].
  intros total0. cbv beta.
  eapply hoare_bind; [apply keeps_xlsx_candidates, settings_are_prim |].
  intros total. cbv beta.
  destruct (0 <? total)%nat eqn:Ht.
  - intros w [Hp Hc]. unfold bind, set_setting, bind, commit, ret, settings_are.
    simpl. now rewrite Hp, Ht.
  - intros w Hw. unfold bind, ret. simpl. now rewrite Ht.
Qed.

Lemma admin_load_mitre_stable env I :
  stable I -> keeps_safely (holds I) (admin_load_mitre env).
Proof.
  intros HI. unfold admin_load_mitre.
  assert (Hprim : forall w w', prim w w' -> holds I w -> holds I w').
  { intros w w'. now apply stable_prim. }
  eapply hoare_bind; [now apply keeps_json_candidates |].
  intros total0. cbv beta.
  eapply hoare_bind; [now apply keeps_xlsx_candidates |].
  intros total. cbv beta.
  destruct (0 <? total)%nat.
  - intros w Hw. unfold bind, set_setting, bind, commit, ret, holds in *. simpl.
    eapply stable_commit; eauto.
  - intros w Hw. exact Hw.
Qed.

Lemma serve_stable env rt I : stable I -> keeps_safely (holds I) (serve env rt).
Proof.
  intros HI. unfold serve.
  assert (Hprim : forall w w', prim w w' -> holds I w -> holds I w').
  { intros w w'. now apply stable_prim. }
  assert (Hdrop : hoare (holds I) connect (fun _ => holds I) (fun _ => False)).
  { intros w Hw. unfold holds in *. simpl. eapply stable_drop; eauto. }
  eapply hoare_bind; [exact Hdrop |]. intros ?.
  eapply hoare_bind with (Mid := fun _ => holds I).
  { intros w Hw. unfold init_db, commit, holds in *. simpl. eapply stable_commit; eauto. }
  intros ?.
  eapply hoare_bind; [now apply keeps_seed |]. intros ?.
  eapply hoare_bind with (Mid := fun _ => holds I).
  { destruct rt.
    - eapply hoare_bind; [now apply admin_load_mitre_stable |].
      intros total. now apply hoare_ret.
    - now apply hoare_ret. }
  intros res. eapply hoare_bind; [exact Hdrop |]. intros ?. now apply hoare_ret.
Qed.

Lemma ingest_stable op I : stable I -> keeps_safely (holds I) (ingest op).
Proof.
  intros HI.
  assert (Hprim : forall w w', prim w w' -> holds I w -> holds I w').
  { intros w w'. now apply stable_prim. }
  destruct op as [| js | wb | env]; simpl.
  - now apply keeps_seed.
  - apply keeps_try_or, appends_keeps; [exact Hprim |].
    apply appends_bind; [apply (pass_appends _ _ (pass_import js)) |].
    intros n. apply appends_ret.
  - apply keeps_try_or, appends_keeps; [exact Hprim |].
    apply appends_bind; [apply (pass_appends _ _ (pass_enrich_workbook wb)) |].
    intros n. apply appends_ret.
  - eapply hoare_bind; [now apply admin_load_mitre_stable |].
    intros total. now apply hoare_ret.
Qed.

Lemma ingest_all_stable ops I w : stable I -> holds I w -> holds I (ingest_all ops w).
Proof.
  intros HI. revert w. induction ops as [| op ops IH]; intros w Hw; [assumption |].
  simpl. apply IH. apply (keeps_run (holds I)); [| assumption].
  apply keeps_safely_keeps. now apply ingest_stable.
Qed.

Lemma serve_all_stable env rts I w :
  stable I -> holds I w -> holds I (serve_all env rts w).
Proof.
  intros HI. revert w. induction rts as [| rt rts IH]; intros w Hw; [assumption |].
  simpl. apply IH. apply (keeps_run (holds I)); [| assumption].
  apply keeps_safely_keeps. now apply serve_stable.
Qed.

(** The stable properties the claims are about. *)

Lemma stable_unique_keys :
  stable (fun p c => NoDup (keys p) /\ NoDup (keys c)).
Proof.
  split.
  - intros p c r [Hp Hc]. split; [now apply NoDup_keys_insert | assumption].
  - intros p c nm ds tid tac [Hp Hc]. now rewrite keys_update_enrich.
  - intros p c [Hp _]. now split.
  - intros p c [_ Hc]. now split.
Qed.

Lemma stable_has_key k :
  stable (fun p c => k ∈ keys p /\ k ∈ keys c).
Proof.
  split.
  - intros p c r [Hp Hc]. split; [now apply keys_insert_mono | assumption].
  - intros p c nm ds tid tac [Hp Hc]. now rewrite keys_update_enrich.
  - intros p c [Hp _]. now split.
  - intros p c [_ Hc]. now split.
Qed.

Lemma stable_nonempty :
  stable (fun p c => p <> [] /\ c <> []).
Proof.
  split.
  - intros p c r [Hp Hc]. split; [| assumption].
    intros E. pose proof (length_insert_or_ignore r p) as Hl.
    rewrite E in Hl. destruct p; [contradiction | simpl in Hl; lia].
  - intros p c nm ds tid tac [Hp Hc]. split; [| assumption].
    intros E. apply Hp. unfold update_enrich in E. now destruct p.
  - intros p c [Hp _]. now split.
  - intros p c [_ Hc]. now split.
Qed.

End RouteInvariants.

(** ** Seeding, computed *)

Lemma seed_on_empty (w : world) :
  catalog w = [] ->
  seed_minimal_ttps w =
  (let d := mk_db (seed_rows (clock w (ticks w))) (settings (pending w)) in
   mk_world d d (clock w) (S (ticks w)), Return tt).
Proof.
  destruct w as [[rows st] c clk t]. unfold catalog. simpl. intros ->. reflexivity.
Qed.

Lemma seed_on_nonempty (w : world) :
  catalog w <> [] -> seed_minimal_ttps w = (w, Return tt).
Proof.
  unfold catalog, seed_minimal_ttps. intros H.
  destruct (ttps (pending w)); [contradiction | reflexivity].
Qed.

(** ** The importers on sample inputs *)

(** The flat list alone stores one row under the placeholder name; the
    workbook then fills in name and description of that row and counts 1. *)
Example list_then_spreadsheet :
  let w1 := run (_try_import_from_stix_or_layer sample_layer) (fresh_world sample_clock) in
  catalog w1 = [mk_row "T1059" "execution" (Some "T1059") (Some "") "" "2024-05-01T12:00:00"] /\
  catalog (run (enrich_workbook sample_named_sheet) w1)
  = [mk_row "T1059" "execution" (Some "Command and Scripting Interpreter") (Some "desc...")
            "" "2024-05-01T12:00:00"] /\
  result (enrich_workbook sample_named_sheet) w1 = Return 1.
Proof. vm_compute. repeat split. Qed.

(** A cell that is neither empty nor text in the name column makes the
    importer raise; the rows written before stay in the open transaction
    and are not committed. *)
Example number_in_name_column_raises :
  let wb := [ [ [CText "ID"; CText "Name"; CText "Tactics"];
                [CText "T1059"; CText "Shell"; CText "Execution"];
                [CText "T1021"; COther true "42"; CText "Lateral Movement"] ] ] in
  let w := run (enrich_workbook wb) (fresh_world sample_clock) in
  result (enrich_workbook wb) (fresh_world sample_clock) = Raise /\
  keys (catalog w) = [("T1059", "execution")] /\
  ttps (committed w) = [].
Proof. vm_compute. repeat split. Qed.

(** [lower] and [strip] beyond ASCII: the accented capital, the Kelvin
    sign, the capital sigma at the end and inside of a word, the dotted
    capital I; the no-break space and other white space. *)
Example lower_and_strip_beyond_ascii :
  Py.lower (Py.encode [201; 99; 111; 108; 101]%N) = Py.encode [233; 99; 111; 108; 101]%N /\
  Py.lower (Py.encode [8490]%N) = "k" /\
  Py.lower (Py.encode [927; 916; 927; 931]%N) = Py.encode [959; 948; 959; 962]%N /\
  Py.lower (Py.encode [931; 913; 931; 32; 913; 931; 46; 931]%N)
  = Py.encode [963; 945; 962; 32; 945; 963; 46; 962]%N /\
  Py.lower (Py.encode [304]%N) = Py.encode [105; 775]%N /\
  Py.strip (String.append (Py.encode [160; 8195]%N)
                          (String.append "a b" (Py.encode [12288; 10]%N))) = "a b" /\
  is_attack_ref (mk_ref (Some (String.append "MITRE-ATTAC" (Py.encode [8490]%N)))
                        (Some (JString "T1078"))) = true /\
  _match (mitre_query (String.append " " (Py.encode [201; 67; 79; 76; 69; 160]%N)))
         (mk_row "T1059" "execution"
                 (Some (String.append (Py.encode [201]%N) "cole Shell")) None "" "") = true.
Proof. vm_compute. repeat split. Qed.

(** The scan of the references tests the source as well as the id: a
    reference of another source is passed over even when its id starts
    with "T", and the external id [true] is taken as "1". *)
Example reference_scan_tests_source :
  is_attack_ref (mk_ref (Some "capec") (Some (JString "T1078"))) = false /\
  is_attack_ref (mk_ref None (Some (JString "T1078"))) = false /\
  is_attack_ref (mk_ref (Some "mitre-attack") (Some JOther)) = false /\
  is_attack_ref (mk_ref (Some "mitre-attack") None) = false /\
  find_tech_id [mk_ref (Some "capec") (Some (JString "T1078"));
                mk_ref (Some "Mitre-Attack") (Some (JString "T1059"))] = Some "T1059" /\
  find_tech_id [mk_ref (Some "mitre-attack") (Some JTrue)] = Some "1".
Proof. vm_compute. repeat split. Qed.

(** The header match is by substring: "technique id" is also found as the
    name column. *)
Example technique_id_header_is_a_name_header :
  find_col (build_header [[CText "Technique ID"; CText "Tactics"]]) name_keys = Some 1.
Proof. reflexivity. Qed.

(** * The claims *)

(** ** C1: the enrich-only rule of the [UPDATE] *)

(** What the [CASE] expressions guarantee: a stored name that is neither
    [NULL], empty nor the technique id, and a stored description that is
    neither [NULL] nor empty, survive any update. *)
Lemma genuine_fields_kept nm ds tid tac r n d :
  name r = Some n -> n <> "" -> n <> technique_id r ->
  description r = Some d -> d <> "" ->
  name (enrich_row nm ds tid tac r) = Some n /\
  description (enrich_row nm ds tid tac r) = Some d.
Proof.
  intros Hn Hn1 Hn2 Hd Hd1. unfold enrich_row.
  destruct (same_key tid tac r); [| now split].
  simpl. unfold case_name, case_description. rewrite Hn, Hd.
  apply String.eqb_neq in Hn1, Hn2, Hd1. now rewrite Hn1, Hn2, Hd1.
Qed.

(** C1. The incoming name is not tested for emptiness: after the flat list
    [sample_layer] has stored T1059/execution under the placeholder name
    "T1059", a spreadsheet row for the same pair with an empty name cell
    replaces the placeholder by the empty string. *)
Theorem empty_name_erases_placeholder :
  let w1 := run (_try_import_from_stix_or_layer sample_layer) (fresh_world sample_clock) in
  let w2 := run (enrich_workbook sample_unnamed_sheet) w1 in
  map name (catalog w1) = [Some "T1059"] /\
  map name (catalog w2) = [Some ""] /\
  keys (catalog w2) = [("T1059", "execution")].
Proof. vm_compute. repeat split. Qed.

(** ** C2: which candidates are dropped *)

(** C2, as stated, fails: the bundle importer stores a row whose technique
    id does not match the pattern and whose tactic is not in the registry;
    for the external id [true] it stores the id "1". *)
Lemma odd_bundle_row_is_stored :
  let w := run (_try_import_from_stix_or_layer sample_odd_bundle) (fresh_world sample_clock) in
  let w' := run (_try_import_from_stix_or_layer sample_true_bundle) (fresh_world sample_clock) in
  keys (catalog w) = [("Tbogus", "made-up-phase")] /\
  Spec.technique_id_ok "Tbogus" = false /\
  in_TACTIC_TITLES "made-up-phase" = false /\
  Spec.accepts "Tbogus" "made-up-phase" = false /\
  keys (catalog w') = [("1", "execution")] /\
  Spec.accepts "1" "execution" = false.
Proof. vm_compute. repeat split. Qed.

(** C2, amended. No importer tests the id pattern. Whatever the catalog
    holds, a key that is in the catalog after a source has run was there
    before or passed the test of that source: the spreadsheet importer
    writes only candidates whose id starts with "T" and whose tactic is in
    the registry; the bundle importer only candidates whose id starts with
    "T" or is "1" (the external id [true], which renders as "True");
    the flat-list importer only candidates with a non-empty id and a
    non-empty tactic; so no JSON document writes an empty id. The seed
    rows pass all the tests of the specification. *)
Theorem importers_filter_candidates (w : world) (k : string * string) :
  (forall env xlsx_path,
      k ∈ keys (catalog (run (_try_enrich_from_xlsx env xlsx_path) w)) ->
      k ∈ keys (catalog w) \/
      (Py.startswith k.1 "T" = true /\ in_TACTIC_TITLES k.2 = true)) /\
  (forall objects,
      k ∈ keys (catalog (run (_try_import_from_stix_or_layer (StixBundle objects)) w)) ->
      k ∈ keys (catalog w) \/ bundle_id k.1) /\
  (forall techniques,
      k ∈ keys (catalog (run (_try_import_from_stix_or_layer (NavigatorLayer techniques)) w)) ->
      k ∈ keys (catalog w) \/ (k.1 <> "" /\ k.2 <> "")) /\
  (forall js,
      k ∈ keys (catalog (run (_try_import_from_stix_or_layer js) w)) ->
      k ∈ keys (catalog w) \/ k.1 <> "") /\
  (catalog w = [] ->
   Forall (fun k => Spec.accepts k.1 k.2 = true)
          (keys (catalog (run seed_minimal_ttps w)))).
Proof.
  repeat split.
  - intros env xlsx_path.
    apply (pass_writes (fun k => Py.startswith k.1 "T" = true /\ in_TACTIC_TITLES k.2 = true)).
    apply pass_enrich.
  - intros objects.
    apply (pass_writes (fun k => bundle_id k.1)). apply pass_import_stix.
  - intros techniques.
    apply (pass_writes (fun k => k.1 <> "" /\ k.2 <> "")). apply pass_import_layer.
  - intros js. apply (pass_writes (fun k => k.1 <> "")). apply pass_import.
  - intros Hempty. unfold run. rewrite (seed_on_empty w Hempty).
    unfold catalog. simpl. repeat constructor.
Qed.

Lemma importers_filter_candidates_witness :
  let stored := with_catalog [mk_row "X1" "made-up-phase" None None "" ""]
                             (fresh_world sample_clock) in
  (("T1059", "execution") ∈ keys (catalog stored) \/
   (Py.startswith "T1059" "T" = true /\ in_TACTIC_TITLES "execution" = true)) /\
  (("1", "execution") ∈ keys (catalog stored) \/ bundle_id "1") /\
  Forall (fun k => Spec.accepts k.1 k.2 = true)
         (keys (catalog (run seed_minimal_ttps (fresh_world sample_clock)))).
Proof.
  intros stored.
  destruct (importers_filter_candidates stored ("T1059", "execution")) as (Hx & _).
  destruct (importers_filter_candidates stored ("1", "execution")) as (_ & Hs & _).
  destruct (importers_filter_candidates (fresh_world sample_clock) ("", ""))
    as (_ & _ & _ & _ & Hseed).
  split; [| split].
  - apply (Hx (mk_env "/srv" (fun _ => Missing)
                      (fun _ => Content sample_named_sheet) true)
              "/srv/enterprise-attack-v17.1.xlsx").
    vm_compute. right. left.
  - apply (Hs [Dict (mk_obj (Some "attack-pattern") (Some "Odd") None
                            [mk_ref (Some "mitre-attack") (Some JTrue)]
                            [mk_phase (Some "mitre-attack") (Some "execution")])]).
    vm_compute. right. left.
  - apply Hseed. reflexivity.
Defined.

(** ** C3: replaying a batch *)

(** C3, as stated, fails: the counters count the candidates, not the
    changes. The flat list [sample_layer], imported a second time, reports
    1 again although the catalog is the same. *)
Lemma second_pass_counts_again :
  let m := _try_import_from_stix_or_layer sample_layer in
  let w1 := run m (fresh_world sample_clock) in
  catalog (run m w1) = catalog w1 /\
  result m w1 = Return 1 /\
  result m w1 <> Return 0.
Proof. vm_compute. repeat split. discriminate. Qed.

(** C3, amended. Applying a JSON document or a workbook file a second
    time, to the database that has absorbed it, leaves both copies of the
    database (all rows, all fields) as they are; the second pass ends as
    the first did, with the same count: the number of candidates, not 0. *)
Theorem replay_leaves_catalog_unchanged (w : world) :
  (forall js,
      let m := _try_import_from_stix_or_layer js in
      pending (run m (run m w)) = pending (run m w) /\
      committed (run m (run m w)) = committed (run m w) /\
      result m (run m w) = result m w) /\
  (forall env xlsx_path,
      let m := _try_enrich_from_xlsx env xlsx_path in
      pending (run m (run m w)) = pending (run m w) /\
      committed (run m (run m w)) = committed (run m w) /\
      result m (run m w) = result m w).
Proof.
  split.
  - intros js m. apply (pass_replay nonempty_id), pass_import.
  - intros env xlsx_path m. eapply pass_replay, pass_enrich.
Qed.

(** ** C4: one row per (technique id, tactic) *)

Lemma length_exec_stored e rows :
  row_key (entry_row e) ∈ keys rows -> length (exec e rows) = length rows.
Proof.
  intros H. rewrite exec_enrich_by, length_map. now rewrite insert_or_ignore_present.
Qed.

Lemma for_acc_inserts {T} (mk : T -> ttp_row) (l : list T) acc w :
  for_acc (fun inserted x => execute_insert (mk x) ;;; ret (S inserted)) l acc w =
  (with_catalog (apply_journal (map (fun x => Ins (mk x)) l) (catalog w)) w,
   Return (acc + length l)).
Proof.
  revert acc w. induction l as [| x l IH]; intros acc w.
  - simpl. unfold ret, with_catalog, set_pending, catalog.
    rewrite set_ttps_same, Nat.add_0_r. now destruct w.
  - simpl for_acc. unfold bind at 1. unfold bind at 1. unfold execute_insert, ret.
    rewrite IH. simpl. f_equal. f_equal. lia.
Qed.

Lemma enrich_tactic_keys tid nm ds acc tac w :
  in_TACTIC_TITLES tac = true ->
  enrich_tactic tid nm ds acc tac w
  = (run (enrich_tactic tid nm ds acc tac) w, Return (S acc)) /\
  keys (catalog (run (enrich_tactic tid nm ds acc tac) w))
  = if has_key tid tac (catalog w) then keys (catalog w)
    else keys (catalog w) ++ [(tid, tac)].
Proof.
  intros H. unfold run, enrich_tactic. rewrite H. simpl negb. cbv iota.
  unfold bind, now_iso, execute_insert, execute_update, ret, catalog. simpl.
  split; [reflexivity |].
  now rewrite keys_update_enrich, keys_insert_or_ignore.
Qed.

Lemma import_stix_object_run now inserted obj tid w :
  obj_type obj = Some "attack-pattern" ->
  find_tech_id (external_references obj) = Some tid ->
  import_stix_object now inserted obj w =
  (with_catalog (apply_journal (stix_candidates now tid obj) (catalog w)) w,
   Return (inserted + length (attack_phases (kill_chain_phases obj)))).
Proof.
  intros Htype Hid. unfold import_stix_object, stix_candidates.
  rewrite Htype, Hid. simpl opt_eqb. cbv iota.
  pose proof (find_tech_id_attack _ _ Hid) as HT.
  assert (Htruthy : Py.truthy (Some tid) = true).
  { destruct HT as [HT | ->]; [| reflexivity].
    simpl. destruct tid; [discriminate | reflexivity]. }
  rewrite Htruthy. simpl negb. cbv iota.
  destruct (attack_phases (kill_chain_phases obj)) as [| p ps] eqn:Hph.
  - unfold ret, with_catalog, set_pending, catalog. simpl.
    rewrite set_ttps_same, Nat.add_0_r. now destruct w.
  - cbv zeta.
    apply (for_acc_inserts
             (fun tac => mk_row tid (Py.lower (Py.or_empty tac)) (obj_name obj)
                                (Some (Py.strip (Py.or_empty (obj_description obj)))) ""
                                now)).
Qed.

Lemma has_key_snoc tid tac rows r :
  has_key tid tac (rows ++ [r]) = has_key tid tac rows || same_key tid tac r.
Proof. unfold has_key. rewrite existsb_app. simpl. now rewrite orb_false_r. Qed.

(** C4. Whatever the sequence of seedings, JSON imports, workbook
    enrichments and whole import passes, a catalog without duplicate keys
    stays without duplicate keys, in the connection's view and in the
    committed file; a candidate whose pair is stored leaves the number of
    rows as it is. A spreadsheet candidate whose pair is stored adds no
    key (the row is enriched in place); one whose pair is not stored adds
    that one key. One technique id under two tactics gives two rows, the
    same tactic twice gives one: for the tokens of a spreadsheet row, for
    the phases of a bundle object, and for a flat list. *)
Theorem keys_stay_unique :
  (forall ops w,
      NoDup (keys (catalog w)) -> NoDup (keys (ttps (committed w))) ->
      NoDup (keys (catalog (ingest_all ops w))) /\
      NoDup (keys (ttps (committed (ingest_all ops w))))) /\
  (forall e rows,
      row_key (entry_row e) ∈ keys rows -> length (exec e rows) = length rows) /\
  (forall clk tid tac1 tac2,
      tid <> "" -> Py.lower tac1 <> "" -> Py.lower tac2 <> "" ->
      Py.lower tac1 <> Py.lower tac2 ->
      keys (catalog (run (_try_import_from_stix_or_layer
                            (NavigatorLayer [Dict (mk_entry (Some tid) (Some tac1));
                                             Dict (mk_entry (Some tid) (Some tac2))]))
                         (fresh_world clk)))
      = [(tid, Py.lower tac1); (tid, Py.lower tac2)]) /\
  (forall tid nm ds tac acc w,
      in_TACTIC_TITLES tac = true ->
      ((tid, tac) ∈ keys (catalog w) ->
       keys (catalog (run (enrich_tactic tid nm ds acc tac) w)) = keys (catalog w)) /\
      ((tid, tac) ∉ keys (catalog w) ->
       keys (catalog (run (enrich_tactic tid nm ds acc tac) w))
       = keys (catalog w) ++ [(tid, tac)])) /\
  (forall tid nm ds tac1 tac2 acc w,
      in_TACTIC_TITLES tac1 = true -> in_TACTIC_TITLES tac2 = true ->
      (tid, tac1) ∉ keys (catalog w) -> (tid, tac2) ∉ keys (catalog w) ->
      keys (catalog (run (for_acc (enrich_tactic tid nm ds) [tac1; tac2] acc) w))
      = keys (catalog w) ++
        (if String.eqb tac1 tac2 then [(tid, tac1)] else [(tid, tac1); (tid, tac2)])) /\
  (forall now inserted obj tid p1 p2 w,
      obj_type obj = Some "attack-pattern" ->
      find_tech_id (external_references obj) = Some tid ->
      attack_phases (kill_chain_phases obj) = [p1; p2] ->
      let tac1 := Py.lower (Py.or_empty p1) in
      let tac2 := Py.lower (Py.or_empty p2) in
      (tid, tac1) ∉ keys (catalog w) -> (tid, tac2) ∉ keys (catalog w) ->
      keys (catalog (run (import_stix_object now inserted obj) w))
      = keys (catalog w) ++
        (if String.eqb tac1 tac2 then [(tid, tac1)] else [(tid, tac1); (tid, tac2)])).
Proof.
  split; [| split; [| split; [| split; [| split]]]].
  - intros ops w Hp Hc.
    apply (ingest_all_stable ops _ w stable_unique_keys). now split.
  - apply length_exec_stored.
  - intros clk tid tac1 tac2 Hid H1 H2 Hne.
    apply String.eqb_neq in Hid, H1, H2.
    unfold run, _try_import_from_stix_or_layer, bind, now_iso, for_acc, on_dict,
      import_layer_entry, fresh_world, catalog. simpl.
    rewrite Hid, H1. simpl. rewrite H2. simpl.
    unfold insert_or_ignore. simpl.
    match goal with
    | |- context [same_key ?a ?b ?r] =>
        assert (Hk : same_key a b r = false)
    end.
    { unfold same_key. simpl. apply andb_false_iff. right. now apply String.eqb_neq. }
    rewrite Hk. reflexivity.
  - intros tid nm ds tac acc w Hreg.
    destruct (enrich_tactic_keys tid nm ds acc tac w Hreg) as [_ Hk]. rewrite Hk. split.
    + intros Hin. apply has_key_true in Hin. now rewrite Hin.
    + intros Hnin. apply has_key_false in Hnin. now rewrite Hnin.
  - intros tid nm ds tac1 tac2 acc w Hr1 Hr2 Hn1 Hn2.
    destruct (enrich_tactic_keys tid nm ds acc tac1 w Hr1) as [E1 K1].
    set (w1 := run (enrich_tactic tid nm ds acc tac1) w) in *.
    destruct (enrich_tactic_keys tid nm ds (S acc) tac2 w1 Hr2) as [E2 K2].
    assert (Hrun : run (for_acc (enrich_tactic tid nm ds) [tac1; tac2] acc) w
                   = run (enrich_tactic tid nm ds (S acc) tac2) w1).
    { unfold run at 1. simpl for_acc. unfold bind. rewrite E1, E2. reflexivity. }
    rewrite Hrun, K2.
    apply has_key_false in Hn1, Hn2. rewrite Hn1 in K1.
    assert (Hk2 : has_key tid tac2 (catalog w1) = String.eqb tac1 tac2).
    { apply eq_true_iff_eq. rewrite has_key_true, K1, elem_of_app, list_elem_of_singleton.
      rewrite String.eqb_eq. split.
      - intros [Hin | Heq]; [| congruence].
        apply has_key_true in Hin. congruence.
      - intros ->. now right. }
    rewrite Hk2, K1. destruct (String.eqb tac1 tac2); [reflexivity |].
    now rewrite <- app_assoc.
  - intros now inserted obj tid p1 p2 w Htype Hid Hph tac1 tac2 Hn1 Hn2.
    unfold run. rewrite (import_stix_object_run now inserted obj tid w Htype Hid).
    unfold stix_candidates. rewrite Hph.
    change (map _ [p1; p2])
      with [Ins (mk_row tid tac1 (obj_name obj)
                        (Some (Py.strip (Py.or_empty (obj_description obj)))) "" now);
            Ins (mk_row tid tac2 (obj_name obj)
                        (Some (Py.strip (Py.or_empty (obj_description obj)))) "" now)].
    generalize dependent tac2. generalize dependent tac1. intros tac1 Hn1 tac2 Hn2.
    set (r1 := mk_row tid tac1 _ _ _ _). set (r2 := mk_row tid tac2 _ _ _ _).
    change (fst (with_catalog (apply_journal [Ins r1; Ins r2] (catalog w)) w,
                 Return (inserted + length [p1; p2])))
      with (with_catalog (insert_or_ignore r2 (insert_or_ignore r1 (catalog w))) w).
    change (catalog (with_catalog (insert_or_ignore r2 (insert_or_ignore r1 (catalog w))) w))
      with (insert_or_ignore r2 (insert_or_ignore r1 (catalog w))).
    apply has_key_false in Hn1, Hn2.
    assert (H1 : insert_or_ignore r1 (catalog w) = catalog w ++ [r1]).
    { rewrite insert_or_ignore_unfold.
      change (technique_id r1) with tid. change (tactic r1) with tac1. now rewrite Hn1. }
    rewrite H1, keys_insert_or_ignore.
    change (technique_id r2) with tid. change (tactic r2) with tac2.
    change (row_key r2) with (tid, tac2).
    rewrite has_key_snoc, Hn2. unfold same_key.
    change (technique_id r1) with tid. change (tactic r1) with tac1.
    rewrite String.eqb_refl. cbn [orb andb].
    unfold keys. rewrite map_app. cbn [map]. change (row_key r1) with (tid, tac1).
    destruct (String.eqb tac1 tac2) eqn:E; [reflexivity |].
    now rewrite <- app_assoc.
Qed.

Lemma keys_stay_unique_witness :
  (NoDup (keys (catalog (ingest_all [Seed; ImportJson sample_layer; EnrichXlsx sample_unnamed_sheet]
                                    (fresh_world sample_clock)))) /\
   NoDup (keys (ttps (committed
                        (ingest_all [Seed; ImportJson sample_layer; EnrichXlsx sample_unnamed_sheet]
                                    (fresh_world sample_clock)))))) /\
  keys (catalog (run (_try_import_from_stix_or_layer
                        (NavigatorLayer [Dict (mk_entry (Some "T1078") (Some "Persistence"));
                                         Dict (mk_entry (Some "T1078") (Some "Initial-Access"))]))
                     (fresh_world sample_clock)))
  = [("T1078", "persistence"); ("T1078", "initial-access")] /\
  keys (catalog (run (enrich_tactic "T1059" "Shell" "" 0 "execution")
                     (run seed_minimal_ttps (fresh_world sample_clock))))
  = [("T1059", "execution"); ("T1021", "lateral-movement"); ("T1003", "credential-access")] /\
  keys (catalog (run (for_acc (enrich_tactic "T1078" "Valid Accounts" "") 
                              ["persistence"; "initial-access"] 0)
                     (fresh_world sample_clock)))
  = [("T1078", "persistence"); ("T1078", "initial-access")] /\
  keys (catalog (run (import_stix_object "now" 0 sample_object) (fresh_world sample_clock)))
  = [("T1078", "persistence"); ("T1078", "initial-access")].
Proof.
  destruct keys_stay_unique as (Hu & _ & H2 & Hone & Htwo & Hobj).
  split; [| split; [| split; [| split]]].
  - apply Hu; simpl; constructor.
  - apply (H2 sample_clock "T1078" "Persistence" "Initial-Access"); discriminate.
  - apply (Hone "T1059" "Shell" "" "execution" 0
                (run seed_minimal_ttps (fresh_world sample_clock))); [reflexivity |].
    vm_compute. left.
  - apply (Htwo "T1078" "Valid Accounts" "" "persistence" "initial-access" 0
                (fresh_world sample_clock)); try reflexivity; vm_compute; inversion 1.
  - apply (Hobj "now" 0 sample_object "T1078" (Some "persistence") (Some "initial-access")
                (fresh_world sample_clock)); try reflexivity; vm_compute; inversion 1.
Defined.

(** ** C5: the tactics cell of a spreadsheet row *)








(** ** C6: the candidates of a bundle object *)





(** ** C7: sheets without the needed columns *)

Lemma dict_set_values (P : nat -> Prop) k c d :
  P c -> Forall (fun kc => P kc.2) d -> Forall (fun kc => P kc.2) (dict_set k c d).
Proof.
  intros Hc Hd. induction Hd as [| [k' c'] d Hkc Hd IH]; simpl.
  - now repeat constructor.
  - destruct (String.eqb k' k); constructor; auto.
Qed.

Lemma build_header_columns ws : Forall (fun kc => 1 <= kc.2) (build_header ws).
Proof.
  unfold build_header.
  assert (Hseq : Forall (fun c => 1 <= c) (seq 1 (max_column ws))).
  { apply Forall_forall. intros c Hc. apply list_elem_of_In, in_seq in Hc. lia. }
  assert (Hnil : Forall (fun kc : string * nat => 1 <= kc.2) []) by constructor.
  revert Hnil. generalize (@nil (string * nat)) as header.
  induction Hseq as [| c l Hc _ IH]; intros header Hh; simpl; [assumption |].
  apply IH. destruct (cell_value ws 1 c); [assumption | |];
    now apply (dict_set_values (fun c => 1 <= c)).
Qed.

Lemma find_col_in header keys c :
  find_col header keys = Some c -> exists k, (k, c) ∈ header.
Proof.
  induction header as [| [k c'] header IH]; simpl; [discriminate |].
  destruct (existsb _ keys).
  - intros [= ->]. exists k. now left.
  - intros H. destruct (IH H) as (k' & Hk'). exists k'. now right.
Qed.

Lemma find_col_positive ws keys c :
  find_col (build_header ws) keys = Some c -> (c =? 0)%nat = false.
Proof.
  intros H. apply find_col_in in H as (k & Hk).
  pose proof (build_header_columns ws) as Hall.
  rewrite Forall_forall in Hall. specialize (Hall _ Hk). simpl in Hall.
  apply Nat.eqb_neq. lia.
Qed.

(** C7. A sheet in whose header [find_col] finds no identifier column, no
    name column or no tactics column is skipped: nothing is written and
    the counter stays. When the three are found the data rows are
    processed, whether or not a description column is found. *)
Theorem sheet_without_columns_is_skipped (ws : worksheet) (updated : nat) (w : world) :
  (find_col (build_header ws) id_keys = None \/
   find_col (build_header ws) name_keys = None \/
   find_col (build_header ws) tac_keys = None ->
   enrich_sheet updated ws w = (w, Return updated)) /\
  (forall cid cname ctac,
      find_col (build_header ws) id_keys = Some cid ->
      find_col (build_header ws) name_keys = Some cname ->
      find_col (build_header ws) tac_keys = Some ctac ->
      enrich_sheet updated ws w =
      for_acc (enrich_sheet_row ws cid cname (find_col (build_header ws) desc_keys) ctac)
              (seq 2 (max_row ws - 1)) updated w).
Proof.
  split.
  - intros H. unfold enrich_sheet. cbv zeta.
    destruct (find_col (build_header ws) id_keys) as [cid |]; [| reflexivity].
    destruct (find_col (build_header ws) name_keys) as [cname |]; [| reflexivity].
    destruct (find_col (build_header ws) tac_keys) as [ctac |]; [| reflexivity].
    destruct H as [H | [H | H]]; discriminate.
  - intros cid cname ctac Hid Hname Htac. unfold enrich_sheet. cbv zeta.
    rewrite Hid, Hname, Htac.
    now rewrite (find_col_positive _ _ _ Hid), (find_col_positive _ _ _ Hname),
      (find_col_positive _ _ _ Htac).
Qed.

Lemma sheet_without_columns_is_skipped_witness :
  enrich_sheet 0 sample_nameless_sheet (fresh_world sample_clock)
  = (fresh_world sample_clock, Return 0) /\
  find_col (build_header sample_undescribed_sheet) desc_keys = None /\
  keys (catalog (run (enrich_sheet 0 sample_undescribed_sheet) (fresh_world sample_clock)))
  = [("T1059", "execution")].
Proof.
  split; [| split].
  - apply (sheet_without_columns_is_skipped sample_nameless_sheet 0 (fresh_world sample_clock)).
    right. left. reflexivity.
  - reflexivity.
  - unfold run.
    rewrite (proj2 (sheet_without_columns_is_skipped sample_undescribed_sheet 0
                      (fresh_world sample_clock)) 1 2 3); reflexivity.
Defined.

(** ** One import as a whole *)

Section Whole.

Implicit Types (w : world) (env : environment) (j : list entry) (cut : option nat).

Lemma set_ttps_set_ttps rows rows' (d : database) :
  set_ttps rows (set_ttps rows' d) = set_ttps rows d.
Proof. reflexivity. Qed.

Lemma batch_world_app j1 cut1 k1 j2 cut2 k2 w :
  from_option (fun i => i <= length j1) True cut1 ->
  batch_world j2 cut2 k2 (batch_world j1 cut1 k1 w)
  = batch_world (j1 ++ j2)
                (match cut2 with Some i => Some (length j1 + i) | None => cut1 end)
                (k1 + k2) w.
Proof.
  intros Hc. unfold batch_world, catalog. simpl.
  rewrite apply_journal_app, Nat.add_assoc. f_equal.
  destruct cut2 as [i |].
  - rewrite take_app_add'  by reflexivity. now rewrite apply_journal_app.
  - destruct cut1 as [i |]; [| reflexivity]. simpl in Hc.
    now rewrite take_app_le by exact Hc.
Qed.

Lemma batch_ret : batch (fun acc => ret acc) [] None 0.
Proof.
  split; [exact I |]. intros acc w. exists [], 0. split; [reflexivity |].
  unfold ret, batch_world, catalog. simpl.
  rewrite set_ttps_same, !Nat.add_0_r. now destruct w.
Qed.

Lemma batch_bind (m1 m2 : nat -> py nat) b1 cut1 n1 b2 cut2 n2 :
  batch m1 b1 cut1 n1 -> batch m2 b2 cut2 n2 ->
  batch (fun acc => bind (m1 acc) m2) (b1 ++ b2)
        (match cut2 with Some i => Some (length b1 + i) | None => cut1 end) (n1 + n2).
Proof.
  intros [Hc1 H1] [Hc2 H2]. split.
  - destruct cut2 as [i |]; simpl in *; [rewrite length_app; lia |].
    destruct cut1 as [i |]; simpl in *; [rewrite length_app; lia | exact I].
  - intros acc w. destruct (H1 acc w) as (j1 & k1 & Hj1 & E1).
    destruct (H2 (acc + n1) (batch_world j1 cut1 k1 w)) as (j2 & k2 & Hj2 & E2).
    exists (j1 ++ j2), (k1 + k2). split; [now rewrite map_app, Hj1, Hj2 |].
    assert (Hlen : length j1 = length b1) by (now rewrite <- Hj1, length_map).
    unfold bind. rewrite E1, E2, batch_world_app, Hlen, Nat.add_assoc.
    + reflexivity.
    + rewrite Hlen. exact Hc1.
Qed.

(** An importer inside [try ... except: pass], adding to the total. *)
Lemma batch_of_pass P (m : py nat) :
  pass P m ->
  exists b cut n, batch (fun total => try_or (x <- m ;; ret (total + x)) total) b cut n.
Proof.
  intros (b & fin & _ & Hm).
  exists b, (match fin with Some true => Some (length b) | _ => None end),
         (match fin with None => 0 | _ => length b end).
  split; [destruct fin as [[|] |]; simpl; auto |].
  intros acc w. destruct (Hm w) as (j & k & Hj & E). exists j, k.
  split; [exact Hj |].
  assert (Hlen : length j = length b) by (now rewrite <- Hj, length_map).
  unfold try_or, bind. rewrite E.
  destruct fin as [[|] |]; unfold ret, batch_world, committed_world, journal_world; simpl.
  - rewrite <- Hlen, firstn_all. reflexivity.
  - reflexivity.
  - rewrite Nat.add_0_r. reflexivity.
Qed.

Lemma batch_attempt_json env p :
  exists b cut n, batch (fun total => attempt_json env total p) b cut n.
Proof.
  unfold attempt_json, _load_json.
  destruct (json_at env p) as [| | js]; simpl exists_file; cbv iota.
  - exists [], None, 0. apply batch_ret.
  - exists [], None, 0. destruct batch_ret as [Hc H]. split; [exact Hc |].
    intros acc w. destruct (H acc w) as (j & k & Hj & E). exists j, k.
    split; [exact Hj |]. rewrite <- E. reflexivity.
  - destruct (batch_of_pass _ _ (pass_import js)) as (b & cut & n & Hc & H).
    exists b, cut, n. split; [exact Hc |].
    intros acc w. destruct (H acc w) as (j & k & Hj & E). exists j, k.
    split; [exact Hj |]. rewrite <- E. reflexivity.
Qed.

Lemma batch_attempt_xlsx env p :
  exists b cut n, batch (fun total => attempt_xlsx env total p) b cut n.
Proof.
  unfold attempt_xlsx.
  destruct (exists_file (xlsx_at env p)).
  - apply (batch_of_pass _ _ (pass_enrich env p)).
  - exists [], None, 0. apply batch_ret.
Qed.

Lemma batch_for {A} (body : nat -> A -> py nat) (l : list A) :
  (forall a, exists b cut n, batch (fun acc => body acc a) b cut n) ->
  exists b cut n, batch (fun acc => for_acc body l acc) b cut n.
Proof.
  intros Hbody. induction l as [| a l IH]; simpl.
  - exists [], None, 0. apply batch_ret.
  - destruct (Hbody a) as (b1 & cut1 & n1 & H1).
    destruct IH as (b2 & cut2 & n2 & H2).
    eexists _, _, _.
    apply (batch_bind (fun acc => body acc a) (fun acc => for_acc body l acc)
             _ _ _ _ _ _ H1 H2).
Qed.

(** The two loops of [admin_load_mitre]. *)
Lemma batch_candidates env :
  exists b cut n,
    batch (fun acc => total <- for_acc (attempt_json env) (MITRE_JSON_CANDIDATES env) acc ;;
                      for_acc (attempt_xlsx env) (MITRE_XLSX_CANDIDATES env) total) b cut n.
Proof.
  destruct (batch_for (attempt_json env) (MITRE_JSON_CANDIDATES env)
              (batch_attempt_json env)) as (b1 & cut1 & n1 & H1).
  destruct (batch_for (attempt_xlsx env) (MITRE_XLSX_CANDIDATES env)
              (batch_attempt_xlsx env)) as (b2 & cut2 & n2 & H2).
  eexists _, _, _.
  apply (batch_bind _ (fun total => for_acc (attempt_xlsx env) (MITRE_XLSX_CANDIDATES env) total)
           _ _ _ _ _ _ H1 H2).
Qed.

Lemma admin_load_mitre_batch env :
  exists b cut n,
    from_option (fun i => i <= length b) True cut /\
    forall w, exists j k,
      map unstamp j = b /\
      admin_load_mitre env w
      = (if (0 <? n)%nat
         then mk_world (import_outcome j cut n (pending w))
                       (import_outcome j cut n (pending w)) (clock w) (ticks w + k)
         else batch_world j cut k w,
         Return n).
Proof.
  destruct (batch_candidates env) as (b & cut & n & Hc & H).
  exists b, cut, n. split; [exact Hc |].
  intros w. destruct (H 0 w) as (j & k & Hj & E). exists j, k. split; [exact Hj |].
  assert (Hassoc : admin_load_mitre env w
                   = bind (total <- for_acc (attempt_json env) (MITRE_JSON_CANDIDATES env) 0 ;;
                           for_acc (attempt_xlsx env) (MITRE_XLSX_CANDIDATES env) total)
                          (fun total =>
                             (if (0 <? total)%nat then set_setting "mitre_loaded" "1"
                              else ret tt) ;;; ret total) w).
  { unfold admin_load_mitre, bind.
    destruct (for_acc (attempt_json env) (MITRE_JSON_CANDIDATES env) 0 w) as [w1 [t1 |]];
      reflexivity. }
  rewrite Hassoc. unfold bind at 1. rewrite E. simpl Nat.add.
  unfold import_outcome. destruct (0 <? n)%nat; reflexivity.
Qed.

Lemma seed_from_file (d : database) clk t :
  exists d' t',
    seed_minimal_ttps (mk_world d d clk t) = (mk_world d' d' clk t', Return tt) /\
    ttps d' <> [] /\ (ttps d <> [] -> d' = d).
Proof.
  destruct (ttps d) as [| r rows] eqn:Hd.
  - rewrite seed_on_empty by exact Hd. simpl.
    eexists _, _. split; [reflexivity |]. split; [discriminate | congruence].
  - rewrite seed_on_nonempty by (unfold catalog; simpl; congruence).
    exists d, t. split; [reflexivity |]. split; [congruence | reflexivity].
Qed.

Lemma serve_other_file env w :
  ttps (committed w) <> [] -> committed (run (serve env OtherRoute) w) = committed w.
Proof.
  intros Hne.
  destruct (seed_from_file (committed w) (clock w) (ticks w)) as (d' & t' & Es & _ & Hd).
  unfold run, serve, bind, connect, init_db, close_db, connect, commit. simpl.
  rewrite Es. simpl. apply Hd, Hne.
Qed.

Lemma serve_load_file env :
  exists b cut n,
    forall w, exists j d0,
      map unstamp j = b /\ ttps d0 <> [] /\
      (ttps (committed w) <> [] -> d0 = committed w) /\
      committed (run (serve env LoadMitre) w) = import_outcome j cut n d0 /\
      result (serve env LoadMitre) w = Return (Some n).
Proof.
  destruct (admin_load_mitre_batch env) as (b & cut & n & Hc & H).
  exists b, cut, n. intros w.
  destruct (seed_from_file (committed w) (clock w) (ticks w)) as (d0 & t0 & Es & Hne & Hd).
  destruct (H (mk_world d0 d0 (clock w) t0)) as (j & k & Hj & E).
  exists j, d0. split; [exact Hj |]. split; [exact Hne |]. split; [exact Hd |].
  unfold run, result, serve, bind, connect, init_db, close_db, connect, commit. simpl.
  rewrite Es. simpl. rewrite E.
  unfold import_outcome, batch_world, catalog.
  destruct (0 <? n)%nat; simpl; [split; reflexivity |].
  destruct cut as [i |]; simpl; split; reflexivity.
Qed.

(** The loop over candidate paths runs the importer of each file that
    exists, in order, from the world the attempts before it left, whether
    they returned or raised, and adds up the counts returned. *)
Lemma attempt_json_one env total p w :
  attempt_json env total p w
  = if exists_file (json_at env p)
    then (fst (json_source env p w),
          Return (total + match snd (json_source env p w) with Return n => n | Raise => 0 end))
    else (w, Return total).
Proof.
  unfold attempt_json, json_source, try_or, bind, _load_json.
  destruct (json_at env p) as [| | js]; cbv beta iota delta [exists_file ret raise fst snd].
  - reflexivity.
  - now rewrite Nat.add_0_r.
  - destruct (_try_import_from_stix_or_layer js w) as [w1 [n1 |]];
      [reflexivity | now rewrite Nat.add_0_r].
Qed.

Lemma attempt_xlsx_one env total p w :
  attempt_xlsx env total p w
  = if exists_file (xlsx_at env p)
    then (fst (xlsx_source env p w),
          Return (total + match snd (xlsx_source env p w) with Return n => n | Raise => 0 end))
    else (w, Return total).
Proof.
  unfold attempt_xlsx, xlsx_source, try_or, bind.
  destruct (exists_file (xlsx_at env p)); [| reflexivity].
  destruct (_try_enrich_from_xlsx env p w) as [w1 [n1 |]]; simpl;
    [reflexivity | now rewrite Nat.add_0_r].
Qed.

Lemma attempt_json_all env ps total w :
  for_acc (attempt_json env) ps total w
  = (fst (attempt_all (map (json_source env)
                           (filter (fun p => exists_file (json_at env p) = true) ps)) w),
     Return (total + snd (attempt_all (map (json_source env)
                           (filter (fun p => exists_file (json_at env p) = true) ps)) w))).
Proof.
  revert total w. induction ps as [| p ps IH]; intros total w.
  - simpl. now rewrite Nat.add_0_r.
  - simpl for_acc. rewrite filter_cons. unfold bind. rewrite attempt_json_one.
    destruct (exists_file (json_at env p)) eqn:Hp.
    + rewrite decide_True by reflexivity. rewrite IH. cbn [map attempt_all fst snd].
      f_equal. f_equal. lia.
    + rewrite decide_False by discriminate. apply IH.
Qed.

Lemma attempt_xlsx_all env ps total w :
  for_acc (attempt_xlsx env) ps total w
  = (fst (attempt_all (map (xlsx_source env)
                           (filter (fun p => exists_file (xlsx_at env p) = true) ps)) w),
     Return (total + snd (attempt_all (map (xlsx_source env)
                           (filter (fun p => exists_file (xlsx_at env p) = true) ps)) w))).
Proof.
  revert total w. induction ps as [| p ps IH]; intros total w.
  - simpl. now rewrite Nat.add_0_r.
  - simpl for_acc. rewrite filter_cons. unfold bind. rewrite attempt_xlsx_one.
    destruct (exists_file (xlsx_at env p)) eqn:Hp.
    + rewrite decide_True by reflexivity. rewrite IH. cbn [map attempt_all fst snd].
      f_equal. f_equal. lia.
    + rewrite decide_False by discriminate. apply IH.
Qed.

Lemma attempt_all_app ms1 ms2 w :
  attempt_all (ms1 ++ ms2) w
  = (fst (attempt_all ms2 (fst (attempt_all ms1 w))),
     snd (attempt_all ms1 w) + snd (attempt_all ms2 (fst (attempt_all ms1 w)))).
Proof.
  revert w. induction ms1 as [| m ms1 IH]; intros w.
  - simpl. now destruct (attempt_all ms2 w).
  - cbn [app attempt_all fst snd]. rewrite IH. cbn [fst snd]. f_equal. lia.
Qed.

(** [admin_load_mitre] attempts every candidate file that exists and sets
    the flag when the counts add up to more than 0. *)
Lemma admin_load_mitre_attempts env w :
  admin_load_mitre env w
  = (let w' := fst (attempt_all (attempts env) w) in
     if (0 <? snd (attempt_all (attempts env) w))%nat
     then run (set_setting "mitre_loaded" "1") w' else w',
     Return (snd (attempt_all (attempts env) w))).
Proof.
  unfold admin_load_mitre, attempts. rewrite attempt_all_app.
  unfold bind at 1. rewrite attempt_json_all.
  unfold bind at 1. rewrite attempt_xlsx_all. simpl fst. simpl snd.
  unfold bind, run. destruct (0 <? _)%nat; reflexivity.
Qed.

(** The total of an import depends on the files only, not on the
    database. *)
Lemma import_total env :
  exists total,
    (forall w, snd (attempt_all (attempts env) w) = total) /\
    (forall w, result (admin_load_mitre env) w = Return total) /\
    (forall w, result (serve env LoadMitre) w = Return (Some total)).
Proof.
  destruct (admin_load_mitre_batch env) as (b & cut & n & _ & H).
  exists n. split; [| split].
  - intros w. destruct (H w) as (j & k & _ & E).
    rewrite admin_load_mitre_attempts in E. congruence.
  - intros w. destruct (H w) as (j & k & _ & E). unfold result. now rewrite E.
  - intros w.
    destruct (seed_from_file (committed w) (clock w) (ticks w)) as (d0 & t0 & Es & _).
    destruct (H (mk_world d0 d0 (clock w) t0)) as (j & k & _ & E).
    unfold result, serve, bind, connect, init_db, close_db, connect, commit. simpl.
    rewrite Es. simpl. rewrite E. destruct (0 <? n)%nat; reflexivity.
Qed.

End Whole.

(** ** C8: the [mitre_loaded] flag *)

Lemma mitre_loaded_insert (s : gmap string string) :
  String.eqb (match <["mitre_loaded" := "1"]> s !! "mitre_loaded" with
              | Some v => v
              | None => "0"
              end) "1" = true.
Proof. now rewrite lookup_insert_eq. Qed.

(** What one request does to the settings: both copies end up equal, with
    the flag added exactly when the request was an import with a positive
    total. *)
Lemma serve_settings env rt s :
  hoare (fun w => settings (committed w) = s) (serve env rt)
        (fun res w' =>
           match res with
           | Some total =>
               rt = LoadMitre /\
               settings_are (if (0 <? total)%nat then <["mitre_loaded" := "1"]> s else s) w'
           | None => rt = OtherRoute /\ settings_are s w'
           end)
        (fun _ => False).
Proof.
  unfold serve.
  assert (Hclose : forall s', hoare (settings_are s') connect
                                    (fun _ => settings_are s') (fun _ => False)).
  { intros s' w [_ Hc]. now split. }
  eapply hoare_bind with (Mid := fun _ => settings_are s).
  { intros w Hc. now split. }
  intros ?. eapply hoare_bind with (Mid := fun _ => settings_are s).
  { intros w [Hp _]. now split. }
  intros ?. eapply hoare_bind; [apply keeps_seed, settings_are_prim |].
  intros ?. cbv beta.
  eapply hoare_bind with
    (Mid := fun res w' =>
              match res with
              | Some total =>
                  rt = LoadMitre /\
                  settings_are (if (0 <? total)%nat then <["mitre_loaded" := "1"]> s else s) w'
              | None => rt = OtherRoute /\ settings_are s w'
              end).
  { destruct rt.
    - eapply hoare_bind; [apply admin_load_mitre_settings |].
      intros total. apply hoare_ret. intros w Hw. now split.
    - apply hoare_ret. intros w Hw. now split. }
  intros res. eapply hoare_bind with
    (Mid := fun _ w' =>
              match res with
              | Some total =>
                  rt = LoadMitre /\
                  settings_are (if (0 <? total)%nat then <["mitre_loaded" := "1"]> s else s) w'
              | None => rt = OtherRoute /\ settings_are s w'
              end).
  { destruct res as [total |]; intros w [Hrt [_ Hc]]; simpl; repeat split; assumption. }
  intros ?. apply hoare_ret. auto.
Qed.

Lemma serve_keeps_flag env rt w :
  mitre_loaded (committed w) = true ->
  mitre_loaded (committed (run (serve env rt) w)) = true.
Proof.
  intros Hflag. pose proof (serve_settings env rt (settings (committed w)) w eq_refl) as H.
  unfold run. destruct (serve env rt w) as [w' [[total |] |]]; simpl;
    [| | contradiction].
  - destruct H as [_ [_ Hc]]. unfold mitre_loaded, setting in *. rewrite Hc.
    destruct (0 <? total)%nat; [apply mitre_loaded_insert | assumption].
  - destruct H as [_ [_ Hc]]. unfold mitre_loaded, setting in *. now rewrite Hc.
Qed.

Lemma other_route_keeps_flag env w :
  mitre_loaded (committed (run (serve env OtherRoute) w)) = mitre_loaded (committed w).
Proof.
  pose proof (serve_settings env OtherRoute (settings (committed w)) w eq_refl) as H.
  unfold run. destruct (serve env OtherRoute w) as [w' [[total |] |]]; simpl.
  - destruct H as [H _]. discriminate.
  - destruct H as [_ [_ Hc]]. unfold mitre_loaded, setting. now rewrite Hc.
  - contradiction.
Qed.

(** C8, as stated, fails: the total counts the candidates that the sources
    which returned have executed, not the changes. An import of the flat
    list whose pair is a seed row changes no row and sets the flag; an
    import whose bundle raises after two inserts, followed by a workbook
    without sheets that commits, leaves two new rows in the database file,
    a total of 0 and the flag unset. *)
Lemma flag_follows_candidate_count :
  let w := fresh_world sample_clock in
  let seeded := run (serve bare_env OtherRoute) w in
  let w1 := run (serve layer_env LoadMitre) w in
  let w2 := run (serve (mixed_env []) LoadMitre) w in
  mitre_loaded (committed seeded) = false /\
  (result (serve layer_env LoadMitre) w = Return (Some 1) /\
   ttps (committed w1) = ttps (committed seeded) /\
   mitre_loaded (committed w1) = true) /\
  (result (serve (mixed_env []) LoadMitre) w = Return (Some 0) /\
   keys (ttps (committed w2))
   = keys (ttps (committed seeded)) ++ [("T1078", "persistence"); ("T1078", "initial-access")] /\
   mitre_loaded (committed w2) = false).
Proof. vm_compute. repeat split. Qed.

(** C8, amended. The count an importer returns is the number of
    candidates it has executed, one statement group each, whether or not a
    row changed. The total of an import request is the sum of the counts
    returned by the importers of the candidate files that exist, an
    importer that raises counting 0; it depends on the files only. After
    the request the persisted flag reads true exactly when it read true
    before or that total is positive. A request that is not an import
    leaves the flag as it is, and a flag that reads true reads true after
    any further sequence of requests, whatever the files then are. *)
Theorem flag_set_iff_total_positive (env : environment) :
  (forall w n,
      (forall js,
          result (_try_import_from_stix_or_layer js) w = Return n ->
          exists j, length j = n /\
                    catalog (run (_try_import_from_stix_or_layer js) w)
                    = apply_journal j (catalog w)) /\
      (forall p,
          result (_try_enrich_from_xlsx env p) w = Return n ->
          exists j, length j = n /\
                    catalog (run (_try_enrich_from_xlsx env p) w)
                    = apply_journal j (catalog w))) /\
  exists total,
    (forall w, snd (attempt_all (attempts env) w) = total) /\
    (forall w,
        result (serve env LoadMitre) w = Return (Some total) /\
        mitre_loaded (committed (run (serve env LoadMitre) w))
        = mitre_loaded (committed w) || (0 <? total)%nat) /\
    (forall w,
        mitre_loaded (committed (run (serve env OtherRoute) w)) = mitre_loaded (committed w)) /\
    (forall env' rts w,
        mitre_loaded (committed w) = true ->
        mitre_loaded (committed (serve_all env' rts w)) = true).
Proof.
  split.
  { intros w n. split.
    - intros js. apply (pass_count _ _ _ _ (pass_import js)).
    - intros p. apply (pass_count _ _ _ _ (pass_enrich env p)). }
  destruct (import_total env) as (total & Hsum & _ & Hres).
  exists total. split; [exact Hsum |]. split; [| split].
  - intros w. split; [apply Hres |].
    pose proof (serve_settings env LoadMitre (settings (committed w)) w eq_refl) as H.
    pose proof (Hres w) as Hr. unfold run, result in *.
    destruct (serve env LoadMitre w) as [w' [[total' |] |]]; simpl in *; try discriminate.
    assert (total' = total) as -> by congruence.
    destruct H as [_ [_ Hc]].
    unfold mitre_loaded, setting. rewrite Hc. destruct (0 <? total)%nat.
    + rewrite mitre_loaded_insert. now rewrite orb_true_r.
    + now rewrite orb_false_r.
  - intros w. apply other_route_keeps_flag.
  - intros env' rts. induction rts as [| rt rts IH]; intros w Hflag; [assumption |].
    simpl. apply IH. now apply serve_keeps_flag.
Qed.

Lemma flag_set_iff_total_positive_witness :
  let w1 := run (serve sample_env LoadMitre) (fresh_world sample_clock) in
  exists total,
    snd (attempt_all (attempts sample_env) (fresh_world sample_clock)) = total /\
    result (serve sample_env LoadMitre) (fresh_world sample_clock) = Return (Some total) /\
    mitre_loaded (committed w1) = true /\
    mitre_loaded (committed (serve_all bare_env [LoadMitre; OtherRoute; LoadMitre] w1)) = true.
Proof.
  intros w1.
  destruct (flag_set_iff_total_positive sample_env)
    as (_ & total & Hsum & Hflag & _ & Hkeep).
  exists total.
  assert (H1 : mitre_loaded (committed w1) = true) by (vm_compute; reflexivity).
  split; [apply Hsum |]. split; [apply Hflag |]. split; [exact H1 |].
  apply Hkeep. exact H1.
Defined.

(** ** C9: missing and failing sources *)

Lemma for_acc_app {A S} (body : S -> A -> py S) (l1 l2 : list A) (s : S) (w : world) :
  for_acc body (l1 ++ l2) s w = bind (for_acc body l1 s) (for_acc body l2) w.
Proof.
  revert s w. induction l1 as [| a l1 IH]; intros s w; [reflexivity |].
  simpl. unfold bind. destruct (body s a w) as [w' [s' |]]; [| reflexivity].
  rewrite IH. reflexivity.
Qed.

Lemma candidates_continue {S} (body : S -> string -> py S) (ps1 ps2 : list string)
    (total : S) (w : world) :
  keeps_safely (fun _ => True) (for_acc body ps1 total) ->
  exists t1,
    result (for_acc body ps1 total) w = Return t1 /\
    for_acc body (ps1 ++ ps2) total w =
    for_acc body ps2 t1 (run (for_acc body ps1 total) w).
Proof.
  intros Hsafe. destruct (keeps_safely_returns _ _ w Hsafe I) as (t1 & Ht1).
  exists t1. split; [assumption |].
  rewrite for_acc_app. unfold bind, run, result in *.
  destruct (for_acc body ps1 total w) as [w' o]. simpl in *. now subst o.
Qed.

Lemma has_key_prim k w w' :
  prim w w' -> k ∈ keys (catalog w) -> k ∈ keys (catalog w').
Proof.
  intros Hp Hk. destruct Hp; unfold catalog in *; simpl; try assumption.
  - now apply keys_insert_mono.
  - now rewrite keys_update_enrich.
Qed.

(** C9. A candidate path without a file leaves the world and the total as
    they are. A file that cannot be read, or whose import raises, leaves
    the total as it is, and what the import wrote before raising stays.
    The import pass always returns, and it attempts every candidate file
    that exists: its catalog is the one left by running the importers of
    these files one after the other, each from the world the one before
    it left, whether that one returned or raised, and its total is the
    sum of the counts of those that returned. The same holds of the
    candidates after any prefix of the list. The keys in the catalog only
    grow: a key the connection sees is still seen after any attempt, and
    a key that is committed is still committed after the whole pass. *)
Theorem failures_are_isolated (env : environment) :
  (forall total p w,
      json_at env p = Missing -> attempt_json env total p w = (w, Return total)) /\
  (forall total p w,
      xlsx_at env p = Missing -> attempt_xlsx env total p w = (w, Return total)) /\
  (forall total p w,
      json_at env p = Unreadable -> attempt_json env total p w = (w, Return total)) /\
  (forall total p w,
      xlsx_at env p = Unreadable -> attempt_xlsx env total p w = (w, Return total)) /\
  (forall total p w js,
      json_at env p = Content js ->
      result (_try_import_from_stix_or_layer js) w = Raise ->
      attempt_json env total p w = (run (_try_import_from_stix_or_layer js) w, Return total)) /\
  (forall total p w,
      result (_try_enrich_from_xlsx env p) w = Raise ->
      attempt_xlsx env total p w = (run (_try_enrich_from_xlsx env p) w, Return total)) /\
  (forall w,
      result (admin_load_mitre env) w = Return (snd (attempt_all (attempts env) w)) /\
      catalog (run (admin_load_mitre env) w) = catalog (fst (attempt_all (attempts env) w))) /\
  (forall ps1 ps2 total w,
      exists t1,
        result (for_acc (attempt_json env) ps1 total) w = Return t1 /\
        for_acc (attempt_json env) (ps1 ++ ps2) total w =
        for_acc (attempt_json env) ps2 t1 (run (for_acc (attempt_json env) ps1 total) w)) /\
  (forall ps1 ps2 total w,
      exists t1,
        result (for_acc (attempt_xlsx env) ps1 total) w = Return t1 /\
        for_acc (attempt_xlsx env) (ps1 ++ ps2) total w =
        for_acc (attempt_xlsx env) ps2 t1 (run (for_acc (attempt_xlsx env) ps1 total) w)) /\
  (forall k total p w,
      k ∈ keys (catalog w) ->
      k ∈ keys (catalog (run (attempt_json env total p) w)) /\
      k ∈ keys (catalog (run (attempt_xlsx env total p) w))) /\
  (forall k w,
      k ∈ keys (catalog w) -> k ∈ keys (ttps (committed w)) ->
      k ∈ keys (catalog (run (admin_load_mitre env) w)) /\
      k ∈ keys (ttps (committed (run (admin_load_mitre env) w)))).
Proof.
  repeat apply conj.
  - intros total p w H. unfold attempt_json. now rewrite H.
  - intros total p w H. unfold attempt_xlsx. now rewrite H.
  - intros total p w H. unfold attempt_json, try_or, bind, _load_json. now rewrite H.
  - intros total p w H.
    unfold attempt_xlsx, try_or, bind, _try_enrich_from_xlsx. rewrite H. simpl.
    destruct (negb (openpyxl_installed env)); unfold ret, raise;
      rewrite ?Nat.add_0_r; reflexivity.
  - intros total p w js H Hraise.
    unfold attempt_json, try_or, bind, _load_json, run, result in *. rewrite H. simpl.
    destruct (_try_import_from_stix_or_layer js w) as [w' o]. simpl in *. now subst o.
  - intros total p w Hraise.
    assert (Hex : exists_file (xlsx_at env p) = true).
    { unfold result, _try_enrich_from_xlsx in Hraise.
      destruct (negb (openpyxl_installed env)); [discriminate |].
      destruct (xlsx_at env p); [discriminate | reflexivity | reflexivity]. }
    unfold attempt_xlsx, try_or, bind, run, result in *. rewrite Hex.
    destruct (_try_enrich_from_xlsx env p w) as [w' o]. simpl in *. now subst o.
  - intros w. split.
    + unfold result. now rewrite admin_load_mitre_attempts.
    + unfold run. rewrite admin_load_mitre_attempts. cbv zeta. cbn [fst].
      destruct (0 <? _)%nat; reflexivity.
  - intros ps1 ps2 total w. apply candidates_continue.
    now apply keeps_json_candidates.
  - intros ps1 ps2 total w. apply candidates_continue.
    now apply keeps_xlsx_candidates.
  - intros k total p w Hk. split.
    + apply (keeps_run (fun w => k ∈ keys (catalog w))); [| assumption].
      apply keeps_safely_keeps, keeps_attempt_json. apply has_key_prim.
    + apply (keeps_run (fun w => k ∈ keys (catalog w))); [| assumption].
      apply keeps_safely_keeps, keeps_attempt_xlsx. apply has_key_prim.
  - intros k w Hp Hc.
    apply (keeps_run (holds (fun p c => k ∈ keys p /\ k ∈ keys c)));
      [| now split].
    apply keeps_safely_keeps, admin_load_mitre_stable, stable_has_key.
Qed.

Lemma failures_are_isolated_witness :
  attempt_json bare_env 0 "/mnt/data/enterprise-attack.json" (fresh_world sample_clock)
  = (fresh_world sample_clock, Return 0) /\
  attempt_xlsx sample_env 1 "/mnt/data/enterprise-attack-v17.1.xlsx" (fresh_world sample_clock)
  = (fresh_world sample_clock, Return 1) /\
  (attempt_json broken_env 7 "/srv/rtops/enterprise-attack.json" (fresh_world sample_clock)
   = (run (_try_import_from_stix_or_layer sample_broken_bundle) (fresh_world sample_clock),
      Return 7) /\
   keys (catalog (run (_try_import_from_stix_or_layer sample_broken_bundle)
                      (fresh_world sample_clock)))
   = [("T1078", "persistence"); ("T1078", "initial-access")]) /\
  ("T1059", "execution") ∈
    keys (ttps (committed (run (admin_load_mitre broken_env)
                               (run seed_minimal_ttps (fresh_world sample_clock))))) /\
  (result (admin_load_mitre (mixed_env [sample_undescribed_sheet])) (fresh_world sample_clock)
   = Return 1 /\
   keys (catalog (run (admin_load_mitre (mixed_env [sample_undescribed_sheet]))
                      (fresh_world sample_clock)))
   = [("T1078", "persistence"); ("T1078", "initial-access"); ("T1059", "execution")]).
Proof.
  destruct (failures_are_isolated bare_env) as (Hmiss & _).
  destruct (failures_are_isolated sample_env) as (_ & _ & _ & Hbad & _).
  destruct (failures_are_isolated broken_env)
    as (_ & _ & _ & _ & Hraise & _ & _ & _ & _ & _ & Hkeys).
  destruct (failures_are_isolated (mixed_env [sample_undescribed_sheet]))
    as (_ & _ & _ & _ & _ & _ & Hall & _).
  split; [| split; [| split; [split |]]].
  - apply Hmiss. reflexivity.
  - apply Hbad. reflexivity.
  - apply Hraise; reflexivity.
  - reflexivity.
  - split; [apply Hkeys; vm_compute; left |].
    destruct (Hall (fresh_world sample_clock)) as [Hr Hc].
    split; [rewrite Hr | rewrite Hc]; reflexivity.
Defined.

(** ** C10: seeding *)

Lemma seed_keeps_settings w :
  settings (pending (run seed_minimal_ttps w)) = settings (pending w).
Proof.
  unfold run. destruct (catalog w) as [| r rows] eqn:Hcat.
  - now rewrite (seed_on_empty w Hcat).
  - rewrite (seed_on_nonempty w); [reflexivity |]. now rewrite Hcat.
Qed.

Lemma serve_nonempty env rt :
  hoare (fun _ => True) (serve env rt)
        (fun _ w' => ttps (pending w') <> [] /\ ttps (committed w') <> [])
        (fun _ => False).
Proof.
  unfold serve.
  pose proof stable_nonempty as HI.
  assert (Hprim : forall w w', prim w w' ->
                    holds (fun p c => p <> [] /\ c <> []) w ->
                    holds (fun p c => p <> [] /\ c <> []) w').
  { intros w w'. now apply stable_prim. }
  eapply hoare_bind with (Mid := fun _ w => pending w = committed w).
  { intros w _. reflexivity. }
  intros ?. eapply hoare_bind with (Mid := fun _ w => pending w = committed w).
  { intros w _. reflexivity. }
  intros ?. eapply hoare_bind with (Mid := fun _ => holds (fun p c => p <> [] /\ c <> [])).
  { intros w Heq. destruct (catalog w) as [| r rows] eqn:Hcat.
    - rewrite (seed_on_empty w Hcat). unfold holds. simpl. split; discriminate.
    - rewrite (seed_on_nonempty w); [| now rewrite Hcat].
      unfold holds. rewrite <- Heq. fold (catalog w). rewrite Hcat. split; discriminate. }
  intros ?. eapply hoare_bind with (Mid := fun _ => holds (fun p c => p <> [] /\ c <> [])).
  { destruct rt.
    - eapply hoare_bind; [now apply admin_load_mitre_stable |].
      intros total. now apply hoare_ret.
    - now apply hoare_ret. }
  intros res. eapply hoare_bind with (Mid := fun _ => holds (fun p c => p <> [] /\ c <> [])).
  { intros w [_ Hc]. unfold holds. simpl. now split. }
  intros ?. now apply hoare_ret.
Qed.

(** C10. On an empty catalog the seeding hook inserts exactly the three
    default rows (T1059/execution, T1021/lateral-movement,
    T1003/credential-access) and commits; on any other catalog it does
    nothing; it never touches the settings, so the flag reads as before.
    Every request runs it first: after any request the committed catalog
    is not empty, and after a request that is not an import the flag still
    reads what it read, false on a new database. *)
Theorem seeding_keeps_catalog_nonempty (env : environment) (w : world) :
  (catalog w = [] ->
   catalog (run seed_minimal_ttps w) = seed_rows (clock w (ticks w)) /\
   keys (catalog (run seed_minimal_ttps w))
   = [("T1059", "execution"); ("T1021", "lateral-movement"); ("T1003", "credential-access")] /\
   committed (run seed_minimal_ttps w) = pending (run seed_minimal_ttps w)) /\
  (catalog w <> [] -> run seed_minimal_ttps w = w) /\
  mitre_loaded (pending (run seed_minimal_ttps w)) = mitre_loaded (pending w) /\
  (forall rt, ttps (committed (run (serve env rt) w)) <> []) /\
  mitre_loaded (committed (run (serve env OtherRoute) w)) = mitre_loaded (committed w) /\
  (forall clk,
      let w' := run (serve env OtherRoute) (fresh_world clk) in
      ttps (committed w') = seed_rows (clk 0) /\ mitre_loaded (committed w') = false).
Proof.
  repeat apply conj.
  - intros Hcat. unfold run. rewrite (seed_on_empty w Hcat). repeat split.
  - intros Hcat. unfold run. now rewrite (seed_on_nonempty w Hcat).
  - unfold mitre_loaded, setting. now rewrite seed_keeps_settings.
  - intros rt. pose proof (serve_nonempty env rt w I) as H. unfold run.
    destruct (serve env rt w) as [w' [res |]]; [apply H | contradiction].
  - apply other_route_keeps_flag.
  - intros clk. split; reflexivity.
Qed.

Lemma seeding_keeps_catalog_nonempty_witness :
  (catalog (run seed_minimal_ttps (fresh_world sample_clock))
   = seed_rows "2024-05-01T12:00:00" /\
   keys (catalog (run seed_minimal_ttps (fresh_world sample_clock)))
   = [("T1059", "execution"); ("T1021", "lateral-movement"); ("T1003", "credential-access")] /\
   committed (run seed_minimal_ttps (fresh_world sample_clock))
   = pending (run seed_minimal_ttps (fresh_world sample_clock))) /\
  run seed_minimal_ttps (run seed_minimal_ttps (fresh_world sample_clock))
  = run seed_minimal_ttps (fresh_world sample_clock).
Proof.
  split.
  - apply (seeding_keeps_catalog_nonempty bare_env (fresh_world sample_clock)).
    reflexivity.
  - apply (seeding_keeps_catalog_nonempty bare_env
             (run seed_minimal_ttps (fresh_world sample_clock))).
    discriminate.
Defined.

(** * Further properties of the code *)

(** ** The settings table *)

(** X1. [set_setting] followed by [get_setting] of the same key returns the
    value written, whatever the default; other keys read as before; the
    write is committed together with everything the connection had
    pending, and the catalog is not touched. A second write to the key
    replaces the first, and a key that was never written reads as the
    default. *)
Theorem setting_round_trip (key value default : string) (w : world) :
  result (set_setting key value) w = Return tt /\
  result (get_setting key default) (run (set_setting key value) w) = Return value /\
  (forall key' default',
      key' <> key ->
      result (get_setting key' default') (run (set_setting key value) w)
      = result (get_setting key' default') w) /\
  committed (run (set_setting key value) w) = pending (run (set_setting key value) w) /\
  catalog (run (set_setting key value) w) = catalog w /\
  (forall value',
      pending (run (set_setting key value') (run (set_setting key value) w))
      = pending (run (set_setting key value') w)) /\
  (settings (pending w) !! key = None ->
   result (get_setting key default) w = Return default).
Proof.
  unfold run, result, set_setting, get_setting, bind, commit, setting, set_pending, catalog.
  simpl. repeat apply conj; try reflexivity.
  - now rewrite lookup_insert_eq.
  - intros key' default' Hne. now rewrite lookup_insert_ne.
  - intros value'. now rewrite insert_insert_eq.
  - intros Hnone. now rewrite Hnone.
Qed.

Lemma setting_round_trip_witness :
  result (get_setting "theme" "light")
         (run (set_setting "mitre_loaded" "1") (fresh_world sample_clock))
  = Return "light" /\
  result (get_setting "mitre_loaded" "0") (fresh_world sample_clock) = Return "0".
Proof.
  destruct (setting_round_trip "mitre_loaded" "1" "0" (fresh_world sample_clock))
    as (_ & _ & Hother & _ & _ & _ & Hnone).
  split.
  - rewrite (Hother "theme" "light"); [reflexivity | discriminate].
  - apply Hnone. reflexivity.
Defined.

(** ** Stored rows are permanent *)

Lemma lookup_map_Some {A B} (f : A -> B) (l : list A) i x :
  l !! i = Some x -> map f l !! i = Some (f x).
Proof.
  revert i. induction l as [| a l IH]; intros [| i] H; try discriminate.
  - injection H as ->. reflexivity.
  - simpl. now apply IH.
Qed.

Lemma kept_refl r0 i rows : rows !! i = Some r0 -> kept r0 i rows.
Proof. intros H. exists r0. repeat split; auto. Qed.

Lemma kept_enrich_row r0 r nm ds tid tac :
  technique_id r = technique_id r0 -> tactic r = tactic r0 ->
  refs r = refs r0 -> created_at r = created_at r0 ->
  (genuine_name r0 -> name r = name r0) ->
  (filled_description r0 -> description r = description r0) ->
  let r' := enrich_row nm ds tid tac r in
  technique_id r' = technique_id r0 /\ tactic r' = tactic r0 /\
  refs r' = refs r0 /\ created_at r' = created_at r0 /\
  (genuine_name r0 -> name r' = name r0) /\
  (filled_description r0 -> description r' = description r0).
Proof.
  intros Hid Htac Hrefs Hat Hname Hdesc. unfold enrich_row.
  destruct (same_key tid tac r); simpl; [| repeat split; assumption].
  repeat split; try assumption.
  - intros Hg. pose proof (Hname Hg) as Hn. destruct Hg as (n & Hn0 & Hne & Hnid).
    unfold case_name. rewrite Hn, Hn0, Hid.
    apply String.eqb_neq in Hne, Hnid. now rewrite Hne, Hnid.
  - intros Hf. pose proof (Hdesc Hf) as Hd. destruct Hf as (d & Hd0 & Hne).
    unfold case_description. rewrite Hd, Hd0.
    apply String.eqb_neq in Hne. now rewrite Hne.
Qed.

Lemma stable_kept r0 i : stable (fun p c => kept r0 i p /\ kept r0 i c).
Proof.
  split.
  - intros p c r [(x & Hx & Hrest) Hc]. split; [| assumption].
    exists x. split; [| assumption]. rewrite insert_or_ignore_unfold.
    destruct (has_key _ _ p); [assumption | now apply lookup_app_l_Some].
  - intros p c nm ds tid tac [(x & Hx & Hid & Htac & Hrefs & Hat & Hname & Hdesc) Hc].
    split; [| assumption].
    exists (enrich_row nm ds tid tac x).
    split; [now apply lookup_map_Some |].
    now apply kept_enrich_row.
  - intros p c [Hp _]. now split.
  - intros p c [_ Hc]. now split.
Qed.

Lemma serve_connects_first env rt w :
  serve env rt w = serve env rt (mk_world (committed w) (committed w) (clock w) (ticks w)).
Proof. reflexivity. Qed.

Lemma serve_all_from_committed env rts I w :
  stable I ->
  I (ttps (committed w)) (ttps (committed w)) ->
  I (ttps (committed (serve_all env rts w))) (ttps (committed (serve_all env rts w))).
Proof.
  intros HI Hw. destruct rts as [| rt rts]; [assumption |].
  simpl. eapply stable_drop; [exact HI |].
  apply (serve_all_stable env rts I _ HI).
  unfold run. rewrite serve_connects_first.
  apply (keeps_run (holds I) (serve env rt)
           (mk_world (committed w) (committed w) (clock w) (ticks w))).
  - apply keeps_safely_keeps. now apply serve_stable.
  - exact Hw.
Qed.

(** X2. No sequence of requests removes, moves or re-keys a committed row:
    the row at position [i] of the committed catalog stays at position
    [i] with its technique id, tactic, references and creation time; a
    name that is not empty and differs from the technique id, and a
    description that is not empty, stay as well. *)
Theorem committed_rows_are_permanent (env : environment) (rts : list route)
    (w : world) (i : nat) (r0 : ttp_row) :
  ttps (committed w) !! i = Some r0 ->
  kept r0 i (ttps (committed (serve_all env rts w))).
Proof.
  intros H.
  apply (serve_all_from_committed env rts (fun p c => kept r0 i p /\ kept r0 i c) w).
  - apply stable_kept.
  - split; now apply kept_refl.
Qed.

Lemma committed_rows_are_permanent_witness :
  kept (mk_row "T1059" "execution" (Some "Command and Scripting Interpreter")
               (Some "Execute commands and scripts via shells/interpreters.")
               "https://attack.mitre.org/techniques/T1059/" "2024-05-01T12:00:00")
       0
       (ttps (committed (serve_all sample_env [LoadMitre; OtherRoute]
                                   (run (serve bare_env OtherRoute)
                                        (fresh_world sample_clock))))).
Proof.
  apply committed_rows_are_permanent. reflexivity.
Defined.

(** ** How much an importer can add *)

Lemma length_exec_bounds e rows :
  length rows <= length (exec e rows) <= S (length rows).
Proof.
  rewrite exec_enrich_by, length_map, insert_or_ignore_unfold.
  destruct (has_key _ _ rows); [lia |]. rewrite length_app. simpl. lia.
Qed.

Lemma length_apply_journal_bounds j rows :
  length rows <= length (apply_journal j rows) <= length rows + length j.
Proof.
  revert rows. induction j as [| e j IH]; intros rows; simpl; [lia |].
  change (fold_left (fun rows e => exec e rows) j (exec e rows))
    with (apply_journal j (exec e rows)).
  pose proof (IH (exec e rows)). pose proof (length_exec_bounds e rows). lia.
Qed.

Lemma pass_growth P (m : py nat) w n :
  pass P m -> result m w = Return n ->
  length (catalog w) <= length (catalog (run m w)) <= length (catalog w) + n.
Proof.
  intros (b & fin & _ & Hm) Hres. destruct (Hm w) as (j & k & Hj & E).
  unfold run, result in *. rewrite E in *.
  assert (Hlen : length j = length b) by (rewrite <- Hj; now rewrite length_map).
  pose proof (length_apply_journal_bounds j (catalog w)) as Hb.
  destruct fin as [[|] |]; simpl in *; try discriminate;
    injection Hres as <-; unfold catalog in *; simpl; unfold catalog; lia.
Qed.

(** X3. The count an importer returns bounds what it added: when the JSON
    importer or the spreadsheet importer returns [n], the catalog has not
    lost a row and has gained at most [n] rows. *)
Theorem importer_count_bounds_growth (w : world) (n : nat) :
  (forall js,
      result (_try_import_from_stix_or_layer js) w = Return n ->
      length (catalog w)
      <= length (catalog (run (_try_import_from_stix_or_layer js) w))
      <= length (catalog w) + n) /\
  (forall env xlsx_path,
      result (_try_enrich_from_xlsx env xlsx_path) w = Return n ->
      length (catalog w)
      <= length (catalog (run (_try_enrich_from_xlsx env xlsx_path) w))
      <= length (catalog w) + n).
Proof.
  split.
  - intros js. apply (pass_growth nonempty_id), pass_import.
  - intros env xlsx_path. eapply pass_growth, pass_enrich.
Qed.

Lemma importer_count_bounds_growth_witness :
  1 <= length (catalog (run (_try_import_from_stix_or_layer sample_layer)
                            (run (_try_import_from_stix_or_layer sample_layer)
                                 (fresh_world sample_clock)))) <= 1 + 1.
Proof.
  apply (importer_count_bounds_growth
           (run (_try_import_from_stix_or_layer sample_layer) (fresh_world sample_clock)) 1).
  reflexivity.
Defined.

(** ** What the JSON importer writes *)

Section Inserting.

Implicit Types (w : world) (Q : string -> ttp_row -> Prop).











End Inserting.






(** ** One spreadsheet candidate *)

Lemma update_enrich_absent nm ds tid tac rows :
  (tid, tac) ∉ keys rows -> update_enrich nm ds tid tac rows = rows.
Proof.
  intros H. unfold update_enrich. erewrite map_ext_in; [apply map_id |].
  intros r Hr. unfold enrich_row.
  destruct (same_key tid tac r) eqn:Hk; [| reflexivity].
  exfalso. apply H. apply same_key_true in Hk. rewrite <- Hk.
  unfold keys. apply list_elem_of_fmap_2. now apply list_elem_of_In.
Qed.

Lemma case_name_same tid nm : case_name tid (Some nm) nm = Some nm.
Proof. unfold case_name. now destruct (String.eqb nm "" || String.eqb nm tid). Qed.

Lemma case_description_same ds : case_description (Some ds) ds = Some ds.
Proof. unfold case_description. now destruct (String.eqb ds ""). Qed.

Lemma enrich_row_own nm ds tid tac rf ts :
  enrich_row nm ds tid tac (mk_row tid tac (Some nm) (Some ds) rf ts)
  = mk_row tid tac (Some nm) (Some ds) rf ts.
Proof.
  unfold enrich_row, same_key.
  cbn [technique_id tactic name description refs created_at].
  now rewrite !String.eqb_refl, case_name_same, case_description_same.
Qed.

Lemma enrich_tactic_run tid nm ds acc tac w :
  in_TACTIC_TITLES tac = true ->
  enrich_tactic tid nm ds acc tac w =
  (mk_world (set_ttps (update_enrich nm ds tid tac
                         (insert_or_ignore
                            (mk_row tid tac (Some nm) (Some ds) "" (clock w (ticks w)))
                            (catalog w)))
                      (pending w))
            (committed w) (clock w) (S (ticks w)),
   Return (S acc)).
Proof. intros H. unfold enrich_tactic. rewrite H. reflexivity. Qed.

(** X5. What one spreadsheet candidate does. A tactic token outside the
    registry changes nothing. For a token in the registry the counter
    advances by one and the clock is read once; if the pair (technique id,
    tactic) is not stored, one row with the candidate's name and
    description and the clock reading is appended and nothing else
    changes; if it is stored, no row is added or moved, rows of other
    pairs stay as they are, and a row of this pair keeps its references
    and creation time, keeps its name if that is genuine and takes the
    candidate's name otherwise, and likewise for the description. *)
Theorem spreadsheet_candidate_upserts (tid nm ds tac : string) (acc : nat) (w : world) :
  (in_TACTIC_TITLES tac = false ->
   enrich_tactic tid nm ds acc tac w = (w, Return acc)) /\
  (in_TACTIC_TITLES tac = true ->
   let w' := run (enrich_tactic tid nm ds acc tac) w in
   result (enrich_tactic tid nm ds acc tac) w = Return (S acc) /\
   ticks w' = S (ticks w) /\
   ((tid, tac) ∉ keys (catalog w) ->
    catalog w' = catalog w ++ [mk_row tid tac (Some nm) (Some ds) "" (clock w (ticks w))]) /\
   ((tid, tac) ∈ keys (catalog w) ->
    length (catalog w') = length (catalog w) /\
    forall i r,
      catalog w !! i = Some r ->
      exists r',
        catalog w' !! i = Some r' /\
        row_key r' = row_key r /\ refs r' = refs r /\ created_at r' = created_at r /\
        (row_key r <> (tid, tac) -> r' = r) /\
        (row_key r = (tid, tac) ->
         (genuine_name r -> name r' = name r) /\
         (~ genuine_name r -> name r' = Some nm) /\
         (filled_description r -> description r' = description r) /\
         (~ filled_description r -> description r' = Some ds)))).
Proof.
  split.
  - intros H. unfold enrich_tactic. now rewrite H.
  - intros Hreg. cbv zeta. unfold run, result. rewrite (enrich_tactic_run _ _ _ _ _ _ Hreg).
    simpl. split; [reflexivity |]. split; [reflexivity |]. split.
    + intros Habs. rewrite insert_or_ignore_unfold. simpl.
      apply has_key_false in Habs. rewrite Habs.
      unfold update_enrich. rewrite map_app.
      fold (update_enrich nm ds tid tac (catalog w)).
      rewrite update_enrich_absent by now apply has_key_false.
      cbn [map]. now rewrite enrich_row_own.
    + intros Hpres. rewrite insert_or_ignore_present by exact Hpres.
      split; [apply length_update_enrich |].
      intros i r Hr. exists (enrich_row nm ds tid tac r).
      split; [now apply lookup_map_Some |].
      split; [apply row_key_enrich_row |].
      unfold enrich_row. destruct (same_key tid tac r) eqn:Hk.
      * apply same_key_true in Hk. simpl.
        split; [reflexivity |]. split; [reflexivity |].
        split; [intros Hne; contradiction |]. intros _.
        unfold case_name, case_description, genuine_name, filled_description.
        repeat split.
        -- intros (n & Hn & Hn1 & Hn2). rewrite Hn.
           apply String.eqb_neq in Hn1, Hn2. now rewrite Hn1, Hn2.
        -- intros Hng. destruct (name r) as [n |]; [| reflexivity].
           destruct (String.eqb n "" || String.eqb n (technique_id r)) eqn:Hn; [reflexivity |].
           exfalso. apply Hng. exists n. apply orb_false_iff in Hn as [H1 H2].
           apply String.eqb_neq in H1, H2. auto.
        -- intros (d & Hd & Hd1). rewrite Hd.
           apply String.eqb_neq in Hd1. now rewrite Hd1.
        -- intros Hnf. destruct (description r) as [d |]; [| reflexivity].
           destruct (String.eqb d "") eqn:Hd; [reflexivity |].
           exfalso. apply Hnf. exists d. apply String.eqb_neq in Hd. auto.
      * split; [reflexivity |]. split; [reflexivity |].
        split; [reflexivity |]. intros Hkey. apply same_key_true in Hkey. congruence.
Qed.

Lemma spreadsheet_candidate_upserts_witness :
  enrich_tactic "T1059" "Shell" "" 0 "no-such-tactic" (fresh_world sample_clock)
  = (fresh_world sample_clock, Return 0) /\
  catalog (run (enrich_tactic "T1059" "Shell" "" 0 "execution") (fresh_world sample_clock))
  = [mk_row "T1059" "execution" (Some "Shell") (Some "") "" "2024-05-01T12:00:00"].
Proof.
  destruct (spreadsheet_candidate_upserts "T1059" "Shell" "" "no-such-tactic" 0
              (fresh_world sample_clock)) as (Hout & _).
  destruct (spreadsheet_candidate_upserts "T1059" "Shell" "" "execution" 0
              (fresh_world sample_clock)) as (_ & Hin).
  split.
  - apply Hout. reflexivity.
  - destruct (Hin eq_refl) as (_ & _ & Hnew & _). apply Hnew.
    intros H. now apply elem_of_nil in H.
Defined.

(** ** The header match of a sheet *)

Section Headers.

Implicit Types (ws : worksheet) (header d : list (string * nat)) (k : string) (c n : nat).

Lemma dict_set_keys k c d :
  map fst (dict_set k c d) = if decide (k ∈ map fst d) then map fst d else map fst d ++ [k].
Proof.
  induction d as [| [k' c'] d IH]; simpl.
  - destruct (decide (k ∈ [])) as [H | _]; [now apply elem_of_nil in H | reflexivity].
  - destruct (String.eqb k' k) eqn:Hk.
    + apply String.eqb_eq in Hk. subst k'. simpl.
      destruct (decide (k ∈ k :: map fst d)) as [_ | H]; [reflexivity |].
      exfalso. apply H. now left.
    + apply String.eqb_neq in Hk. simpl. rewrite IH.
      destruct (decide (k ∈ map fst d)) as [Hin | Hnin];
        destruct (decide (k ∈ k' :: map fst d)) as [Hin' | Hnin']; try reflexivity.
      * exfalso. apply Hnin'. now right.
      * exfalso. apply elem_of_cons in Hin' as [-> | Hin']; [now apply Hk | now apply Hnin].
Qed.

Lemma dict_set_NoDup k c d : NoDup (map fst d) -> NoDup (map fst (dict_set k c d)).
Proof.
  intros H. rewrite dict_set_keys. destruct (decide (k ∈ map fst d)) as [Hin | Hnin];
    [assumption |].
  apply NoDup_app. split; [assumption |]. split; [| apply NoDup_singleton].
  intros x Hx Hx'. apply list_elem_of_singleton in Hx'. now subst x.
Qed.

Lemma dict_set_elem k c d k' c' :
  NoDup (map fst d) ->
  ((k', c') ∈ dict_set k c d <-> (k', c') = (k, c) \/ ((k', c') ∈ d /\ k' <> k)).
Proof.
  induction d as [| [k0 c0] d IH]; intros Hnd; simpl.
  - rewrite list_elem_of_singleton. split; [now left |].
    intros [H | [H _]]; [assumption | now apply elem_of_nil in H].
  - apply NoDup_cons in Hnd as [Hk0 Hnd].
    destruct (String.eqb k0 k) eqn:Hk.
    + apply String.eqb_eq in Hk. subst k0. rewrite !elem_of_cons. split.
      * intros [H | H]; [now left |]. right. split; [now right |].
        intros ->. apply Hk0. apply (list_elem_of_fmap_2 fst) in H. exact H.
      * intros [H | [[H | H] Hne]]; [now left | | now right].
        injection H as -> _. contradiction.
    + apply String.eqb_neq in Hk. rewrite !elem_of_cons, (IH Hnd). split.
      * intros [H | [H | [H Hne]]].
        -- right. split; [now left |]. injection H as -> _. assumption.
        -- now left.
        -- right. split; [now right | assumption].
      * intros [H | [[H | H] Hne]].
        -- right. now left.
        -- now left.
        -- right. right. now split.
Qed.

Lemma header_upto_S ws n :
  header_upto ws (S n) =
  match cell_value ws 1 (S n) with
  | CNone => header_upto ws n
  | v => dict_set (Py.lower (Py.strip (cell_str v))) (S n) (header_upto ws n)
  end.
Proof. unfold header_upto. now rewrite seq_S, fold_left_app. Qed.

Lemma header_invariant_skip ws n header :
  header_invariant ws n header -> cell_value ws 1 (S n) = CNone ->
  header_invariant ws (S n) header.
Proof.
  intros (Hnd & Hsound & Hcomplete) Hcell. split; [assumption |]. split.
  - intros k c Hin. destruct (Hsound k c Hin) as (Hr & Hne & Ht & Hlast).
    repeat split; try assumption; try lia.
    intros c' Hc' Hne' Ht'. apply Hlast; try assumption.
    assert (c' <> S n) by (intros ->; contradiction). lia.
  - intros c Hc Hne. apply Hcomplete; [| assumption].
    assert (c <> S n) by (intros ->; contradiction). lia.
Qed.

Lemma header_invariant_step ws n header :
  header_invariant ws n header -> cell_value ws 1 (S n) <> CNone ->
  header_invariant ws (S n) (dict_set (header_text ws (S n)) (S n) header).
Proof.
  intros (Hnd & Hsound & Hcomplete) Hcell.
  split; [now apply dict_set_NoDup |]. split.
  - intros k c Hin. apply (dict_set_elem _ _ _ _ _ Hnd) in Hin as [Hnew | [Hold Hne]].
    + injection Hnew as -> ->. repeat split; try assumption; try lia.
    + destruct (Hsound k c Hold) as (Hr & Hnone & Ht & Hlast).
      repeat split; try assumption; try lia.
      intros c' Hc' Hne' Ht'. apply Hlast; try assumption.
      assert (c' <> S n) by (intros ->; congruence). lia.
  - intros c Hc Hne.
    destruct (decide (header_text ws c = header_text ws (S n))) as [Heq | Hneq].
    + exists (S n). apply (dict_set_elem _ _ _ _ _ Hnd). left. now rewrite Heq.
    + assert (c <> S n) by (intros ->; congruence).
      destruct (Hcomplete c) as (c0 & Hc0); [lia | assumption |].
      exists c0. apply (dict_set_elem _ _ _ _ _ Hnd). right. now split.
Qed.

Lemma header_invariant_upto ws n : header_invariant ws n (header_upto ws n).
Proof.
  induction n as [| n IH].
  - split; [constructor |]. split.
    + intros k c H. now apply elem_of_nil in H.
    + intros c Hc. lia.
  - rewrite header_upto_S.
    destruct (cell_value ws 1 (S n)) as [| s | t shown] eqn:Hcell.
    + now apply header_invariant_skip.
    + replace (Py.lower (Py.strip (cell_str (CText s)))) with (header_text ws (S n))
        by (unfold header_text; now rewrite Hcell).
      apply header_invariant_step; [assumption |]. rewrite Hcell. discriminate.
    + replace (Py.lower (Py.strip (cell_str (COther t shown))))
        with (header_text ws (S n)) by (unfold header_text; now rewrite Hcell).
      apply header_invariant_step; [assumption |]. rewrite Hcell. discriminate.
Qed.

Lemma build_header_upto ws : build_header ws = header_upto ws (max_column ws).
Proof. reflexivity. Qed.

Lemma find_col_Some header keys c :
  find_col header keys = Some c ->
  exists k, (k, c) ∈ header /\ existsb (fun key => Py.contains key k) keys = true.
Proof.
  induction header as [| [k c'] header IH]; simpl; [discriminate |].
  destruct (existsb _ keys) eqn:Hk.
  - intros [= ->]. exists k. split; [now left | assumption].
  - intros H. destruct (IH H) as (k' & Hin & Hk'). exists k'. split; [now right | assumption].
Qed.

Lemma find_col_None header keys :
  find_col header keys = None <->
  forall k c, (k, c) ∈ header -> existsb (fun key => Py.contains key k) keys = false.
Proof.
  induction header as [| [k c'] header IH]; simpl.
  - split; [| reflexivity]. intros _ k c H. now apply elem_of_nil in H.
  - destruct (existsb (fun key => Py.contains key k) keys) eqn:Hk.
    + split; [discriminate |]. intros H. specialize (H k c' ltac:(now left)). congruence.
    + rewrite IH. split.
      * intros H k0 c0 Hin. apply elem_of_cons in Hin as [[= -> ->] | Hin]; [assumption |].
        now apply (H k0 c0).
      * intros H k0 c0 Hin. apply (H k0 c0). now right.
Qed.

(** X6. The header match is sound and complete. A column returned by
    [find_col] lies within the sheet, has a header cell that is not empty,
    and the stripped, lower-cased text of that cell contains one of the
    keys; it is the last column carrying that text. [find_col] returns
    nothing exactly when no header cell of the first row contains any of
    the keys. *)
Theorem find_col_finds_matching_header (ws : worksheet) (keys : list string) :
  (forall c,
      find_col (build_header ws) keys = Some c ->
      1 <= c <= max_column ws /\
      cell_value ws 1 c <> CNone /\
      existsb (fun key => Py.contains key (header_text ws c)) keys = true /\
      forall c', 1 <= c' <= max_column ws -> cell_value ws 1 c' <> CNone ->
                 header_text ws c' = header_text ws c -> c' <= c) /\
  (find_col (build_header ws) keys = None <->
   forall c, 1 <= c <= max_column ws -> cell_value ws 1 c <> CNone ->
             existsb (fun key => Py.contains key (header_text ws c)) keys = false).
Proof.
  rewrite build_header_upto.
  destruct (header_invariant_upto ws (max_column ws)) as (Hnd & Hsound & Hcomplete).
  split.
  - intros c Hc. apply find_col_Some in Hc as (k & Hin & Hk).
    destruct (Hsound k c Hin) as (Hr & Hne & Ht & Hlast).
    repeat split; try assumption; try lia.
    + now rewrite Ht.
    + intros c' Hc' Hne' Ht'. apply Hlast; try assumption. now rewrite Ht', Ht.
  - rewrite find_col_None. split.
    + intros H c Hc Hne. destruct (Hcomplete c Hc Hne) as (c0 & Hc0).
      now apply (H _ c0).
    + intros H k c Hin. destruct (Hsound k c Hin) as (Hr & Hne & Ht & _).
      rewrite <- Ht. now apply H.
Qed.

Lemma find_col_finds_matching_header_witness :
  (1 <= 2 <= max_column [[CText "Tactics"; CText " ID "; CText "Name"; CText "id"]] /\
   existsb (fun key => Py.contains key
                         (header_text [[CText "Tactics"; CText " ID "; CText "Name"; CText "id"]] 4))
           id_keys = true) /\
  find_col (build_header [[CText "Tactics"; CText " ID "; CText "Name"; CText "id"]]) id_keys
  = Some 4.
Proof.
  assert (H : find_col (build_header [[CText "Tactics"; CText " ID "; CText "Name"; CText "id"]])
                       id_keys = Some 4) by reflexivity.
  split; [| exact H].
  destruct (find_col_finds_matching_header
              [[CText "Tactics"; CText " ID "; CText "Name"; CText "id"]] id_keys)
    as (Hsome & _).
  destruct (Hsome 4 H) as (_ & _ & Hmatch & Hlast).
  split; [| exact Hmatch].
  split; [lia |]. apply (Hlast 2); [simpl; lia | discriminate | reflexivity].
Defined.

End Headers.

(** ** Escaping attribute values *)

Section Escaping.

Implicit Types (s t u v new : string) (c x : ascii).

Lemma replace_char_cons x new a s :
  Py.replace (String x EmptyString) new (String a s) =
  if ascii_dec x a
  then String.append new (Py.replace (String x EmptyString) new s)
  else String a (Py.replace (String x EmptyString) new s).
Proof.
  unfold Py.replace. rewrite replace_from_cons_0.
  change (String.length (String x EmptyString) - 1) with 0.
  cbn [String.prefix]. destruct (ascii_dec x a); [now destruct s | reflexivity].
Qed.

Lemma has_char_replace_char c x new s :
  c <> x -> Py.has_char c new = false ->
  Py.has_char c (Py.replace (String x EmptyString) new s) = Py.has_char c s.
Proof.
  intros Hcx Hnew. induction s as [| a s IH]; [reflexivity |].
  rewrite replace_char_cons. destruct (ascii_dec x a) as [<- | Hxa].
  - rewrite has_char_append, Hnew, IH. cbn [Py.has_char orb].
    assert (Ascii.eqb x c = false) as ->; [| reflexivity].
    apply Ascii.eqb_neq. congruence.
  - cbn [Py.has_char]. now rewrite IH.
Qed.

Lemma has_char_replaced x new s :
  Py.has_char x new = false ->
  Py.has_char x (Py.replace (String x EmptyString) new s) = false.
Proof.
  intros Hnew. induction s as [| a s IH]; [reflexivity |].
  rewrite replace_char_cons. destruct (ascii_dec x a) as [<- | Hxa].
  - now rewrite has_char_append, Hnew, IH.
  - cbn [Py.has_char]. rewrite IH.
    assert (Ascii.eqb a x = false) as ->; [| reflexivity].
    apply Ascii.eqb_neq. congruence.
Qed.

Lemma replace_char_absent x new s :
  Py.has_char x s = false -> Py.replace (String x EmptyString) new s = s.
Proof.
  induction s as [| a s IH]; [reflexivity |]. cbn [Py.has_char].
  intros H. apply orb_false_iff in H as [Ha Hs].
  rewrite replace_char_cons. destruct (ascii_dec x a) as [<- | _].
  - now rewrite Ascii.eqb_refl in Ha.
  - now rewrite (IH Hs).
Qed.

(** X7. [esc_attr] leaves no quote in its result, neither single nor
    double, so the result cannot end an attribute value; it is the empty
    string on [None], the identity on strings without quotes, and works
    piece by piece on a concatenation. Angle brackets pass through. *)
Theorem esc_attr_removes_quotes :
  (forall o : option string,
      Py.has_char "'" (esc_attr o) = false /\
      Py.has_char double_quote (esc_attr o) = false) /\
  esc_attr None = EmptyString /\
  (forall t, Py.has_char "'" t = false -> Py.has_char double_quote t = false ->
             esc_attr (Some t) = t) /\
  (forall u v, esc_attr (Some (String.append u v))
               = String.append (esc_attr (Some u)) (esc_attr (Some v))) /\
  (forall t, Py.has_char "<" (esc_attr (Some t)) = Py.has_char "<" t /\
             Py.has_char ">" (esc_attr (Some t)) = Py.has_char ">" t).
Proof.
  repeat apply conj.
  - intros [t |]; [| split; reflexivity]. unfold esc_attr. split.
    + rewrite has_char_replace_char; [| discriminate | reflexivity].
      now apply has_char_replaced.
    + now apply has_char_replaced.
  - reflexivity.
  - intros t Hs Hd. unfold esc_attr.
    rewrite (replace_char_absent "'" _ t Hs). now apply replace_char_absent.
  - intros u v. unfold esc_attr. now rewrite !replace_char_app.
  - intros t. unfold esc_attr. split;
      (rewrite has_char_replace_char; [| discriminate | reflexivity]);
      (rewrite has_char_replace_char; [| discriminate | reflexivity]);
      reflexivity.
Qed.

Lemma esc_attr_removes_quotes_witness :
  esc_attr (Some "it's <b>") = "it&#39;s <b>" /\
  esc_attr (Some "T1059 shells") = "T1059 shells".
Proof.
  destruct esc_attr_removes_quotes as (_ & _ & Hid & _).
  split; [reflexivity |]. apply Hid; reflexivity.
Defined.

End Escaping.

(** ** The MITRE map *)

Section Mitre.

Implicit Types (r : ttp_row) (d : database) (q tac : string).

Lemma linear_refl {K} (c : K -> K -> comparison) (x : K) : linear c -> c x x = Eq.
Proof.
  intros L. pose proof (linear_opp c L x x) as H.
  destruct (c x x); simpl in H; congruence.
Qed.

Lemma string_compare_linear : linear String.compare.
Proof.
  assert (Hle : forall x y, (x ?= y)%string <> Gt <-> String.le x y).
  { intros x y. unfold String.le, String.leb.
    destruct (x ?= y)%string; simpl; split; intros H; try congruence; try done. }
  split.
  - apply String.compare_eq_iff.
  - intros x y. apply String.compare_antisym.
  - intros x y z Hxy Hyz.
    assert (Hxz : (x ?= z)%string <> Gt).
    { apply Hle. transitivity y; apply Hle; congruence. }
    destruct (x ?= z)%string eqn:E; [| reflexivity | congruence].
    apply String.compare_eq_iff in E. subst z.
    rewrite String.compare_antisym, Hxy in Hyz. discriminate.
Qed.

Lemma cmp_null_first_linear : linear cmp_null_first.
Proof.
  destruct string_compare_linear as [He Ho Hl]. split.
  - intros [x|] [y|] H; simpl in H; try discriminate; [| reflexivity].
    f_equal. auto.
  - intros [x|] [y|]; simpl; auto.
  - intros [x|] [y|] [z|]; simpl; try discriminate; eauto.
Qed.

Lemma lex_linear {K1 K2} (c1 : K1 -> K1 -> comparison) (c2 : K2 -> K2 -> comparison) :
  linear c1 -> linear c2 ->
  linear (fun p q : K1 * K2 => lex (c1 p.1 q.1) (c2 p.2 q.2)).
Proof.
  intros L1 L2. split.
  - intros [x1 x2] [y1 y2]; simpl. unfold lex.
    destruct (c1 x1 y1) eqn:E1; try discriminate. intros E2.
    f_equal; [eapply linear_eq | eapply linear_eq]; eauto.
  - intros [x1 x2] [y1 y2]; simpl. unfold lex.
    rewrite (linear_opp c1 L1 x1 y1), (linear_opp c2 L2 x2 y2).
    destruct (c1 x1 y1); reflexivity.
  - intros [x1 x2] [y1 y2] [z1 z2]; simpl. unfold lex.
    destruct (c1 x1 y1) eqn:E1; try discriminate.
    + apply (linear_eq c1 L1) in E1. subst y1.
      destruct (c1 x1 z1); try discriminate; auto.
      apply (linear_lt c2 L2).
    + intros _. destruct (c1 y1 z1) eqn:E2; try discriminate.
      * apply (linear_eq c1 L1) in E2. subst z1. rewrite E1. reflexivity.
      * rewrite (linear_lt c1 L1 _ _ _ E1 E2). reflexivity.
Qed.

Lemma cmp_rows_linear :
  linear (fun k1 k2 : string * (option string * string) =>
            lex (String.compare k1.1 k2.1)
                (lex (cmp_null_first k1.2.1 k2.2.1) (String.compare k1.2.2 k2.2.2))).
Proof.
  apply (lex_linear String.compare
           (fun p q : option string * string =>
              lex (cmp_null_first p.1 q.1) (String.compare p.2 q.2))).
  - apply string_compare_linear.
  - apply lex_linear; [apply cmp_null_first_linear | apply string_compare_linear].
Qed.

Lemma linear_le_trans {K} (c : K -> K -> comparison) (x y z : K) :
  linear c -> c x y <> Gt -> c y z <> Gt -> c x z <> Gt.
Proof.
  intros L Hxy Hyz.
  destruct (c x y) eqn:E1; [| | congruence].
  - apply (linear_eq c L) in E1. subst y. exact Hyz.
  - destruct (c y z) eqn:E2; [| | congruence].
    + apply (linear_eq c L) in E2. subst z. rewrite E1. discriminate.
    + rewrite (linear_lt c L _ _ _ E1 E2). discriminate.
Qed.

Lemma order_by_transitive : Transitive order_by.
Proof.
  intros r1 r2 r3. unfold order_by, cmp_rows.
  apply (linear_le_trans _ (sort_key r1) (sort_key r2) (sort_key r3) cmp_rows_linear).
Qed.

Lemma order_by_total : Total order_by.
Proof.
  intros r1 r2. unfold order_by.
  pose proof (linear_opp _ cmp_rows_linear (sort_key r1) (sort_key r2)) as H.
  change (cmp_rows r2 r1 = CompOpp (cmp_rows r1 r2)) in H.
  destruct (cmp_rows r1 r2) eqn:E; simpl in H.
  - left. discriminate.
  - left. discriminate.
  - right. rewrite H. discriminate.
Qed.

Lemma select_ttps_ordered_sorted d : StronglySorted order_by (select_ttps_ordered d).
Proof.
  unfold select_ttps_ordered.
  apply (@StronglySorted_merge_sort _ order_by order_by_dec
           order_by_transitive order_by_total).
Qed.

Lemma select_ttps_ordered_perm d : select_ttps_ordered d ≡ₚ ttps d.
Proof. apply merge_sort_Permutation. Qed.

Lemma StronglySorted_filter {A} (R : relation A) (P : A -> Prop)
      `{!forall x, Decision (P x)} (l : list A) :
  StronglySorted R l -> StronglySorted R (filter P l).
Proof.
  induction 1 as [| x l Hs IH Hx]; [constructor |].
  rewrite filter_cons. destruct (decide (P x)); [| exact IH].
  constructor; [exact IH |].
  rewrite Forall_forall in Hx |- *. intros y Hy.
  apply Hx. apply list_elem_of_filter in Hy. tauto.
Qed.

(** Grouping is filtering: what [groups.get(tac, [])] holds after the
    loop are the rows of that tactic, in the order of the list. *)
Lemma group_by_tactic_from (rows : list ttp_row) (g : gmap string (list ttp_row)) tac :
  default [] (fold_left (fun groups r =>
                           <[tactic r := default [] (groups !! tactic r) ++ [r]]> groups)
                        rows g !! tac)
  = default [] (g !! tac) ++ filter (fun r => tactic r = tac) rows.
Proof.
  revert g. induction rows as [| r rows IH]; intros g; simpl.
  - rewrite app_nil_r. reflexivity.
  - rewrite IH, filter_cons.
    destruct (decide (tactic r = tac)) as [-> | Hne].
    + rewrite lookup_insert_eq. simpl. rewrite <- app_assoc. reflexivity.
    + rewrite lookup_insert_ne by exact Hne. reflexivity.
Qed.

Lemma mitre_items_group (rows : list ttp_row) tac :
  mitre_items (group_by_tactic rows) tac = filter (fun r => tactic r = tac) rows.
Proof.
  unfold mitre_items, group_by_tactic.
  rewrite group_by_tactic_from, lookup_empty. reflexivity.
Qed.

Lemma mitre_rows_filter q d :
  mitre_rows q d = filter (visible q) (select_ttps_ordered d).
Proof.
  unfold mitre_rows. destruct (String.eqb_spec q "") as [-> | Hne].
  - symmetry. induction (select_ttps_ordered d) as [| r l IH]; [reflexivity |].
    rewrite filter_cons_True by (left; reflexivity). f_equal. exact IH.
  - apply list_filter_iff. intros r. unfold visible. intuition congruence.
Qed.

Lemma mitre_items_filter q_arg d tac :
  mitre_items (mitre_groups q_arg d) tac
  = filter (fun r => tactic r = tac)
           (filter (visible (mitre_query q_arg)) (select_ttps_ordered d)).
Proof.
  unfold mitre_groups. rewrite mitre_items_group, mitre_rows_filter. reflexivity.
Qed.

Lemma tactic_title_registered tac :
  in_TACTIC_TITLES tac = true -> exists title, tactic_title tac = ret title.
Proof.
  unfold in_TACTIC_TITLES, tactic_title. intros H.
  destruct (find (fun kv => String.eqb kv.1 tac) TACTIC_TITLES) as [kv |] eqn:E.
  - exists kv.2. reflexivity.
  - apply existsb_exists in H. destruct H as (kv & Hin & Hkv).
    eapply find_none in E; [| exact Hin]. simpl in E. congruence.
Qed.

Lemma tactic_title_unregistered tac :
  in_TACTIC_TITLES tac = false -> tactic_title tac = raise.
Proof.
  unfold in_TACTIC_TITLES, tactic_title. intros H.
  destruct (find (fun kv => String.eqb kv.1 tac) TACTIC_TITLES) as [kv |] eqn:E;
    [| reflexivity].
  apply find_some in E. destruct E as [Hin Hkv].
  assert (existsb (fun kv => String.eqb kv.1 tac) TACTIC_TITLES = true) as H'.
  { apply existsb_exists. exists kv. split; assumption. }
  congruence.
Qed.

Lemma mitre_cards_return (groups : gmap string (list ttp_row)) (l : list string) :
  Forall (fun tac => in_TACTIC_TITLES tac = true) l ->
  forall grid w, exists grid', for_acc (mitre_card groups) l grid w = (w, Return grid').
Proof.
  induction 1 as [| tac l Htac _ IH]; intros grid w; simpl.
  - exists grid. reflexivity.
  - destruct (tactic_title_registered tac Htac) as (title & Ht).
    unfold bind at 1. unfold mitre_card at 1. rewrite Ht. unfold bind at 1. unfold ret at 1.
    unfold ret at 1. apply IH.
Qed.

Lemma in_TACTIC_TITLES_order tac : in_TACTIC_TITLES tac = true <-> tac ∈ TACTIC_ORDER.
Proof.
  change TACTIC_ORDER with (map fst TACTIC_TITLES). unfold in_TACTIC_TITLES.
  rewrite existsb_exists, (list_elem_of_In _ tac), in_map_iff. split.
  - intros (kv & Hin & E). apply String.eqb_eq in E. exists kv. split; assumption.
  - intros (kv & E & Hin). exists kv. split; [assumption | now apply String.eqb_eq].
Qed.

Lemma StronglySorted_weaken {A} (R R' : relation A) (P : A -> Prop) (l : list A) :
  (forall x y, P x -> P y -> R x y -> R' x y) ->
  Forall P l -> StronglySorted R l -> StronglySorted R' l.
Proof.
  intros HR HP Hs. induction Hs as [| x l Hs IH Hx]; [constructor |].
  apply Forall_cons in HP. destruct HP as [Px Pl].
  constructor; [apply IH, Pl |].
  rewrite Forall_forall in Hx, Pl |- *. intros y Hy. apply HR; auto.
Qed.

(** Rows of one tactic, and the number of cards that count a row. *)
Lemma sum_cards (rows : list ttp_row) (l : list string) :
  NoDup l ->
  sum_list (map (fun tac => length (filter (fun r => tactic r = tac) rows)) l)
  = length (filter (fun r => tactic r ∈ l) rows).
Proof.
  intros Hl. induction rows as [| r rows IH].
  - simpl. induction l as [| tac l IHl]; [reflexivity |].
    simpl. apply IHl. now apply NoDup_cons in Hl.
  - rewrite (filter_cons (fun r => tactic r ∈ l)).
    assert (Hone : sum_list (map (fun tac => length (filter (fun r => tactic r = tac)
                                                            (r :: rows))) l)
                   = (if decide (tactic r ∈ l) then 1 else 0)
                     + sum_list (map (fun tac => length (filter (fun r => tactic r = tac)
                                                                rows)) l)).
    { clear IH. induction l as [| tac l IHl]; [destruct (decide (tactic r ∈ [])) as [H|H];
        [inversion H | reflexivity] |].
      apply NoDup_cons in Hl. destruct Hl as [Hnin Hl].
      simpl. rewrite (IHl Hl), filter_cons.
      destruct (decide (tactic r = tac)) as [E | E].
      - subst tac. rewrite (decide_True (P := tactic r ∈ tactic r :: l)) by left.
        rewrite (decide_False (P := tactic r ∈ l)) by exact Hnin.
        simpl. lia.
      - destruct (decide (tactic r ∈ l)) as [Hin | Hin'].
        + rewrite (decide_True (P := tactic r ∈ tac :: l)) by (now right). lia.
        + rewrite (decide_False (P := tactic r ∈ tac :: l)); [lia |].
          intros H. apply elem_of_cons in H. tauto. }
    rewrite Hone, IH. destruct (decide (tactic r ∈ l)); simpl; lia.
Qed.

Lemma TACTIC_ORDER_NoDup : NoDup TACTIC_ORDER.
Proof. apply (bool_decide_unpack _). vm_compute. reflexivity. Qed.

(** X8. The MITRE map is served for every query and every catalog, and
    reading it changes nothing: each tactic of [TACTIC_ORDER] has a title
    in [TACTIC_TITLES], so that the lookup in the loop never raises. *)
Theorem mitre_page_is_served (q_arg : string) (w : world) :
  exists html, mitre_body q_arg w = (w, Return html).
Proof.
  unfold mitre_body. cbv zeta.
  assert (Hreg : Forall (fun tac => in_TACTIC_TITLES tac = true) TACTIC_ORDER).
  { apply Forall_forall. intros tac. apply in_TACTIC_TITLES_order. }
  destruct (mitre_cards_return (mitre_groups q_arg (pending w)) TACTIC_ORDER Hreg
              EmptyString w) as (grid & E).
  unfold bind. rewrite E. eexists. reflexivity.
Qed.

(** X9. What a card of the MITRE map holds: exactly the stored rows of its
    tactic that the query lets through (all of them when the query is
    empty after trimming), each as often as it is stored; the number the
    card prints is the number of these rows. *)
Theorem mitre_card_contents (q_arg : string) (d : database) (tac : string) :
  (forall r, r ∈ mitre_items (mitre_groups q_arg d) tac <->
             r ∈ ttps d /\ tactic r = tac /\ visible (mitre_query q_arg) r) /\
  mitre_items (mitre_groups q_arg d) tac
    ≡ₚ filter (fun r => tactic r = tac /\ visible (mitre_query q_arg) r) (ttps d) /\
  length (mitre_items (mitre_groups q_arg d) tac)
  = length (filter (fun r => tactic r = tac /\ visible (mitre_query q_arg) r) (ttps d)).
Proof.
  rewrite mitre_items_filter, list_filter_filter.
  assert (Hp : filter (fun r => tactic r = tac /\ visible (mitre_query q_arg) r)
                      (select_ttps_ordered d)
               ≡ₚ filter (fun r => tactic r = tac /\ visible (mitre_query q_arg) r)
                         (ttps d)).
  { apply filter_Permutation, select_ttps_ordered_perm. }
  split; [| split].
  - intros r. rewrite list_elem_of_filter.
    rewrite (elem_of_Permutation_proper _ _ _ (select_ttps_ordered_perm d)). tauto.
  - exact Hp.
  - apply Permutation_length, Hp.
Qed.

(** X10. Within a card the techniques stand in the order of the query's
    [ORDER BY]: by name, a missing name first, and by technique id among
    equal names. Filtering by the search and grouping by tactic keep the
    order the database returned. *)
Theorem mitre_card_order (q_arg : string) (d : database) (tac : string) :
  StronglySorted
    (fun r1 r2 => cmp_null_first (name r1) (name r2) = Lt \/
                  (name r1 = name r2 /\
                   String.compare (technique_id r1) (technique_id r2) <> Gt))
    (mitre_items (mitre_groups q_arg d) tac).
Proof.
  rewrite mitre_items_filter.
  apply (StronglySorted_weaken order_by _ (fun r => tactic r = tac)).
  - intros r1 r2 H1 H2. unfold order_by, cmp_rows. rewrite H1, H2.
    rewrite (linear_refl String.compare tac string_compare_linear). unfold lex.
    destruct (cmp_null_first (name r1) (name r2)) eqn:E.
    + apply (linear_eq _ cmp_null_first_linear) in E. intros H. right. split; assumption.
    + intros _. left. reflexivity.
    + intros H. congruence.
  - apply Forall_forall. intros r Hr. apply list_elem_of_filter in Hr. tauto.
  - apply StronglySorted_filter, StronglySorted_filter, select_ttps_ordered_sorted.
Qed.

(** X11. The counts of all cards add up to the number of stored rows that
    the query lets through and whose tactic is in the registry: such a row
    is counted on one card only, and a row whose tactic is not a key of
    [TACTIC_TITLES] is counted on none. *)
Theorem mitre_counts_registered_rows (q_arg : string) (d : database) :
  sum_list (map (fun tac => length (mitre_items (mitre_groups q_arg d) tac)) TACTIC_ORDER)
  = length (filter (fun r => in_TACTIC_TITLES (tactic r) = true /\
                             visible (mitre_query q_arg) r) (ttps d)).
Proof.
  rewrite (map_ext _ (fun tac => length (filter (fun r => tactic r = tac)
                        (filter (visible (mitre_query q_arg)) (select_ttps_ordered d)))))
    by (intros tac; now rewrite mitre_items_filter).
  rewrite (sum_cards _ _ TACTIC_ORDER_NoDup), list_filter_filter.
  rewrite (list_filter_iff _ (fun r => in_TACTIC_TITLES (tactic r) = true /\
                                       visible (mitre_query q_arg) r))
    by (intros r; rewrite in_TACTIC_TITLES_order; tauto).
  apply Permutation_length, filter_Permutation, select_ttps_ordered_perm.
Qed.

End Mitre.

(** ** Repeating the import *)

Section Repeating.

Implicit Types (w : world) (env : environment) (j : list entry) (cut : option nat).

Lemma import_outcome_idem j j' cut n (d : database) :
  map unstamp j' = map unstamp j ->
  import_outcome j' cut n (import_outcome j cut n d) = import_outcome j cut n d.
Proof.
  intros Hu. unfold import_outcome. destruct (0 <? n)%nat; simpl.
  - rewrite (apply_journal_idem j j') by exact Hu. now rewrite insert_insert_eq.
  - destruct cut as [i |]; [| reflexivity]. unfold set_ttps. simpl.
    rewrite (apply_journal_idem (take i j) (take i j')); [reflexivity |].
    now rewrite <- !firstn_map, Hu.
Qed.

Lemma import_outcome_nonempty j cut n (d : database) :
  ttps d <> [] -> ttps (import_outcome j cut n d) <> [].
Proof.
  assert (Hlen : forall j' rows, rows <> [] -> apply_journal j' rows <> []).
  { intros j' rows Hr E. pose proof (length_apply_journal_bounds j' rows) as Hb.
    rewrite E in Hb. destruct rows; [congruence | simpl in Hb; lia]. }
  intros Hd. unfold import_outcome. destruct (0 <? n)%nat; simpl; [now apply Hlen |].
  destruct cut as [i |]; simpl; [now apply Hlen | exact Hd].
Qed.

(** X13. After one import request the database file has reached a fixed
    point: as long as the files on disk stay the same, no later sequence
    of requests, imports included, changes a row of [ttps] or a setting,
    and every later import reports the same total as the first. *)
Theorem import_reaches_fixed_point (env : environment) (w : world) (rts : list route) :
  let w1 := run (serve env LoadMitre) w in
  committed (serve_all env rts w1) = committed w1 /\
  result (serve env LoadMitre) (serve_all env rts w1) = result (serve env LoadMitre) w.
Proof.
  intros w1. destruct (serve_load_file env) as (b & cut & n & H).
  destruct (H w) as (j & d0 & Hj & Hne & _ & Hc & Hr).
  assert (Hfix : forall rts w', committed w' = committed w1 ->
                                committed (serve_all env rts w') = committed w1).
  { clear rts. intros rts. induction rts as [| rt rts IH]; intros w' Hw'; [exact Hw' |].
    simpl. apply IH.
    assert (Hne' : ttps (committed w') <> []).
    { rewrite Hw'. subst w1. rewrite Hc. apply import_outcome_nonempty, Hne. }
    destruct rt.
    - destruct (H w') as (j' & d0' & Hj' & _ & Hd' & Hc' & _).
      rewrite Hc', (Hd' Hne'), Hw'. subst w1. rewrite Hc.
      apply import_outcome_idem. congruence.
    - rewrite serve_other_file by exact Hne'. exact Hw'. }
  split; [apply Hfix; reflexivity |].
  destruct (H (serve_all env rts w1)) as (j' & d0' & _ & _ & _ & _ & Hr').
  now rewrite Hr, Hr'.
Qed.

End Repeating.
